(** * The command-execution kernel of yosys: [kernel/register.cc]

    A shallow embedding of the pass registry, the command-line tokenizer,
    the dispatcher, the scoped-call wrappers and the frontend and backend
    drivers, followed by the properties established about them.

    Conventions.
    - A [std::string] is a [string]; a [char *] into a private buffer is the
      [string] of the characters from the pointer up to the terminating NUL.
    - A [std::vector] is a [list] whose last element is [back()].
    - A [std::map<std::string, T*>] is a [gmap string ptr]; objects live in
      a store and a pointer is an index into it, so that the three registries
      can alias one object.
    - An [int] is a [Z] in the range of [int]; what is stored into one is
      wrapped to that range ([wrap_int]).
    - A [std::string] that is printed through [%s], or handed to the C
      library, goes through [c_str()]: it ends at its first NUL.
    - Code that throws, aborts or is undefined returns an [outcome] saying
      so; everything else threads the [World] explicitly. *)

From Stdlib Require Import String Ascii List ZArith Lia Bool.
From stdpp Require Import base option list gmap strings pretty.

Local Open Scope string_scope.
Local Open Scope list_scope.

(** ** Characters and C strings *)

Module CStr.

Definition NUL : ascii := Ascii.zero.
Definition HT : ascii := ascii_of_nat 9.
Definition LF : ascii := ascii_of_nat 10.
Definition CR : ascii := ascii_of_nat 13.
Definition SP : ascii := " "%char.

(** The delimiter set [" \t\r\n"] used by [strspn], [strtok_r] and
    [find_first_not_of]. *)
Definition blanks : list ascii := [SP; HT; CR; LF].

Definition mem_char (c : ascii) (set : list ascii) : bool :=
  existsb (Ascii.eqb c) set.

(** [std::string::c_str()] seen through [strdup]/[strlen]/[operator+=(const
    char* )]: the characters before the first NUL. *)
Fixpoint c_str (s : string) : string :=
  match s with
  | EmptyString => EmptyString
  | String c s' => if Ascii.eqb c NUL then EmptyString else String c (c_str s')
  end.

(** [s += strspn(s, accept)]: the buffer after its initial run of accepted
    characters. *)
Fixpoint strspn (s : string) (accept : list ascii) : nat :=
  match s with
  | EmptyString => 0
  | String c s' => if mem_char c accept then S (strspn s' accept) else 0
  end.

Fixpoint advance (n : nat) (s : string) : string :=
  match n, s with
  | 0, _ => s
  | S n', String _ s' => advance n' s'
  | S _, EmptyString => EmptyString
  end.

(** The token that starts at the head of [s], and what [saveptr] points to
    afterwards: [strtok_r] overwrites the delimiter that ends the token and
    resumes behind it. *)
Fixpoint strtok_span (s : string) (delim : list ascii) : string * string :=
  match s with
  | EmptyString => (EmptyString, EmptyString)
  | String c s' =>
      if mem_char c delim then (EmptyString, s')
      else let '(tok, rest) := strtok_span s' delim in (String c tok, rest)
  end.

(** One call of [strtok_r] on the unread part of the buffer: [None] is the
    NULL it returns when only delimiters are left. *)
Definition strtok_r (s : string) (delim : list ascii) : option (string * string) :=
  match advance (strspn s delim) s with
  | EmptyString => None
  | s' => Some (strtok_span s' delim)
  end.

(** All tokens [strtok_r] yields from a buffer, in order.  [cur] is the
    token being scanned.  The buffer is a private [strdup] copy, so the
    sequence is fixed before the first token is used. *)
Fixpoint tokens_from (cur : option string) (s : string) (delim : list ascii)
  : list string :=
  match s with
  | EmptyString => match cur with Some t => [t] | None => [] end
  | String c s' =>
      if mem_char c delim
      then match cur with
           | Some t => t :: tokens_from None s' delim
           | None => tokens_from None s' delim
           end
      else tokens_from
             (Some (match cur with Some t => t +:+ String c EmptyString
                               | None => String c EmptyString end)) s' delim
  end.

Definition tokens (s : string) (delim : list ascii) : list string :=
  tokens_from None s delim.

(** [str.substr(pos, n)] for [pos <= str.size()]. *)
Definition substr (s : string) (pos n : nat) : string := String.substring pos n s.

(** [str.substr(pos)]. *)
Definition substr_from (s : string) (pos : nat) : string := advance pos s.

(** [str[i]] for [i < str.size()]. *)
Definition at_ (s : string) (i : nat) : option ascii := String.get i s.

(** [name.rfind("=", 0) == 0]: the string starts with ["="]. *)
Definition starts_with (pre s : string) : bool := String.prefix pre s.

(** [buffer.find_first_not_of(set)]: [None] is [npos]. *)
Fixpoint find_first_not_of (s : string) (set : list ascii) : option nat :=
  match s with
  | EmptyString => None
  | String c s' =>
      if mem_char c set then S <$> find_first_not_of s' set else Some 0
  end.

(** Joining words with single blanks, as the loops that rebuild a command
    line do. *)
Fixpoint unwords (l : list string) : string :=
  match l with
  | [] => EmptyString
  | [x] => x
  | x :: l' => x +:+ " " +:+ unwords l'
  end.

(** [std::string(n, ' ')], the padding [%*s] prints for an empty string. *)
Fixpoint spaces (n : nat) : string :=
  match n with
  | 0 => EmptyString
  | S n' => String SP (spaces n')
  end.

Definition nl : string := String LF EmptyString.

(** The range of [int]: 32 bits, two's complement. *)
Definition int_min : Z := (-2147483648)%Z.
Definition int_max : Z := 2147483647%Z.

(** The [int] an arithmetic result is stored as: the value in the range of
    [int] that is congruent to it modulo [2^32], which is what [++] and
    [+=] on an [int] leave in the variable when the result does not fit. *)
Definition wrap_int (z : Z) : Z := ((z + 2147483648) mod 4294967296 - 2147483648)%Z.

(** The [while (p >= s && ( *p == '\r' || *p == '\n')) *(p--) = 0;] of the
    shell passthrough: the buffer without its trailing run of CR and LF. *)
Fixpoint strip_trailing (s : string) (set : list ascii) : string :=
  match s with
  | EmptyString => EmptyString
  | String c s' =>
      match strip_trailing s' set with
      | EmptyString => if mem_char c set then EmptyString else String c EmptyString
      | r => String c r
      end
  end.

(** [fgets(block, n, f)] on the unread rest [f] of a stream that is not at
    its end: the block read, of at most [k = n - 1] characters and ending
    with the first newline if there is one, and the rest of the stream. *)
Fixpoint fgets_block (k : nat) (f : string) : string * string :=
  match k, f with
  | 0, _ => (EmptyString, f)
  | S _, EmptyString => (EmptyString, EmptyString)
  | S k', String c f' =>
      if Ascii.eqb c LF then (String c EmptyString, f')
      else let '(b, r) := fgets_block k' f' in (String c b, r)
  end.

(** [fgets(block, n, f)]: [None] is the NULL returned at end of file. *)
Definition fgets (n : nat) (f : string) : option (string * string) :=
  match f with
  | EmptyString => None
  | _ => Some (fgets_block (n - 1) f)
  end.

(** [buffer.size() > 0 && (buffer[buffer.size() - 1] == '\n' ||
    buffer[buffer.size() - 1] == '\r')] *)
Definition ends_line (buffer : string) : bool :=
  (0 <? String.length buffer)%nat &&
  match String.get (String.length buffer - 1) buffer with
  | Some c => Ascii.eqb c LF || Ascii.eqb c CR
  | None => false
  end.

End CStr.

Import CStr.

(** ** Objects, design and world *)

(** A [Pass *]: the index of the object in the store. *)
Abbreviation ptr := nat.

(** The dynamic type of a command object.  A [Frontend] carries its
    [frontend_name] and a [Backend] its [backend_name]. *)
Inductive PassKind :=
| PlainPass
| FrontendPass (frontend_name : string)
| BackendPass (backend_name : string).

(** The data members of [struct Pass] (with those of its subclass);
    [call_counter] is an [int]. *)
Record PassObj := mkPass {
  pass_name : string;
  short_help : string;
  call_counter : Z;
  next_queued_pass : option ptr;
  kind : PassKind
}.

(** Modelled from the spec: [RTLIL::Module] is declared in [kernel/rtlil.h],
    which is not among the sources; the kernel only reads its [name]. *)
Record Module_ := mkModule { module_name : string }.

(** Modelled from the spec: [RTLIL::Selection] is declared in
    [kernel/rtlil.h], which is not among the sources.  It is "constructed
    either empty-with-polarity or via a select(module) mutator": the
    polarity flag and the set of wholly selected modules. *)
Record Selection := mkSelection {
  full_selection : bool;
  selected_modules : gset string
}.

(** [RTLIL::Selection(full)]. *)
Definition Selection_ctor (full : bool) : Selection :=
  {| full_selection := full; selected_modules := ∅ |}.

(** Modelled from the spec: [Selection::select(module)] makes the selection
    contain the module; a full selection already contains every module. *)
Definition Selection_select (m : Module_) (s : Selection) : Selection :=
  if full_selection s then s
  else {| full_selection := false;
          selected_modules := {[ module_name m ]} ∪ selected_modules s |}.

(** A [FILE *] that is not NULL. *)
Inductive FILEp :=
| stdin_
| stdout_
| file_handle (h : nat)
| mem_stream (content : string).

Global Instance FILEp_eq_dec : EqDecision FILEp.
Proof. solve_decision. Defined.

(** What the kernel does to its collaborators, in program order. *)
Inductive Event :=
| EvLog (text : string)
| EvSystem (cmd : string)
| EvCheck
| EvFclose (f : FILEp).

Section Kernel.

(** The part of [RTLIL::Design] the kernel never looks at. *)
Context {Netlist : Type}.

Record Design := mkDesign {
  selection_stack : list Selection;
  selected_active_module : string;
  netlist : Netlist
}.

(** The globals of [REGISTER_INTERN], the static members of [Frontend], the
    object store, the design and the trace of external calls.
    [current_script_file] is the unread rest of the open script, [None] for
    NULL. *)
Record World := mkWorld {
  objects : list PassObj;
  first_queued_pass : option ptr;
  pass_register : gmap string ptr;
  frontend_register : gmap string ptr;
  backend_register : gmap string ptr;
  echo_mode : bool;
  next_args : list string;
  current_script_file : option string;
  last_here_document : string;
  design : Design;
  events : list Event
}.

Definition set_objects (x : list PassObj) (w : World) : World :=
  mkWorld x (first_queued_pass w) (pass_register w) (frontend_register w)
    (backend_register w) (echo_mode w) (next_args w) (current_script_file w)
    (last_here_document w) (design w) (events w).

Definition set_first_queued_pass (x : option ptr) (w : World) : World :=
  mkWorld (objects w) x (pass_register w) (frontend_register w)
    (backend_register w) (echo_mode w) (next_args w) (current_script_file w)
    (last_here_document w) (design w) (events w).

Definition set_pass_register (x : gmap string ptr) (w : World) : World :=
  mkWorld (objects w) (first_queued_pass w) x (frontend_register w)
    (backend_register w) (echo_mode w) (next_args w) (current_script_file w)
    (last_here_document w) (design w) (events w).

Definition set_frontend_register (x : gmap string ptr) (w : World) : World :=
  mkWorld (objects w) (first_queued_pass w) (pass_register w) x
    (backend_register w) (echo_mode w) (next_args w) (current_script_file w)
    (last_here_document w) (design w) (events w).

Definition set_backend_register (x : gmap string ptr) (w : World) : World :=
  mkWorld (objects w) (first_queued_pass w) (pass_register w)
    (frontend_register w) x (echo_mode w) (next_args w)
    (current_script_file w) (last_here_document w) (design w) (events w).

Definition set_next_args (x : list string) (w : World) : World :=
  mkWorld (objects w) (first_queued_pass w) (pass_register w)
    (frontend_register w) (backend_register w) (echo_mode w) x
    (current_script_file w) (last_here_document w) (design w) (events w).

Definition set_current_script_file (x : option string) (w : World) : World :=
  mkWorld (objects w) (first_queued_pass w) (pass_register w)
    (frontend_register w) (backend_register w) (echo_mode w) (next_args w) x
    (last_here_document w) (design w) (events w).

Definition set_last_here_document (x : string) (w : World) : World :=
  mkWorld (objects w) (first_queued_pass w) (pass_register w)
    (frontend_register w) (backend_register w) (echo_mode w) (next_args w)
    (current_script_file w) x (design w) (events w).

Definition set_design (x : Design) (w : World) : World :=
  mkWorld (objects w) (first_queued_pass w) (pass_register w)
    (frontend_register w) (backend_register w) (echo_mode w) (next_args w)
    (current_script_file w) (last_here_document w) x (events w).

Definition add_event (e : Event) (w : World) : World :=
  mkWorld (objects w) (first_queued_pass w) (pass_register w)
    (frontend_register w) (backend_register w) (echo_mode w) (next_args w)
    (current_script_file w) (last_here_document w) (design w)
    (events w ++ [e]).

Definition set_selection_stack (x : list Selection) (d : Design) : Design :=
  mkDesign x (selected_active_module d) (netlist d).

Definition set_selected_active_module (x : string) (d : Design) : Design :=
  mkDesign (selection_stack d) x (netlist d).

(** ** Outcomes *)

(** How a piece of the kernel can end.
    - [Done]: it returned.
    - [CmdError]: [log_cmd_error] raised the command error, which unwinds to
      the enclosing command loop; the world is the one at the throw.
    - [Fatal]: [log_error], a failed [log_assert], an uncaught C++ exception
      or a failed consistency check ended the process.
    - [Undefined]: the C++ has no defined behaviour (NULL or dangling
      pointer, [pop_back] or [operator[]] on an empty vector).
    - [OutOfFuel]: the bound put on a loop of the model was reached. *)
Inductive outcome (A : Type) :=
| Done (a : A) (w : World)
| CmdError (msg : string) (w : World)
| Fatal (msg : string)
| Undefined
| OutOfFuel.

Global Arguments Done {A} a w.
Global Arguments CmdError {A} msg w.
Global Arguments Fatal {A} msg.
Global Arguments Undefined {A}.
Global Arguments OutOfFuel {A}.

Definition M (A : Type) : Type := World -> outcome A.

Definition ret {A} (a : A) : M A := fun w => Done a w.

Definition bind {A B} (c : M A) (k : A -> M B) : M B :=
  fun w =>
    match c w with
    | Done a w' => k a w'
    | CmdError msg w' => CmdError msg w'
    | Fatal msg => Fatal msg
    | Undefined => Undefined
    | OutOfFuel => OutOfFuel
    end.

Global Instance M_ret : MRet M := @ret.
Global Instance M_bind : MBind M := fun A B k c => bind c k.

Definition gets {A} (f : World -> A) : M A := fun w => Done (f w) w.
Definition modify (f : World -> World) : M unit := fun w => Done tt (f w).
Definition undefined {A} : M A := fun _ => Undefined.
Definition out_of_fuel {A} : M A := fun _ => OutOfFuel.

(** [if (c) body;] *)
Definition when (c : bool) (body : M unit) : M unit :=
  if c then body else ret tt.

(** Modelled from the spec: [log_cmd_error] (kernel/log.cc, not among the
    sources) is the "command error" channel that "aborts only the current
    command, not the process"; it never returns to its caller. *)
Definition log_cmd_error {A} (msg : string) : M A := fun w => CmdError msg w.

(** Modelled from the spec: [log_error] (kernel/log.cc) is the "fatal"
    channel that aborts the process. *)
Definition log_error {A} (msg : string) : M A := fun _ => Fatal msg.

(** Modelled from the spec: [log_assert] (kernel/log.h) is fatal when the
    asserted expression is false. *)
Definition log_assert (b : bool) (expr : string) : M unit :=
  if b then ret tt else log_error ("Assert `" +:+ expr +:+ "' failed.").

(** [log], [log_header]: text appended to the log sink. *)
Definition log (text : string) : M unit := modify (add_event (EvLog text)).

(** [*p] for a [Pass *p]. *)
Definition deref (p : ptr) : M PassObj :=
  fun w => match objects w !! p with
           | Some o => Done o w
           | None => Undefined
           end.

(** [p->call_counter++] *)
Definition bump_call_counter (p : ptr) : M unit :=
  o ← deref p;
  modify (fun w =>
    set_objects (<[p := mkPass (pass_name o) (short_help o)
                          (wrap_int (call_counter o + 1)) (next_queued_pass o)
                          (kind o)]>
                 (objects w)) w).

(** ** Collaborators *)

(** The host: what the kernel calls and the sources do not define. *)
Class Host := {
  (** [system(s)]: the exit status of the shell command. *)
  os_system : string -> Z;
  (** [fopen(path, mode)]: the handle of the opened file, [None] for NULL. *)
  os_fopen : string -> string -> option nat;
  (** [strerror(errno)] after [fopen(path, mode)] has returned NULL *)
  os_strerror : string -> string -> string;
  (** [design->check()]: [false] when it finds the design inconsistent. *)
  design_check : Design -> bool;
  (** [create_prompt(design, 0)] *)
  create_prompt : Design -> string;
  (** the virtual [help()] of a command object *)
  pass_help : ptr -> M unit
}.

(** The commands: the virtual methods the registered objects implement. *)
Class Commands := {
  (** [execute(args, design)] of a plain pass *)
  pass_execute : ptr -> list string -> M unit;
  (** [execute(f, filename, args, design)] of a frontend; [f] is passed by
      reference and returned *)
  frontend_execute :
    ptr -> option FILEp -> string -> list string -> M (option FILEp);
  (** [execute(f, filename, args, design)] of a backend *)
  backend_execute :
    ptr -> option FILEp -> string -> list string -> M (option FILEp)
}.

Context {host : Host}.

(** Modelled from the spec: [design->check()] "fails fatally on internal
    inconsistency". *)
Definition Design_check : M unit :=
  d ← gets design;
  if design_check d then modify (add_event EvCheck)
  else log_error "design consistency check failed".

(** [fclose(f)] *)
Definition fclose (f : option FILEp) : M unit :=
  match f with
  | None => undefined
  | Some f' => modify (add_event (EvFclose f'))
  end.

(** ** Registration *)

(** [Pass::Pass(name, short_help)]; the object is allocated at the end of
    the store.  [k] is the dynamic type the subclass constructor gives it. *)
Definition Pass_ctor (name short_help : string) (k : PassKind) : M ptr :=
  this ← gets (fun w => length (objects w));
  q ← gets first_queued_pass;
  modify (fun w => set_objects (objects w ++ [mkPass name short_help 0 q k]) w);;
  modify (set_first_queued_pass (Some this));;
  mret this.

(** [Frontend::Frontend(name, short_help)] *)
Definition Frontend_ctor (name short_help : string) : M ptr :=
  Pass_ctor
    (if starts_with "=" name then substr_from name 1 else "read_" +:+ name)
    short_help
    (FrontendPass (if starts_with "=" name then substr_from name 1 else name)).

(** [Backend::Backend(name, short_help)] *)
Definition Backend_ctor (name short_help : string) : M ptr :=
  Pass_ctor
    (if starts_with "=" name then substr_from name 1 else "write_" +:+ name)
    short_help
    (BackendPass (if starts_with "=" name then substr_from name 1 else name)).

(** A static command object as its translation unit declares it. *)
Inductive Decl :=
| DeclPass (name short_help : string)
| DeclFrontend (name short_help : string)
| DeclBackend (name short_help : string).

(** The construction of one declared object. *)
Definition construct (d : Decl) : M ptr :=
  match d with
  | DeclPass name short_help => Pass_ctor name short_help PlainPass
  | DeclFrontend name short_help => Frontend_ctor name short_help
  | DeclBackend name short_help => Backend_ctor name short_help
  end.

(** Static initialisation: the declared objects are constructed in order. *)
Fixpoint construct_all (ds : list Decl) : M unit :=
  match ds with
  | [] => mret tt
  | d :: ds' => construct d;; construct_all ds'
  end.

(** [map.count(key) == 0] *)
Definition count_is_0 (m : gmap string ptr) (key : string) : bool :=
  match m !! key with None => true | Some _ => false end.

(** [Pass::run_register] *)
Definition Pass_run_register (this : ptr) : M unit :=
  o ← deref this;
  pr ← gets pass_register;
  log_assert (count_is_0 pr (pass_name o)) "pass_register.count(pass_name) == 0";;
  modify (fun w => set_pass_register (<[pass_name o := this]> (pass_register w)) w).

(** [Frontend::run_register] *)
Definition Frontend_run_register (this : ptr) (frontend_name : string) : M unit :=
  o ← deref this;
  pr ← gets pass_register;
  log_assert (count_is_0 pr (pass_name o)) "pass_register.count(pass_name) == 0";;
  modify (fun w => set_pass_register (<[pass_name o := this]> (pass_register w)) w);;
  fr ← gets frontend_register;
  log_assert (count_is_0 fr frontend_name) "frontend_register.count(frontend_name) == 0";;
  modify (fun w => set_frontend_register (<[frontend_name := this]> (frontend_register w)) w).

(** [Backend::run_register] *)
Definition Backend_run_register (this : ptr) (backend_name : string) : M unit :=
  o ← deref this;
  pr ← gets pass_register;
  log_assert (count_is_0 pr (pass_name o)) "pass_register.count(pass_name) == 0";;
  modify (fun w => set_pass_register (<[pass_name o := this]> (pass_register w)) w);;
  br ← gets backend_register;
  log_assert (count_is_0 br backend_name) "backend_register.count(backend_name) == 0";;
  modify (fun w => set_backend_register (<[backend_name := this]> (backend_register w)) w).

(** The virtual call [p->run_register()]. *)
Definition run_register (p : ptr) : M unit :=
  o ← deref p;
  match kind o with
  | PlainPass => Pass_run_register p
  | FrontendPass fn => Frontend_run_register p fn
  | BackendPass bn => Backend_run_register p bn
  end.

(** [Pass::init_register]; [fuel] bounds the iterations of the [while]. *)
Fixpoint Pass_init_register (fuel : nat) : M unit :=
  q ← gets first_queued_pass;
  match q with
  | None => mret tt
  | Some p =>
      match fuel with
      | 0 => out_of_fuel
      | S fuel' =>
          run_register p;;
          q' ← gets first_queued_pass;
          match q' with
          | None => undefined
          | Some p' =>
              o ← deref p';
              modify (set_first_queued_pass (next_queued_pass o));;
              Pass_init_register fuel'
          end
      end
  end.

(** [Pass::done_register] *)
Definition Pass_done_register : M unit :=
  modify (set_frontend_register ∅);;
  modify (set_pass_register ∅);;
  modify (set_backend_register ∅);;
  q ← gets first_queued_pass;
  log_assert (bool_decide (q = None)) "first_queued_pass == NULL".

(** ** Command errors *)

(** One round of the loop of [Pass::cmd_error] that rebuilds the command
    line. *)
Definition command_text_step (command_text arg : string) : string :=
  command_text +:+ (if String.eqb command_text "" then "" else " ") +:+ arg.

(** [error_pos += args[i].size() + 1], for the arguments before [argidx];
    [error_pos] is an [int]. *)
Definition error_pos_step (error_pos : Z) (arg : string) : Z :=
  wrap_int (error_pos + Z.of_nat (String.length arg) + 1).

(** What [%*s] prints for the empty string and the width [n]: [n] blanks,
    and as many for the width [-n], which asks for them on the other side. *)
Definition padding (width : Z) : string := spaces (Z.to_nat (Z.abs width)).

(** [Pass::cmd_error]: it never returns.  The texts are printed through
    [%s] from [c_str()]. *)
Definition Pass_cmd_error {A} (this : ptr) (args : list string) (argidx : nat)
    (msg : string) : M A :=
  let command_text := fold_left command_text_step args "" in
  let error_pos := fold_left error_pos_step (take argidx args) 0%Z in
  log (nl +:+ "Syntax error in command `" +:+ c_str command_text +:+ "':" +:+ nl);;
  pass_help this;;
  log_cmd_error ("Command syntax error: " +:+ c_str msg +:+ nl +:+ "> " +:+
                 c_str command_text +:+ nl +:+ "> " +:+ padding error_pos +:+
                 "^" +:+ nl).

(** ** The frontend's source resolution *)

(** The size of [block] in [Frontend::extra_args]. *)
Definition block_size : nat := 4096.

(** The inner [while (1)] of the here-document capture: blocks are appended
    to [buffer] until it ends a line.  [fuel] bounds the iterations. *)
Fixpoint heredoc_read_buffer (fuel : nat) (filename buffer : string) : M string :=
  match fuel with
  | 0 => out_of_fuel
  | S fuel' =>
      sf ← gets current_script_file;
      match sf with
      | None => undefined
      | Some f =>
          match fgets block_size f with
          | None =>
              log_error ("Unexpected end of file in here document '" +:+
                         c_str filename +:+ "'!" +:+ nl)
          | Some (block, rest) =>
              modify (set_current_script_file (Some rest));;
              let buffer := buffer +:+ c_str block in
              if ends_line buffer then mret buffer
              else heredoc_read_buffer fuel' filename buffer
          end
      end
  end.

(** The outer [while (1)]: lines are appended to [last_here_document] up to
    the line that has the marker behind its indentation.  A line of blanks
    only makes [indent] -1 and [buffer.substr(indent, ...)] throw
    [std::out_of_range], which nothing catches. *)
Fixpoint heredoc_read (fuel : nat) (filename eot_marker : string) : M unit :=
  match fuel with
  | 0 => out_of_fuel
  | S fuel' =>
      buffer ← heredoc_read_buffer fuel filename "";
      match find_first_not_of buffer blanks with
      | None => log_error "terminate called after throwing an instance of 'std::out_of_range'"
      | Some indent =>
          if String.eqb (substr buffer indent (String.length eot_marker)) eot_marker
          then mret tt
          else
            modify (fun w =>
              set_last_here_document (last_here_document w +:+ buffer) w);;
            heredoc_read fuel' filename eot_marker
      end
  end.

(** The [if (filename.substr(0, 2) == "<<") { ... }] of
    [Frontend::extra_args]: the here-document is captured from the open
    script and opened as a memory stream.  The bound on the capture loop is
    the number of characters the script has left, each round reading at
    least one. *)
Definition here_document (filename : string) : M (option FILEp) :=
  sf ← gets current_script_file;
  when (bool_decide (sf = None))
    (log_error ("Unexpected here document '" +:+ c_str filename +:+
                "' outside of script!" +:+ nl));;
  when (String.length filename <=? 2)%nat
    (log_error ("Missing EOT marker in here document!" +:+ nl));;
  let eot_marker := substr_from filename 2 in
  modify (set_last_here_document "");;
  heredoc_read (S (String.length (default "" sf))) filename eot_marker;;
  doc ← gets last_here_document;
  (* fmemopen, taken to succeed *)
  mret (Some (mem_stream doc)).

(** [v.insert(v.begin() + pos, first, last)] *)
Definition vector_insert {A} (pos : nat) (xs v : list A) : list A :=
  take pos v ++ xs ++ drop pos v.

(** The [for (i = argidx+1; ...)] of [Frontend::extra_args]: no option may
    follow the filename.  [rest] is [args] from index [i] on. *)
Fixpoint no_option_follows (this : ptr) (args rest : list string) (i : nat)
  : M unit :=
  match rest with
  | [] => mret tt
  | a :: rest' =>
      when (String.eqb (substr a 0 1) "-")
        (Pass_cmd_error this args i "Found option, expected arguments.");;
      no_option_follows this args rest' (S i)
  end.

(** [Frontend::extra_args(f, filename, args, argidx)].  [f] and [filename]
    are passed by reference and returned; [args] is a copy.  The [for] loop
    ends in [break], so its body runs at most once. *)
Definition Frontend_extra_args (this : ptr) (f : option FILEp)
    (filename : string) (args : list string) (argidx : nat)
  : M (option FILEp * string) :=
  let called_with_fp := bool_decide (f ≠ None) in
  modify (set_next_args []);;
  r ← match args !! argidx with
      | None => mret (f, filename, args, argidx)
      | Some arg =>
          when (String.eqb (substr arg 0 1) "-")
            (Pass_cmd_error this args argidx
               "Unkown option or option in arguments.");;
          when (bool_decide (f ≠ None))
            (Pass_cmd_error this args argidx
               "Extra filename argument in direct file mode.");;
          let filename := arg in
          let '(filename, argidx) :=
            if String.eqb filename "<<" && (argidx + 1 <? length args)%nat
            then (filename +:+ default "" (args !! (argidx + 1)), argidx + 1)
            else (filename, argidx) in
          f ← (if String.eqb (substr filename 0 2) "<<"
               then here_document filename
               else mret (file_handle <$> os_fopen (c_str filename) "r"));
          when (bool_decide (f = None))
            (log_cmd_error ("Can't open input file `" +:+ c_str filename +:+
                            "' for reading: " +:+
                            c_str (os_strerror (c_str filename) "r") +:+ nl));;
          no_option_follows this args (drop (argidx + 1) args) (argidx + 1);;
          if (argidx + 1 <? length args)%nat then
            modify (fun w =>
              set_next_args (vector_insert 0 (take argidx args) (next_args w)) w);;
            modify (fun w =>
              set_next_args
                (vector_insert argidx (drop (argidx + 1) args) (next_args w)) w);;
            mret (f, filename, take (argidx + 1) args, argidx)
          else mret (f, filename, args, argidx)
      end;
  let '(f, filename, args, argidx) := r in
  when (bool_decide (f = None))
    (Pass_cmd_error this args argidx "No filename given.");;
  let args := if called_with_fp then args ++ [filename] else args in
  (* args[0] = pass_name *)
  match args with
  | [] => undefined
  | _ :: _ => mret (f, filename)
  end.

(** ** The backend's destination resolution *)

(** The [for] loop of [Backend::extra_args]; [rest] is [args] from index
    [argidx] on. *)
Fixpoint Backend_extra_args_loop (this : ptr) (args rest : list string)
    (argidx : nat) (f : option FILEp) (filename : string)
  : M (option FILEp * string) :=
  match rest with
  | [] => mret (f, filename)
  | arg :: rest' =>
      when (String.eqb (substr arg 0 1) "-" && negb (String.eqb arg "-"))
        (Pass_cmd_error this args argidx
           "Unkown option or option in arguments.");;
      when (bool_decide (f ≠ None))
        (Pass_cmd_error this args argidx
           "Extra filename argument in direct file mode.");;
      if String.eqb arg "-" then
        Backend_extra_args_loop this args rest' (S argidx)
          (Some stdout_) "<stdout>"
      else
        let filename := arg in
        let f := file_handle <$> os_fopen (c_str filename) "w" in
        when (bool_decide (f = None))
          (log_cmd_error ("Can't open output file `" +:+ c_str filename +:+
                          "' for writing: " +:+
                          c_str (os_strerror (c_str filename) "w") +:+ nl));;
        Backend_extra_args_loop this args rest' (S argidx) f filename
  end.

(** [Backend::extra_args(f, filename, args, argidx)] *)
Definition Backend_extra_args (this : ptr) (f : option FILEp)
    (filename : string) (args : list string) (argidx : nat)
  : M (option FILEp * string) :=
  let called_with_fp := bool_decide (f ≠ None) in
  r ← Backend_extra_args_loop this args (drop argidx args) argidx f filename;
  let '(f, filename) := r in
  let args := if called_with_fp then args ++ [filename] else args in
  (* args[0] = pass_name *)
  match args with
  | [] => undefined
  | _ :: _ =>
      match f with
      | None => mret (Some stdout_, "<stdout>")
      | Some _ => mret (f, filename)
      end
  end.

(** ** The drivers *)

Context {cmds : Commands}.

(** The [do ... while (!args.empty())] of [Frontend::execute(args, design)];
    [fuel] bounds the iterations. *)
Fixpoint Frontend_execute_loop (fuel : nat) (this : ptr) (args : list string)
  : M unit :=
  match fuel with
  | 0 => out_of_fuel
  | S fuel' =>
      (* FILE *f = NULL *)
      modify (set_next_args []);;
      bump_call_counter this;;
      f ← frontend_execute this None "" args;
      args ← gets next_args;
      fclose f;;
      match args with
      | [] => mret tt
      | _ :: _ => Frontend_execute_loop fuel' this args
      end
  end.

(** [Frontend::execute(args, design)] *)
Definition Frontend_execute (fuel : nat) (this : ptr) (args : list string)
  : M unit :=
  na ← gets next_args;
  log_assert (bool_decide (na = [])) "next_args.empty()";;
  Frontend_execute_loop fuel this args.

(** [Backend::execute(args, design)] *)
Definition Backend_execute (this : ptr) (args : list string) : M unit :=
  (* FILE *f = NULL *)
  bump_call_counter this;;
  f ← backend_execute this None "" args;
  if bool_decide (f ≠ Some stdout_) then fclose f else mret tt.

(** The virtual call [p->execute(args, design)]. *)
Definition virtual_execute (fuel : nat) (p : ptr) (args : list string)
  : M unit :=
  o ← deref p;
  match kind o with
  | PlainPass => pass_execute p args
  | FrontendPass _ => Frontend_execute fuel p args
  | BackendPass _ => Backend_execute p args
  end.

(** ** The dispatcher *)

(** [while (stack.size() > orig) stack.pop_back();] with [n] rounds left. *)
Fixpoint unwind_loop (n orig : nat) (stack : list Selection) : list Selection :=
  match n with
  | 0 => stack
  | S n' =>
      if (orig <? length stack)%nat
      then unwind_loop n' orig (removelast stack)
      else stack
  end.

Definition unwind (orig : nat) (stack : list Selection) : list Selection :=
  unwind_loop (length stack) orig stack.

(** The loop of the echo mode:
    [log("%s%s", i ? " " : "", args[i].c_str())]. *)
Fixpoint log_args (i : nat) (args : list string) : M unit :=
  match args with
  | [] => mret tt
  | a :: args' =>
      log ((if (0 <? i)%nat then " " else "") +:+ c_str a);;
      log_args (S i) args'
  end.

(** The [if (echo_mode) { ... }] of the dispatcher. *)
Definition echo_command (args : list string) : M unit :=
  em ← gets echo_mode;
  when em
    (d ← gets design;
     log (c_str (create_prompt d));;
     log_args 0 args;;
     log nl).

(** [while (design->selection_stack.size() > orig_sel_stack_pos)
    design->selection_stack.pop_back();] *)
Definition unwind_selection_stack (orig_sel_stack_pos : nat) : M unit :=
  modify (fun w =>
    set_design
      (set_selection_stack
         (unwind orig_sel_stack_pos (selection_stack (design w)))
         (design w)) w).

(** [Pass::call(design, std::vector<std::string> args)]; [fuel] is handed to
    the frontend driver. *)
Definition Pass_call (fuel : nat) (args : list string) : M unit :=
  match args with
  | [] => mret tt
  | a0 :: _ =>
      if bool_decide (at_ a0 0 = Some "#"%char) then mret tt
      else
        echo_command args;;
        pr ← gets pass_register;
        when (count_is_0 pr a0)
          (log_cmd_error ("No such command: " +:+ c_str a0 +:+
                          " (type 'help' for a command overview)" +:+ nl));;
        orig_sel_stack_pos ← gets (fun w => length (selection_stack (design w)));
        pr ← gets pass_register;
        match pr !! a0 with
        | None => undefined
        | Some p =>
            bump_call_counter p;;
            pr ← gets pass_register;
            match pr !! a0 with
            | None => undefined
            | Some p =>
                virtual_execute fuel p args;;
                unwind_selection_stack orig_sel_stack_pos;;
                Design_check
            end
        end
  end.

(** ** The tokenizer *)

(** [while (strsz > 0 && str[strsz-1] == ';') strsz--, num_semikolon++;] *)
Fixpoint strip_semikolon (str : string) (strsz num_semikolon : nat) : nat * nat :=
  match strsz with
  | 0 => (0, num_semikolon)
  | S strsz' =>
      if bool_decide (at_ str strsz' = Some ";"%char)
      then strip_semikolon str strsz' (S num_semikolon)
      else (strsz, num_semikolon)
  end.

(** [strsz > 0 && str[strsz-1] == ';'] for [strsz = str.size()] *)
Definition ends_with_semikolon (str : string) : bool :=
  (0 <? String.length str)%nat &&
  bool_decide (at_ str (String.length str - 1) = Some ";"%char).

(** The [for] loop over the tokens of [Pass::call(design, std::string)] and
    the dispatch that follows it.  [calls] is the string-form call itself,
    used for the two fixed commands. *)
Fixpoint call_tokens (fuel : nat) (calls : string -> M unit)
    (toks : list string) (args : list string) : M unit :=
  match toks with
  | [] => Pass_call fuel args
  | str :: toks' =>
      let strsz := String.length str in
      if String.eqb str "#" then Pass_call fuel args
      else if ends_with_semikolon str
      then
        let '(strsz, num_semikolon) := strip_semikolon str strsz 0 in
        let args := if (0 <? strsz)%nat then args ++ [substr str 0 strsz] else args in
        Pass_call fuel args;;
        (* args.clear() *)
        when (num_semikolon =? 2)%nat (calls "clean");;
        when (num_semikolon =? 3)%nat (calls "clean -purge");;
        call_tokens fuel calls toks' []
      else call_tokens fuel calls toks' (args ++ [str])
  end.

(** The body of [Pass::call(design, std::string command)]. *)
Definition Pass_call_string_body (fuel : nat) (calls : string -> M unit)
    (command : string) : M unit :=
  let s := c_str command in
  let s := advance (strspn s blanks) s in
  match s with
  | EmptyString => mret tt
  | String c s1 =>
      if Ascii.eqb c "#" then mret tt
      else if Ascii.eqb c "!" then
        let s := advance (strspn s1 [SP; HT]) s1 in
        let s := strip_trailing s [CR; LF] in
        log ("Shell command: " +:+ s +:+ nl);;
        modify (add_event (EvSystem s));;
        let retCode := os_system s in
        when (negb (retCode =? 0)%Z)
          (log_cmd_error ("Shell command returned error code " +:+
                          pretty retCode +:+ "." +:+ nl))
      else call_tokens fuel calls (tokens s blanks) []
  end.

(** [Pass::call(design, std::string command)]; [depth] bounds the nesting
    of the string-form call in itself. *)
Fixpoint Pass_call_string (fuel depth : nat) (command : string) : M unit :=
  match depth with
  | 0 => out_of_fuel
  | S depth' =>
      Pass_call_string_body fuel (Pass_call_string fuel depth') command
  end.

(** ** The scoped-call wrappers *)

(** [design->selection_stack.push_back(sel)] *)
Definition push_selection (sel : Selection) : M unit :=
  modify (fun w =>
    set_design (set_selection_stack (selection_stack (design w) ++ [sel])
                  (design w)) w).

(** [design->selection_stack.pop_back()] *)
Definition pop_selection : M unit :=
  st ← gets (fun w => selection_stack (design w));
  match st with
  | [] => undefined
  | _ :: _ =>
      modify (fun w =>
        set_design (set_selection_stack (removelast (selection_stack (design w)))
                      (design w)) w)
  end.

(** [design->selection_stack.back().select(module)] *)
Definition select_in_back (m : Module_) : M unit :=
  st ← gets (fun w => selection_stack (design w));
  match st with
  | [] => undefined
  | _ :: _ =>
      modify (fun w =>
        set_design
          (set_selection_stack
             (removelast (selection_stack (design w)) ++
              [Selection_select m (List.last (selection_stack (design w))
                                     (Selection_ctor false))])
             (design w)) w)
  end.

Definition set_active_module (name : string) : M unit :=
  modify (fun w => set_design (set_selected_active_module name (design w)) w).

(** [Pass::call_on_selection(design, selection, std::string command)] *)
Definition Pass_call_on_selection_string (fuel depth : nat) (selection : Selection)
    (command : string) : M unit :=
  backup_selected_active_module ← gets (fun w => selected_active_module (design w));
  set_active_module "";;
  push_selection selection;;
  Pass_call_string fuel depth command;;
  pop_selection;;
  set_active_module backup_selected_active_module.

(** [Pass::call_on_selection(design, selection, std::vector<std::string> args)] *)
Definition Pass_call_on_selection (fuel : nat) (selection : Selection)
    (args : list string) : M unit :=
  backup_selected_active_module ← gets (fun w => selected_active_module (design w));
  set_active_module "";;
  push_selection selection;;
  Pass_call fuel args;;
  pop_selection;;
  set_active_module backup_selected_active_module.

(** [Pass::call_on_module(design, module, std::string command)] *)
Definition Pass_call_on_module_string (fuel depth : nat) (module : Module_)
    (command : string) : M unit :=
  backup_selected_active_module ← gets (fun w => selected_active_module (design w));
  set_active_module (module_name module);;
  push_selection (Selection_ctor false);;
  select_in_back module;;
  Pass_call_string fuel depth command;;
  pop_selection;;
  set_active_module backup_selected_active_module.

(** [Pass::call_on_module(design, module, std::vector<std::string> args)] *)
Definition Pass_call_on_module (fuel : nat) (module : Module_)
    (args : list string) : M unit :=
  backup_selected_active_module ← gets (fun w => selected_active_module (design w));
  set_active_module (module_name module);;
  push_selection (Selection_ctor false);;
  select_in_back module;;
  Pass_call fuel args;;
  pop_selection;;
  set_active_module backup_selected_active_module.

End Kernel.

Global Arguments Design : clear implicits.
Global Arguments World : clear implicits.
Global Arguments outcome : clear implicits.
Global Arguments M : clear implicits.
Global Arguments Host : clear implicits.
Global Arguments Commands : clear implicits.

(** ** Names of declared objects *)

(** The name a declared object takes in the dispatch namespace. *)
Definition decl_pass_name (d : Decl) : string :=
  match d with
  | DeclPass name _ => name
  | DeclFrontend name _ =>
      if starts_with "=" name then substr_from name 1 else "read_" +:+ name
  | DeclBackend name _ =>
      if starts_with "=" name then substr_from name 1 else "write_" +:+ name
  end.

(** The name a declared frontend takes in the frontend-format namespace. *)
Definition decl_frontend_name (d : Decl) : option string :=
  match d with
  | DeclFrontend name _ =>
      Some (if starts_with "=" name then substr_from name 1 else name)
  | _ => None
  end.

(** The name a declared backend takes in the backend-format namespace. *)
Definition decl_backend_name (d : Decl) : option string :=
  match d with
  | DeclBackend name _ =>
      Some (if starts_with "=" name then substr_from name 1 else name)
  | _ => None
  end.

(** The process before any command object is constructed. *)
Definition empty_world {Netlist} (d : Design Netlist) : World Netlist :=
  mkWorld [] None ∅ ∅ ∅ false [] None "" d [].

(** [p->call_counter], [None] for a dangling [p]. *)
Definition counter_of {Netlist} (p : ptr) (w : World Netlist) : option Z :=
  call_counter <$> objects w !! p.

(** [design->selection_stack.size()] *)
Definition stack_depth {Netlist} (w : World Netlist) : nat :=
  length (selection_stack (design w)).

(** [design->selected_active_module] *)
Definition active_module {Netlist} (w : World Netlist) : string :=
  selected_active_module (design w).

(** [n] semicolons. *)
Fixpoint semicolons (n : nat) : string :=
  match n with
  | 0 => EmptyString
  | S n' => String ";" (semicolons n')
  end.

(** ** Notions used in the statements *)

Section Notions.
Context {Netlist : Type} {host : Host Netlist} {cmds : Commands Netlist}.

(** The dynamic type the constructor of a declared object gives it. *)
Definition decl_kind (d : Decl) : PassKind :=
  match d with
  | DeclPass _ _ => PlainPass
  | DeclFrontend name _ =>
      FrontendPass (if starts_with "=" name then substr_from name 1 else name)
  | DeclBackend name _ =>
      BackendPass (if starts_with "=" name then substr_from name 1 else name)
  end.

Definition decl_help (d : Decl) : string :=
  match d with
  | DeclPass _ h | DeclFrontend _ h | DeclBackend _ h => h
  end.

(** The object the constructor of [d] builds when the queue head is [q]. *)
Definition decl_object (d : Decl) (q : option ptr) : PassObj :=
  mkPass (decl_pass_name d) (decl_help d) 0 q (decl_kind d).

(** The object constructed before the one at [k], if any. *)
Definition pred_ptr (k : nat) : option ptr :=
  match k with
  | 0 => None
  | S k' => Some k'
  end.

(** The store holds the objects of [ds], each queued behind its
    predecessor. *)
Definition chained (ds : list Decl) (w : World Netlist) : Prop :=
  length (objects w) = length ds /\
  forall i d, ds !! i = Some d ->
    objects w !! i = Some (decl_object d (pred_ptr i)).

(** The registries hold exactly the objects of [ds] from index [k] on. *)
Definition registered_from (ds : list Decl) (k : nat) (w : World Netlist) : Prop :=
  (forall name i, pass_register w !! name = Some i <->
     k <= i /\ exists d, ds !! i = Some d /\ decl_pass_name d = name) /\
  (forall name i, frontend_register w !! name = Some i <->
     k <= i /\ exists d, ds !! i = Some d /\ decl_frontend_name d = Some name) /\
  (forall name i, backend_register w !! name = Some i <->
     k <= i /\ exists d, ds !! i = Some d /\ decl_backend_name d = Some name).

(** The world after [run_register] has registered the object of [d] at
    [k]. *)
Definition register_decl (d : Decl) (k : ptr) (w : World Netlist) : World Netlist :=
  let w1 := set_pass_register (<[decl_pass_name d := k]> (pass_register w)) w in
  match decl_kind d with
  | PlainPass => w1
  | FrontendPass fn => set_frontend_register (<[fn := k]> (frontend_register w1)) w1
  | BackendPass bn => set_backend_register (<[bn := k]> (backend_register w1)) w1
  end.

(** The events of the echo mode's [log_args]. *)
Fixpoint log_args_events (i : nat) (args : list string) : list Event :=
  match args with
  | [] => []
  | a :: args' =>
      EvLog ((if (0 <? i)%nat then " " else "") +:+ c_str a)
      :: log_args_events (S i) args'
  end.

Definition add_events (evs : list Event) (w : World Netlist) : World Netlist :=
  mkWorld (objects w) (first_queued_pass w) (pass_register w)
    (frontend_register w) (backend_register w) (echo_mode w) (next_args w)
    (current_script_file w) (last_here_document w) (design w)
    (events w ++ evs).

(** The world once the dispatcher has echoed the command. *)
Definition echoed (args : list string) (w : World Netlist) : World Netlist :=
  if echo_mode w
  then add_events
         (EvLog (c_str (create_prompt (design w)))
            :: log_args_events 0 args ++ [EvLog nl]) w
  else w.

(** The world once [p->call_counter++] is done on the object [o] at [p]. *)
Definition bumped (p : ptr) (o : PassObj) (w : World Netlist) : World Netlist :=
  set_objects (<[p := mkPass (pass_name o) (short_help o)
                        (wrap_int (call_counter o + 1))
                        (next_queued_pass o) (kind o)]> (objects w)) w.

(** The world once the selection stack is unwound to [orig] frames. *)
Definition unwound (orig : nat) (w : World Netlist) : World Netlist :=
  set_design
    (set_selection_stack (unwind orig (selection_stack (design w))) (design w)) w.

(** What the dispatcher does once the command name is resolved to [p]. *)
Definition dispatch_resolved (fuel : nat) (p : ptr) (args : list string)
    (orig : nat) : M Netlist unit :=
  bump_call_counter p;;
  virtual_execute fuel p args;;
  unwind_selection_stack orig;;
  Design_check.

(** A token the tokenizer only appends to the argument vector: it is not
    ["#"] and does not end in a semicolon. *)
Definition plain (str : string) : Prop :=
  String.eqb str "#" = false /\ ends_with_semikolon str = false.

(** Every returning run of [c] relates the world it ends in to the one it
    started in. *)
Definition preserves (R : World Netlist -> World Netlist -> Prop)
    (c : M Netlist unit) : Prop :=
  forall w w', c w = Done tt w' -> R w w'.

(** The world in which [call_on_module] starts the inner dispatch. *)
Definition entered (m : Module_) (w : World Netlist) : World Netlist :=
  set_design
    (mkDesign
       (selection_stack (design w) ++ [Selection_select m (Selection_ctor false)])
       (module_name m) (netlist (design w))) w.

(** A line of text that [fgets] reads in one block: characters other than
    LF and NUL, then LF, at most [block_size - 1] in all. *)
Fixpoint line_shape (s : string) : bool :=
  match s with
  | EmptyString => false
  | String c EmptyString => Ascii.eqb c LF
  | String c s' =>
      negb (Ascii.eqb c LF) && negb (Ascii.eqb c NUL) && line_shape s'
  end.

Definition is_text_line (l : string) : bool :=
  line_shape l && (String.length l <=? block_size - 1)%nat.

(** Whether the line has the marker behind its leading blanks; [None] for a
    line of blanks only. *)
Definition marker_at (marker l : string) : option bool :=
  (fun indent => String.eqb (substr l indent (String.length marker)) marker)
    <$> find_first_not_of l blanks.

Fixpoint concat_lines (lines : list string) : string :=
  match lines with
  | [] => EmptyString
  | l :: lines' => l +:+ concat_lines lines'
  end.




(** Every returning run of [c] leaves the component [f] of the world as it
    found it. *)
Definition keeps {A B} (f : World Netlist -> B) (c : M Netlist A) : Prop :=
  forall w a w', c w = Done a w' -> f w' = f w.

End Notions.

(** ** A sample installation

    A host and a handful of commands on which the model is run: a design
    without netlist, a host on which every file but ["missing"] opens, and
    passes that log their command line, push or pop a selection, or fail. *)

Module Sample.

(** The process before any command object is constructed; [RTLIL::Design]
    starts with one full selection on its stack. *)
Definition world0 : World unit :=
  empty_world (mkDesign [Selection_ctor true] "" tt).

Definition host : Host unit := {|
  os_system := fun _ => 0%Z;
  os_fopen := fun path _ => if String.eqb path "missing" then None else Some 3;
  os_strerror := fun _ _ => "No such file or directory";
  design_check := fun _ => true;
  create_prompt := fun _ => "yosys> ";
  pass_help := fun _ => ret tt
|}.

(** [p->pass_name] *)
Definition name_of (p : ptr) : M unit string :=
  o ← deref p; mret (pass_name o).

(** The plain passes act by name: ["push"] leaves a selection on the stack,
    ["pop"] takes one off, ["fail"] raises a command error, any other pass
    logs its command line.  Frontends and backends resolve their stream with
    [extra_args] from argument 1 on, as one without options does. *)
Definition commands : Commands unit := {|
  pass_execute := fun p args =>
    n ← name_of p;
    if String.eqb n "push" then push_selection (Selection_ctor true)
    else if String.eqb n "pop" then pop_selection
    else if String.eqb n "fail" then log_cmd_error "failed"
    else log (unwords args);
  frontend_execute := fun p f filename args =>
    r ← Frontend_extra_args (host := host) p f filename args 1; mret (fst r);
  backend_execute := fun p f filename args =>
    r ← Backend_extra_args (host := host) p f filename args 1; mret (fst r)
|}.


(** Commands whose format handlers leave a selection on the stack and hand
    back the stream they are given. *)
Definition framing_commands : Commands unit := {|
  pass_execute := fun _ _ => mret tt;
  frontend_execute := fun _ f _ _ => push_selection (Selection_ctor true);; mret f;
  backend_execute := fun _ f _ _ => push_selection (Selection_ctor true);; mret f
|}.

(** The static command objects, in the order of their construction. *)
Definition declared : list Decl :=
  [DeclPass "foo" ""; DeclPass "bar" ""; DeclPass "baz" "";
   DeclPass "clean" ""; DeclPass "push" ""; DeclPass "pop" "";
   DeclPass "fail" ""; DeclFrontend "verilog" ""; DeclBackend "=dump" ""].

Definition startup : M unit unit :=
  construct_all declared;;
  Pass_init_register 9.

(** Whether the outcome is a normal return. *)
Definition returned {A} (o : outcome unit A) : bool :=
  match o with
  | Done _ _ => true
  | _ => false
  end.

(** The world an outcome ends in, [world0] when there is none. *)
Definition world_of {A} (o : outcome unit A) : World unit :=
  match o with
  | Done _ w => w
  | CmdError _ w => w
  | _ => world0
  end.

(** The process after start-up. *)
Definition world1 : World unit := world_of (startup world0).

(** The script of the example of the here-document: two lines of text and
    the marker line. *)
Definition script_ab : string :=
  "a" +:+ nl +:+ "b" +:+ nl +:+ "EOT" +:+ nl.


End Sample.

(** ** The direct calls of frontends and backends *)

Section Callers.
Context {Netlist : Type} {host : Host Netlist} {cmds : Commands Netlist}.

(** [reg[key]] for a registry of objects: the pointer stored under the key;
    on a key that is absent [operator[]] stores a null pointer. *)
Definition registered (reg : World Netlist -> gmap string ptr) (key : string)
  : M Netlist ptr :=
  r ← gets reg;
  match r !! key with
  | Some p => mret p
  | None => undefined
  end.

(** [Frontend::frontend_call(design, f, filename, std::vector<std::string>
    args)]; [fuel] is handed to the frontend driver. *)
Definition Frontend_frontend_call (fuel : nat) (f : option FILEp)
    (filename : string) (args : list string) : M Netlist unit :=
  match args with
  | [] => mret tt
  | a0 :: _ =>
      fr ← gets frontend_register;
      when (count_is_0 fr a0)
        (log_cmd_error ("No such frontend: " +:+ c_str a0 +:+ nl));;
      (if bool_decide (f ≠ None) then
         p ← registered frontend_register a0;
         bump_call_counter p;;
         p ← registered frontend_register a0;
         frontend_execute p f filename args;;
         mret tt
       else if String.eqb filename "-" then
         (* FILE *f_stdin = stdin *)
         p ← registered frontend_register a0;
         bump_call_counter p;;
         p ← registered frontend_register a0;
         frontend_execute p (Some stdin_) "<stdin>" args;;
         mret tt
       else
         let args := if negb (String.eqb filename "") then args ++ [filename]
                     else args in
         p ← registered frontend_register a0;
         virtual_execute fuel p args);;
      Design_check
  end.

(** [Frontend::frontend_call(design, f, filename, std::string command)] *)
Definition Frontend_frontend_call_string (fuel : nat) (f : option FILEp)
    (filename command : string) : M Netlist unit :=
  Frontend_frontend_call fuel f filename (tokens (c_str command) blanks).

(** [Backend::backend_call(design, f, filename, std::vector<std::string>
    args)] *)
Definition Backend_backend_call (fuel : nat) (f : option FILEp)
    (filename : string) (args : list string) : M Netlist unit :=
  match args with
  | [] => mret tt
  | a0 :: _ =>
      br ← gets backend_register;
      when (count_is_0 br a0)
        (log_cmd_error ("No such backend: " +:+ c_str a0 +:+ nl));;
      orig_sel_stack_pos ← gets (fun w => length (selection_stack (design w)));
      (if bool_decide (f ≠ None) then
         p ← registered backend_register a0;
         bump_call_counter p;;
         p ← registered backend_register a0;
         backend_execute p f filename args;;
         mret tt
       else if String.eqb filename "-" then
         (* FILE *f_stdout = stdout *)
         p ← registered backend_register a0;
         bump_call_counter p;;
         p ← registered backend_register a0;
         backend_execute p (Some stdout_) "<stdout>" args;;
         mret tt
       else
         let args := if negb (String.eqb filename "") then args ++ [filename]
                     else args in
         p ← registered backend_register a0;
         virtual_execute fuel p args);;
      unwind_selection_stack orig_sel_stack_pos;;
      Design_check
  end.

(** [Backend::backend_call(design, f, filename, std::string command)] *)
Definition Backend_backend_call_string (fuel : nat) (f : option FILEp)
    (filename command : string) : M Netlist unit :=
  Backend_backend_call fuel f filename (tokens (c_str command) blanks).

End Callers.

(** ** Argument checking of plain passes, and the built-in [echo] *)

Section Builtins.
Context {Netlist : Type} {host : Host Netlist}.

Definition set_echo_mode (x : bool) (w : World Netlist) : World Netlist :=
  mkWorld (objects w) (first_queued_pass w) (pass_register w)
    (frontend_register w) (backend_register w) x (next_args w)
    (current_script_file w) (last_here_document w) (design w) (events w).

(** The selection arguments of a command are handled by
    [handle_extra_select_args], which [passes/cmds/select.cc] defines. *)
Class SelectArgs := {
  (** [handle_extra_select_args(pass, args, argidx, args_size, design)] *)
  handle_extra_select_args : ptr -> list string -> nat -> nat -> M Netlist unit
}.

Context {select_args : SelectArgs}.

(** [Pass::extra_args(args, argidx, design, select)].  The [for] loop ends
    in [break], so its body runs at most once. *)
Definition Pass_extra_args (this : ptr) (args : list string) (argidx : nat)
    (select : bool) : M Netlist unit :=
  match args !! argidx with
  | None => mret tt
  | Some arg =>
      when (String.eqb (substr arg 0 1) "-")
        (Pass_cmd_error this args argidx "Unkown option or option in arguments.");;
      when (negb select)
        (Pass_cmd_error this args argidx "Extra argument.");;
      handle_extra_select_args this args argidx (length args)
  end.

(** [EchoPass::execute] *)
Definition EchoPass_execute (this : ptr) (args : list string) : M Netlist unit :=
  when (2 <? length args)%nat
    (Pass_cmd_error this args 2 "Unexpected argument.");;
  (if (length args =? 2)%nat then
     match args !! 1 with
     | None => undefined
     | Some a1 =>
         if String.eqb a1 "on" then modify (set_echo_mode true)
         else if String.eqb a1 "off" then modify (set_echo_mode false)
         else Pass_cmd_error this args 1 "Unexpected argument."
     end
   else mret tt);;
  em ← gets echo_mode;
  log ("echo " +:+ (if em : bool then "on" else "off") +:+ nl).

End Builtins.

Global Arguments SelectArgs : clear implicits.

(** ** The escaping of the reference manuals *)

Module Escape.

(** [str.find(c, pos)] and [str.find_first_of(set, pos)]: the index of the
    first character from [pos] on that satisfies [p]; [None] is [npos]. *)
Fixpoint find_from (p : ascii -> bool) (s : string) (pos : nat) : option nat :=
  match s with
  | EmptyString => None
  | String c s' =>
      match pos with
      | 0 => if p c then Some 0 else S <$> find_from p s' 0
      | S pos' => S <$> find_from p s' pos'
      end
  end.

(** [str.replace(pos, n, r)] for [pos <= str.size()] *)
Definition replace (s : string) (pos n : nat) (r : string) : string :=
  substr s 0 pos +:+ r +:+ substr_from s (pos + n).

Definition backslash : ascii := ascii_of_nat 92.

(** The [while] loop of [HelpPass::escape_tex]; [fuel] bounds its
    iterations, [None] says that the bound was reached. *)
Fixpoint escape_tex_loop (fuel : nat) (tex : string) (pos : nat) : option string :=
  match find_from (Ascii.eqb "_") tex pos with
  | None => Some tex
  | Some pos =>
      match fuel with
      | 0 => None
      | S fuel' =>
          escape_tex_loop fuel' (replace tex pos 1 (String backslash "_")) (pos + 2)
      end
  end.

(** [HelpPass::escape_tex(tex)]: the string [tex] refers to afterwards.  One
    round for each character is enough. *)
Definition escape_tex (tex : string) : option string :=
  escape_tex_loop (String.length tex) tex 0.

(** The [while] loop of [HelpPass::escape_html].  The [switch] has no
    default: on any other character it would go round with [pos]
    unchanged. *)
Fixpoint escape_html_loop (fuel : nat) (html : string) (pos : nat) : option string :=
  match find_from (fun c => mem_char c ["<"; ">"; "&"]%char) html pos with
  | None => Some html
  | Some pos =>
      match fuel with
      | 0 => None
      | S fuel' =>
          match at_ html pos with
          | Some "<"%char => escape_html_loop fuel' (replace html pos 1 "&lt;") (pos + 4)
          | Some ">"%char => escape_html_loop fuel' (replace html pos 1 "&gt;") (pos + 4)
          | Some "&"%char => escape_html_loop fuel' (replace html pos 1 "&amp;") (pos + 5)
          | _ => escape_html_loop fuel' html pos
          end
      end
  end.

(** [HelpPass::escape_html(html)] *)
Definition escape_html (html : string) : option string :=
  escape_html_loop (String.length html) html 0.

(** What the escaping is meant to be: each character replaced by its
    escape sequence, if it has one. *)
Fixpoint escaped (tab : ascii -> option string) (s : string) : string :=
  match s with
  | EmptyString => EmptyString
  | String c s' => default (String c EmptyString) (tab c) +:+ escaped tab s'
  end.

Definition tex_sequence (c : ascii) : option string :=
  if Ascii.eqb c "_" then Some (String backslash "_") else None.

Definition html_sequence (c : ascii) : option string :=
  if Ascii.eqb c "<" then Some "&lt;"
  else if Ascii.eqb c ">" then Some "&gt;"
  else if Ascii.eqb c "&" then Some "&amp;"
  else None.

End Escape.

Import Escape.

(** ** Further notions used in the statements *)

(** Every character of [s] passes [p]. *)
Fixpoint all_chars (p : ascii -> bool) (s : string) : bool :=
  match s with
  | EmptyString => true
  | String c s' => p c && all_chars p s'
  end.

(** A word as the tokenizer yields them: not empty, without blank and
    without NUL. *)
Definition is_word (s : string) : bool :=
  negb (String.eqb s "") &&
  all_chars (fun c => negb (mem_char c blanks) && negb (Ascii.eqb c NUL)) s.

(** A path as the frontend driver takes it from the command line: neither
    an option nor a here-document. *)
Definition is_path (s : string) : bool :=
  negb (String.eqb (substr s 0 1) "-") && negb (String.eqb (substr s 0 2) "<<").

Section MoreNotions.
Context {Netlist : Type} {host : Host Netlist} {cmds : Commands Netlist}.

(** The [fclose] a round of the frontend driver ends with, for each file. *)
Definition closes (files : list string) : list Event :=
  omap (fun path => (fun h => EvFclose (file_handle h)) <$> os_fopen (c_str path) "r")
    files.

(** A frontend without options of its own: its format handler resolves the
    source with [extra_args] from argument 1 on and does nothing else. *)
Definition frontend_without_options (p : ptr) : Prop :=
  forall f fname args (w : World Netlist),
    frontend_execute p f fname args w =
      (r ← Frontend_extra_args p f fname args 1; mret (fst r)) w.

(** A backend without options of its own. *)
Definition backend_without_options (p : ptr) : Prop :=
  forall f fname args (w : World Netlist),
    backend_execute p f fname args w =
      (r ← Backend_extra_args p f fname args 1; mret (fst r)) w.

(** The world in which [call_on_selection] starts the inner dispatch: no
    active module, the selection on top of the stack. *)
Definition selected (sel : Selection) (w : World Netlist) : World Netlist :=
  set_design
    (mkDesign (selection_stack (design w) ++ [sel]) "" (netlist (design w))) w.

End MoreNotions.

(** The text of the log lines among the events, in order. *)
Fixpoint log_text (evs : list Event) : string :=
  match evs with
  | [] => EmptyString
  | EvLog text :: evs' => text +:+ log_text evs'
  | _ :: evs' => log_text evs'
  end.

(** Every underscore of [s] stands behind a backslash; [prev] is the
    character before [s]. *)
Fixpoint underscores_escaped (prev : ascii) (s : string) : bool :=
  match s with
  | EmptyString => true
  | String c s' =>
      (negb (Ascii.eqb c "_") || Ascii.eqb prev backslash) &&
      underscores_escaped c s'
  end.

(** The number of characters of [s] that satisfy [p]. *)
Fixpoint count_chars (p : ascii -> bool) (s : string) : nat :=
  match s with
  | EmptyString => 0
  | String c s' => (if p c then 1 else 0) + count_chars p s'
  end.

(** A command with its semicolon: the words before the last one, and the
    last word, to which the semicolon is attached; the last word is empty
    when the semicolon stands alone. *)
Definition segment_tokens (seg : list string * string) : list string :=
  fst seg ++ [snd seg +:+ ";"].

(** The argument vector of the command. *)
Definition segment_args (seg : list string * string) : list string :=
  if (0 <? String.length (snd seg))%nat then fst seg ++ [snd seg] else fst seg.

(** A line of commands that end in a semicolon, and a last command. *)
Definition chain_tokens (segs : list (list string * string)) (last : list string)
  : list string :=
  concat (map segment_tokens segs) ++ last.

Section Chains.
Context {Netlist : Type} {host : Host Netlist} {cmds : Commands Netlist}.

(** The dispatch of the commands one after the other. *)
Fixpoint dispatch_all (fuel : nat) (segs : list (list string * string))
  : M Netlist unit :=
  match segs with
  | [] => mret tt
  | seg :: segs' => Pass_call fuel (segment_args seg);; dispatch_all fuel segs'
  end.

End Chains.

(** ** The commands a call dispatches

    The runs of the virtual [execute] that a call starts, in order, each
    with the world it started in and the outcome it had.  The definitions
    go through the dispatcher and the tokenizer case by case and collect
    the runs where these call [execute]. *)

Section Executes.
Context {Netlist : Type} {host : Host Netlist} {cmds : Commands Netlist}.

(** One run of [execute]: the world it started in, and how it ended. *)
Definition Execute : Type := World Netlist * outcome Netlist unit.

(** The command did not take more frames off the selection stack than it
    put on: if it returned, the stack was at least as deep as it had found
    it. *)
Definition keeps_frames (e : Execute) : Prop :=
  match e.2 with
  | Done _ w2 => stack_depth e.1 <= stack_depth w2
  | _ => True
  end.

(** The runs of what follows [c], when [c] returns. *)
Definition after {A} (c : M Netlist A) (w : World Netlist)
    (k : World Netlist -> list Execute) : list Execute :=
  match c w with
  | Done _ w' => k w'
  | _ => []
  end.

(** The run of [execute] in [Pass::call(design, args)]: none for a no-op and
    for a name that is not registered, else the one of the object
    registered under the name, in the world with the echo logged and the
    counter bumped. *)
Definition Pass_call_executes (fuel : nat) (args : list string)
  : World Netlist -> list Execute :=
  fun w =>
    match args with
    | [] => []
    | a0 :: _ =>
        if bool_decide (at_ a0 0 = Some "#"%char) then []
        else
          let w0 := echoed args w in
          match pass_register w0 !! a0 with
          | None => []
          | Some p =>
              match objects w0 !! p with
              | None => []
              | Some o =>
                  let w1 := bumped p o w0 in
                  [(w1, virtual_execute fuel p args w1)]
              end
          end
    end.

(** The runs of [execute] in the loop over the tokens, as [call_tokens]
    dispatches them; [calls_executes] gives the runs of the string-form
    call [calls]. *)
Fixpoint call_tokens_executes (fuel : nat) (calls : string -> M Netlist unit)
    (calls_executes : string -> World Netlist -> list Execute)
    (toks : list string) (args : list string) : World Netlist -> list Execute :=
  match toks with
  | [] => Pass_call_executes fuel args
  | str :: toks' =>
      let strsz := String.length str in
      if String.eqb str "#" then Pass_call_executes fuel args
      else if ends_with_semikolon str
      then
        let '(strsz, num_semikolon) := strip_semikolon str strsz 0 in
        let args := if (0 <? strsz)%nat then args ++ [substr str 0 strsz] else args in
        fun w =>
          Pass_call_executes fuel args w ++
          after (Pass_call fuel args) w (fun w =>
            (if (num_semikolon =? 2)%nat then calls_executes "clean" w else []) ++
            after (when (num_semikolon =? 2)%nat (calls "clean")) w (fun w =>
              (if (num_semikolon =? 3)%nat then calls_executes "clean -purge" w
               else []) ++
              after (when (num_semikolon =? 3)%nat (calls "clean -purge")) w
                (call_tokens_executes fuel calls calls_executes toks' [])))
      else call_tokens_executes fuel calls calls_executes toks' (args ++ [str])
  end.

(** The runs of [execute] in the body of the string-form call: none for a
    blank line, a comment and a shell command. *)
Definition Pass_call_string_body_executes (fuel : nat)
    (calls : string -> M Netlist unit)
    (calls_executes : string -> World Netlist -> list Execute)
    (command : string) : World Netlist -> list Execute :=
  let s := c_str command in
  let s := advance (strspn s blanks) s in
  match s with
  | EmptyString => fun _ => []
  | String c s1 =>
      if Ascii.eqb c "#" then fun _ => []
      else if Ascii.eqb c "!" then fun _ => []
      else call_tokens_executes fuel calls calls_executes (tokens s blanks) []
  end.

(** The commands [Pass::call(design, command)] dispatches from a world, in
    order: the runs of [execute] it starts. *)
Fixpoint Pass_call_string_executes (fuel depth : nat) (command : string)
  : World Netlist -> list Execute :=
  match depth with
  | 0 => fun _ => []
  | S depth' =>
      Pass_call_string_body_executes fuel (Pass_call_string fuel depth')
        (Pass_call_string_executes fuel depth') command
  end.

(** [t] accounts for the depth of the selection stack after [c]: when [c]
    returns the stack is no deeper than before, and as deep as before
    exactly when each run of [t] kept the frames. *)
Definition accounts (c : M Netlist unit) (t : World Netlist -> list Execute)
  : Prop :=
  forall w w', c w = Done tt w' ->
    stack_depth w' <= stack_depth w /\
    (stack_depth w' = stack_depth w <-> Forall keeps_frames (t w)).

End Executes.

(** ** The sample installation with the built-in commands *)

Module SampleBuiltins.

Import Sample.

(** A selection handler that logs the arguments it is given. *)
Definition select_args : SelectArgs unit := {|
  handle_extra_select_args := fun _ args argidx _ =>
    log (unwords (drop argidx args))
|}.

(** Commands whose plain passes all are the built-in [echo]. *)
Definition echo_commands : Commands unit := {|
  pass_execute := fun p args => EchoPass_execute (host := host) p args;
  frontend_execute := fun _ _ _ _ => mret (Some stdin_);
  backend_execute := fun _ _ _ _ => mret (Some stdout_)
|}.

(** The two command objects [kernel/register.cc] declares itself. *)
Definition builtins : list Decl :=
  [DeclPass "help" "display help messages";
   DeclPass "echo" "turning echoing back of commands on and off"].

(** The process after the start-up of the two. *)
Definition world2 : World unit :=
  world_of ((construct_all builtins;; Pass_init_register 2) world0).

End SampleBuiltins.

(** ** Tactics for the monad *)

Ltac munfold :=
  unfold mbind, M_bind, mret, M_ret, bind, ret, gets, modify, when,
    log_assert, log_error, log_cmd_error, log, undefined, out_of_fuel in *.

Ltac mred :=
  cbv beta iota zeta delta
    [mbind M_bind mret M_ret bind ret gets modify when
     log_assert log_error log_cmd_error log undefined out_of_fuel].

Ltac mred_in H :=
  cbv beta iota zeta delta
    [mbind M_bind mret M_ret bind ret gets modify when
     log_assert log_error log_cmd_error log undefined out_of_fuel] in H.

(** * Properties *)


(** ** Strings *)

Section Strings.

Lemma append_cons c (s t : string) : String c s +:+ t = String c (s +:+ t).
Proof. reflexivity. Qed.

Lemma append_nil_r (s : string) : s +:+ "" = s.
Proof. induction s as [|c s IH]; [done|by rewrite append_cons, IH]. Qed.

Lemma append_assoc (a b c : string) : (a +:+ b) +:+ c = a +:+ (b +:+ c).
Proof. induction a as [|x a IH]; [done|]. by rewrite !append_cons, IH. Qed.

Lemma length_append (s1 s2 : string) :
  String.length (s1 +:+ s2) = String.length s1 + String.length s2.
Proof.
  induction s1 as [|c s1 IH]; [done|]. rewrite append_cons. simpl. by rewrite IH.
Qed.

Lemma length_semicolons n : String.length (semicolons n) = n.
Proof. induction n; simpl; auto. Qed.

Lemma get_append_l (s1 s2 : string) i :
  i < String.length s1 -> String.get i (s1 +:+ s2) = String.get i s1.
Proof.
  revert i. induction s1 as [|c s1 IH]; intros i Hi; simpl in *; [lia|].
  destruct i; [done|]. simpl. apply IH. lia.
Qed.

Lemma get_append_r (s1 s2 : string) i :
  String.get (String.length s1 + i) (s1 +:+ s2) = String.get i s2.
Proof.
  induction s1 as [|c s1 IH]; [done|]. rewrite append_cons. simpl. apply IH.
Qed.

Lemma get_semicolons n i : i < n -> String.get i (semicolons n) = Some ";"%char.
Proof.
  revert i. induction n as [|n IH]; intros i Hi; [lia|].
  destruct i; simpl; [done|]. apply IH. lia.
Qed.

Lemma substring_append_l (s1 s2 : string) :
  String.substring 0 (String.length s1) (s1 +:+ s2) = s1.
Proof.
  induction s1 as [|c s1 IH]; [by destruct s2|].
  rewrite append_cons. simpl. by rewrite IH.
Qed.

Lemma strip_semikolon_upto r N m : forall acc,
  ends_with_semikolon r = false -> m <= N ->
  strip_semikolon (r +:+ semicolons N) (String.length r + m) acc =
    (String.length r, acc + m).
Proof.
  intros acc Hr. revert acc. induction m as [|m IH]; intros acc Hm.
  - rewrite !Nat.add_0_r.
    destruct (String.length r) as [|k] eqn:Hlen; [done|]. simpl.
    unfold ends_with_semikolon in Hr. rewrite Hlen in Hr. simpl in Hr.
    rewrite Nat.sub_0_r in Hr. unfold at_ in *.
    rewrite get_append_l by lia.
    destruct (bool_decide (String.get k r = Some ";"%char)); done.
  - rewrite Nat.add_succ_r. simpl. unfold at_.
    rewrite get_append_r, get_semicolons by lia.
    rewrite bool_decide_true by done.
    rewrite IH by lia. f_equal. lia.
Qed.

Lemma strip_semikolon_spec r n :
  ends_with_semikolon r = false ->
  strip_semikolon (r +:+ semicolons n) (String.length (r +:+ semicolons n)) 0 =
    (String.length r, n).
Proof.
  intros Hr. rewrite length_append, length_semicolons.
  by rewrite strip_semikolon_upto.
Qed.

Lemma ends_with_semikolon_append r n :
  ends_with_semikolon (r +:+ semicolons (S n)) = true.
Proof.
  unfold ends_with_semikolon, at_.
  rewrite length_append, length_semicolons.
  replace (String.length r + S n - 1) with (String.length r + n) by lia.
  rewrite get_append_r, get_semicolons by lia.
  rewrite bool_decide_true by done.
  destruct (String.length r); done.
Qed.

Lemma not_hash_append r n : String.eqb (r +:+ semicolons (S n)) "#" = false.
Proof.
  apply String.eqb_neq. intros Heq.
  pose proof (ends_with_semikolon_append r n) as He. rewrite Heq in He. done.
Qed.

Lemma tokens_from_span delim s : forall cur,
  tokens_from (Some cur) s delim =
    (cur +:+ fst (strtok_span s delim)) :: tokens_from None (snd (strtok_span s delim)) delim.
Proof.
  induction s as [|c s IH]; intros cur; simpl.
  - by rewrite append_nil_r.
  - destruct (mem_char c delim); simpl.
    + by rewrite append_nil_r.
    + rewrite IH. destruct (strtok_span s delim) as [tok rest]. simpl.
      by rewrite append_assoc.
Qed.

Lemma tokens_from_skip delim s :
  tokens_from None s delim = tokens_from None (advance (strspn s delim) s) delim.
Proof.
  induction s as [|c s IH]; simpl; [done|].
  destruct (mem_char c delim) eqn:E; simpl; [done|]. by rewrite E.
Qed.

Lemma advance_strspn_head delim s c s' :
  advance (strspn s delim) s = String c s' -> mem_char c delim = false.
Proof.
  induction s as [|c0 s IH]; simpl; [done|].
  destruct (mem_char c0 delim) eqn:E; simpl; [done|].
  by intros [= <- <-].
Qed.

(** The tokens of a buffer are what successive calls of [strtok_r] return. *)
Lemma tokens_strtok_r s delim :
  tokens s delim =
    match strtok_r s delim with
    | None => []
    | Some (tok, rest) => tok :: tokens rest delim
    end.
Proof.
  unfold tokens, strtok_r. rewrite tokens_from_skip.
  destruct (advance (strspn s delim) s) as [|c s'] eqn:E; [done|].
  pose proof (advance_strspn_head _ _ _ _ E) as Hc.
  simpl. rewrite Hc. rewrite tokens_from_span.
  by destruct (strtok_span s' delim).
Qed.

End Strings.

(** ** Machine integers *)

Section Ints.

Lemma wrap_int_range z : (int_min <= wrap_int z <= int_max)%Z.
Proof.
  unfold wrap_int, int_min, int_max.
  pose proof (Z.mod_pos_bound (z + 2147483648) 4294967296). lia.
Qed.

Lemma wrap_int_small z : (int_min <= z <= int_max)%Z -> wrap_int z = z.
Proof.
  unfold wrap_int, int_min, int_max. intros H.
  rewrite Z.mod_small by lia. lia.
Qed.

Lemma wrap_int_add z k : wrap_int (wrap_int z + k) = wrap_int (z + k).
Proof.
  unfold wrap_int.
  replace ((z + 2147483648) mod 4294967296 - 2147483648 + k + 2147483648)%Z
    with ((z + 2147483648) mod 4294967296 + k)%Z by lia.
  rewrite Zplus_mod_idemp_l. do 2 f_equal. lia.
Qed.

End Ints.

(** ** The monad *)

Section Monad.
Context {Netlist : Type}.
Implicit Types (w : World Netlist).

Lemma bind_unfold {A B} (c : M Netlist A) (k : A -> M Netlist B) w :
  (c ≫= k) w =
    match c w with
    | Done a w' => k a w'
    | CmdError msg w' => CmdError msg w'
    | Fatal msg => Fatal msg
    | Undefined => Undefined
    | OutOfFuel => OutOfFuel
    end.
Proof. reflexivity. Qed.

Lemma bind_Done {A B} (c : M Netlist A) (k : A -> M Netlist B) w a w' :
  c w = Done a w' -> (c ≫= k) w = k a w'.
Proof. intros Hc. by rewrite bind_unfold, Hc. Qed.

Lemma bind_Done_inv {A B} (c : M Netlist A) (k : A -> M Netlist B) w b w'' :
  (c ≫= k) w = Done b w'' ->
  exists a w', c w = Done a w' /\ k a w' = Done b w''.
Proof. rewrite bind_unfold. destruct (c w); try done. eauto. Qed.

Lemma bind_ret_r (c : M Netlist unit) w : (c ≫= fun _ => mret tt) w = c w.
Proof.
  cbv [mbind M_bind bind mret M_ret ret]. by destruct (c w) as [[] ?| | | |].
Qed.

(** A bind reaches the bound of a loop only where one of its two parts does. *)
Lemma bind_total {A B} (c : M Netlist A) (k : A -> M Netlist B) w :
  c w <> OutOfFuel ->
  (forall a w', c w = Done a w' -> k a w' <> OutOfFuel) ->
  (c ≫= k) w <> OutOfFuel.
Proof.
  intros Hc Hk. rewrite bind_unfold.
  destruct (c w) as [a w'| | | |]; try done. by apply Hk.
Qed.

End Monad.

(** ** Registration *)

Section Registration.
Context {Netlist : Type} {host : Host Netlist} {cmds : Commands Netlist}.
Implicit Types (w : World Netlist) (ds : list Decl).

Lemma construct_spec d w :
  construct d w =
    Done (length (objects w))
      (set_first_queued_pass (Some (length (objects w)))
         (set_objects (objects w ++ [decl_object d (first_queued_pass w)]) w)).
Proof. destruct d; reflexivity. Qed.

Lemma construct_all_spec ds : forall pre w,
  chained pre w -> first_queued_pass w = pred_ptr (length pre) ->
  exists w', construct_all ds w = Done tt w' /\
    chained (pre ++ ds) w' /\
    first_queued_pass w' = pred_ptr (length (pre ++ ds)) /\
    pass_register w' = pass_register w /\
    frontend_register w' = frontend_register w /\
    backend_register w' = backend_register w /\
    echo_mode w' = echo_mode w /\ design w' = design w /\ events w' = events w.
Proof.
  induction ds as [|d ds IH]; intros pre w [Hlen Hobj] Hq.
  - exists w. rewrite app_nil_r. repeat split; auto.
  - simpl. munfold. rewrite construct_spec.
    edestruct (IH (pre ++ [d])) as (w' & Hrun & Hch & Hq' & Hrest); cycle 2.
    + exists w'. rewrite <- app_assoc in Hch, Hq'. simpl in *. split; [exact Hrun|].
      split; [exact Hch|]. split; [exact Hq'|]. exact Hrest.
    + split; simpl.
      * rewrite !length_app. simpl. lia.
      * intros i d' Hi. destruct (decide (i < length pre)) as [Hlt|Hge].
        -- rewrite lookup_app_l in Hi by lia. rewrite lookup_app_l by lia. auto.
        -- rewrite lookup_app_r in Hi by lia. rewrite lookup_app_r by lia.
           rewrite Hlen. destruct (i - length pre) as [|n] eqn:E; simpl in *; [|by destruct n].
           inversion Hi; subst d'. rewrite Hq. by assert (i = length pre) as -> by lia.
    + simpl. rewrite length_app, Nat.add_1_r. simpl. by rewrite Hlen.
Qed.


(** Distinct keys identify the position in the list. *)
Lemma NoDup_omap_lookup {A B} (f : A -> option B) (l : list A) i j x y k :
  NoDup (omap f l) -> l !! i = Some x -> l !! j = Some y ->
  f x = Some k -> f y = Some k -> i = j.
Proof.
  revert i j. induction l as [|a l IH]; intros i j Hnd Hi Hj Hx Hy; [done|].
  simpl in Hnd. destruct i as [|i], j as [|j]; simpl in *; simplify_eq; auto.
  - rewrite Hx in Hnd. apply NoDup_cons in Hnd as [Hnin _].
    exfalso. apply Hnin. apply list_elem_of_omap. exists y. split; [|done].
    by eapply list_elem_of_lookup_2.
  - rewrite Hy in Hnd. apply NoDup_cons in Hnd as [Hnin _].
    exfalso. apply Hnin. apply list_elem_of_omap. exists x. split; [|done].
    by eapply list_elem_of_lookup_2.
  - f_equal. destruct (f a); [apply NoDup_cons in Hnd as [_ Hnd]|]; eauto.
Qed.

Lemma count_is_0_None (m : gmap string ptr) key :
  m !! key = None -> count_is_0 m key = true.
Proof. unfold count_is_0. by intros ->. Qed.

Lemma count_is_0_Some (m : gmap string ptr) key p :
  m !! key = Some p -> count_is_0 m key = false.
Proof. unfold count_is_0. by intros ->. Qed.

Lemma lookup_None_from_iff (m : gmap string ptr) (P : nat -> Prop) key :
  (forall i, m !! key = Some i <-> P i) -> (forall i, ~ P i) -> m !! key = None.
Proof.
  intros Hm HP. destruct (m !! key) as [i|] eqn:E; [|done].
  exfalso. apply (HP i). by apply Hm.
Qed.

Lemma run_register_fresh w k d q :
  objects w !! k = Some (decl_object d q) ->
  pass_register w !! decl_pass_name d = None ->
  (forall n, decl_frontend_name d = Some n -> frontend_register w !! n = None) ->
  (forall n, decl_backend_name d = Some n -> backend_register w !! n = None) ->
  run_register k w = Done tt (register_decl d k w).
Proof.
  intros Hobj Hp Hf Hb. unfold run_register, deref. munfold. rewrite Hobj. simpl.
  destruct d as [n h|n h|n h]; simpl in *.
  - unfold Pass_run_register, deref. munfold. rewrite Hobj. simpl.
    by rewrite (count_is_0_None _ _ Hp).
  - unfold Frontend_run_register, deref. munfold. rewrite Hobj. simpl.
    rewrite (count_is_0_None _ _ Hp). simpl.
    by rewrite (count_is_0_None _ _ (Hf _ eq_refl)).
  - unfold Backend_run_register, deref. munfold. rewrite Hobj. simpl.
    rewrite (count_is_0_None _ _ Hp). simpl.
    by rewrite (count_is_0_None _ _ (Hb _ eq_refl)).
Qed.

Lemma register_decl_fields d k w :
  objects (register_decl d k w) = objects w /\
  first_queued_pass (register_decl d k w) = first_queued_pass w /\
  echo_mode (register_decl d k w) = echo_mode w /\
  design (register_decl d k w) = design w /\
  events (register_decl d k w) = events w /\
  pass_register (register_decl d k w) = <[decl_pass_name d := k]> (pass_register w) /\
  frontend_register (register_decl d k w) =
    match decl_frontend_name d with
    | Some n => <[n := k]> (frontend_register w)
    | None => frontend_register w
    end /\
  backend_register (register_decl d k w) =
    match decl_backend_name d with
    | Some n => <[n := k]> (backend_register w)
    | None => backend_register w
    end.
Proof. destruct d; unfold register_decl; simpl; split_and!; reflexivity. Qed.

Lemma registered_step (key : Decl -> option string) ds k d (m : gmap string ptr) :
  ds !! k = Some d ->
  (forall name i, m !! name = Some i <->
     S k <= i /\ exists d', ds !! i = Some d' /\ key d' = Some name) ->
  (forall n, key d = Some n -> m !! n = None) ->
  forall name i,
    match key d with Some n => <[n := k]> m | None => m end !! name = Some i <->
    k <= i /\ exists d', ds !! i = Some d' /\ key d' = Some name.
Proof.
  intros Hd Hm Hfree name i. destruct (key d) as [n|] eqn:Hkey.
  - destruct (decide (n = name)) as [->|Hne].
    + rewrite lookup_insert_eq. split.
      * intros [= <-]. split; [lia|]. eauto.
      * intros [Hle (d' & Hd' & Hk')]. f_equal.
        destruct (decide (i = k)) as [|Hik]; [done|].
        assert (m !! name = Some i) as Hin by (apply Hm; split; [lia|eauto]).
        pose proof (Hfree name eq_refl). congruence.
    + rewrite lookup_insert_ne by done. rewrite Hm. split.
      * intros [Hle Hex]. split; [lia|done].
      * intros [Hle (d' & Hd' & Hk')]. split; [|eauto].
        destruct (decide (i = k)) as [->|]; [|lia]. congruence.
  - rewrite Hm. split.
    + intros [Hle Hex]. split; [lia|done].
    + intros [Hle (d' & Hd' & Hk')]. split; [|eauto].
      destruct (decide (i = k)) as [->|]; [|lia]. congruence.
Qed.

Lemma init_register_loop ds :
  NoDup (decl_pass_name <$> ds) ->
  NoDup (omap decl_frontend_name ds) ->
  NoDup (omap decl_backend_name ds) ->
  forall k fuel w,
    k <= fuel -> k <= length ds ->
    chained ds w -> first_queued_pass w = pred_ptr k ->
    registered_from ds k w ->
    exists w', Pass_init_register fuel w = Done tt w' /\
      chained ds w' /\ first_queued_pass w' = None /\
      registered_from ds 0 w' /\
      echo_mode w' = echo_mode w /\ design w' = design w /\ events w' = events w.
Proof.
  intros Hp Hf Hb. induction k as [|k IH]; intros fuel w Hfuel Hk Hch Hq Hreg.
  - exists w. split_and!; try done.
    destruct fuel; simpl; munfold; by rewrite Hq.
  - destruct fuel as [|fuel]; [lia|].
    destruct (lookup_lt_is_Some_2 ds k) as [d Hd]; [lia|].
    pose proof (proj2 Hch k d Hd) as Hobj.
    destruct Hreg as (Hrp & Hrf & Hrb).
    assert (pass_register w !! decl_pass_name d = None) as Hfree.
    { eapply lookup_None_from_iff; [apply Hrp|]. intros i [Hle (d' & Hd' & Hn)].
      assert (i = k); [|lia].
      eapply (NoDup_lookup _ i k (decl_pass_name d) Hp); rewrite list_lookup_fmap.
      - by rewrite Hd', <- Hn. - by rewrite Hd. }
    assert (forall n, decl_frontend_name d = Some n -> frontend_register w !! n = None) as Hffree.
    { intros n Hn. eapply lookup_None_from_iff; [apply Hrf|]. intros i [Hle (d' & Hd' & Hn')].
      assert (i = k); [|lia].
      exact (NoDup_omap_lookup decl_frontend_name ds i k d' d n Hf Hd' Hd Hn' Hn). }
    assert (forall n, decl_backend_name d = Some n -> backend_register w !! n = None) as Hbfree.
    { intros n Hn. eapply lookup_None_from_iff; [apply Hrb|]. intros i [Hle (d' & Hd' & Hn')].
      assert (i = k); [|lia].
      exact (NoDup_omap_lookup decl_backend_name ds i k d' d n Hb Hd' Hd Hn' Hn). }
    pose proof (run_register_fresh w k d _ Hobj Hfree Hffree Hbfree) as Hrun.
    destruct (register_decl_fields d k w) as (Eo & Eq & Ee & Ed & Eev & Epr & Efr & Ebr).
    set (w1 := register_decl d k w) in *.
    assert (chained ds (set_first_queued_pass (pred_ptr k) w1)) as Hch1.
    { destruct Hch as [Hlen Hall]. split; simpl; rewrite Eo; auto. }
    assert (registered_from ds k (set_first_queued_pass (pred_ptr k) w1)) as Hreg1.
    { split_and!; simpl.
      - rewrite Epr. intros name i.
        pose proof (registered_step (fun d => Some (decl_pass_name d)) ds k d
                      (pass_register w) Hd) as Hs.
        simpl in Hs. rewrite Hs.
        + split; intros [? (d' & ? & ?)]; (split; [done|]); exists d';
            split; auto; congruence.
        + intros n i'. rewrite Hrp.
          split; intros [? (d' & ? & ?)]; (split; [done|]); exists d';
            split; auto; congruence.
        + by intros n [= <-].
      - rewrite Efr. by apply registered_step.
      - rewrite Ebr. by apply registered_step. }
    destruct (IH fuel (set_first_queued_pass (pred_ptr k) w1))
      as (w' & Hloop & Hch' & Hq' & Hreg' & He' & Hd' & Hev');
      [lia|lia|exact Hch1|reflexivity|exact Hreg1|].
    simpl in He', Hd', Hev'.
    exists w'. split_and!; try done; try congruence.
    simpl. munfold. rewrite Hq. simpl. rewrite Hrun. rewrite Eq, Hq. simpl.
    unfold deref. rewrite Eo, Hobj. simpl. exact Hloop.
Qed.


Lemma chained_nil (d0 : Design Netlist) : chained [] (empty_world d0).
Proof. split; [done|]. intros i d Hi. by rewrite lookup_nil in Hi. Qed.

Lemma registered_from_empty ds (d0 : Design Netlist) w :
  pass_register w = ∅ -> frontend_register w = ∅ -> backend_register w = ∅ ->
  chained ds w ->
  registered_from ds (length ds) w.
Proof.
  intros Hp Hf Hb _. unfold registered_from. rewrite Hp, Hf, Hb.
  split_and!; intros name i; rewrite lookup_empty;
    (split; [done|]); intros [Hle (d & Hd & _)];
    apply lookup_lt_Some in Hd; lia.
Qed.

Lemma startup_registers ds (d0 : Design Netlist) fuel :
  NoDup (decl_pass_name <$> ds) ->
  NoDup (omap decl_frontend_name ds) ->
  NoDup (omap decl_backend_name ds) ->
  length ds <= fuel ->
  exists w',
    (construct_all ds;; Pass_init_register fuel) (empty_world d0) = Done tt w' /\
    chained ds w' /\ first_queued_pass w' = None /\ registered_from ds 0 w' /\
    echo_mode w' = false /\ design w' = d0 /\ events w' = [].
Proof.
  intros Hp Hf Hb Hfuel.
  destruct (construct_all_spec ds [] (empty_world d0) (chained_nil d0) eq_refl)
    as (w1 & Hc & Hch & Hq & Epr & Efr & Ebr & Ee & Ed & Eev).
  simpl in *.
  destruct (init_register_loop ds Hp Hf Hb (length ds) fuel w1)
    as (w' & Hl & Hch' & Hq' & Hreg' & Ee' & Ed' & Eev');
    [lia|lia|done|done|by apply registered_from_empty|].
  exists w'. split_and!; try done; try congruence.
  munfold. by rewrite Hc.
Qed.

End Registration.

(** ** The dispatcher *)

Section Dispatcher.
Context {Netlist : Type} {host : Host Netlist} {cmds : Commands Netlist}.
Implicit Types (w : World Netlist).

Lemma log_args_spec args : forall i (w : World Netlist),
  log_args i args w = Done tt (add_events (log_args_events i args) w).
Proof.
  induction args as [|a args IH]; intros i w; simpl.
  - unfold add_events. rewrite app_nil_r. by destruct w.
  - munfold. simpl. rewrite IH. unfold add_events, add_event. simpl.
    by rewrite <- app_assoc.
Qed.

Lemma unwind_loop_take n : forall orig stack,
  length stack <= n -> unwind_loop n orig stack = take orig stack.
Proof.
  induction n as [|n IH]; intros orig stack Hn; simpl.
  - destruct stack; [|simpl in Hn; lia]. by rewrite take_nil.
  - destruct (Nat.ltb_spec orig (length stack)) as [Hlt|Hge].
    + rewrite IH.
      * destruct (exists_last (l := stack)) as (s & x & ->).
        { intros ->. simpl in Hlt. lia. }
        rewrite removelast_last. rewrite length_app in Hlt. simpl in Hlt.
        rewrite take_app_le by lia. done.
      * destruct (exists_last (l := stack)) as (s & x & ->).
        { intros ->. simpl in Hlt. lia. }
        rewrite removelast_last. rewrite length_app in Hn. simpl in Hn. lia.
    + by rewrite take_ge.
Qed.

Lemma unwind_take orig stack : unwind orig stack = take orig stack.
Proof. by apply unwind_loop_take. Qed.

Lemma unwind_length orig (stack : list Selection) :
  length (unwind orig stack) = Nat.min orig (length stack).
Proof. rewrite unwind_take. apply length_take. Qed.

Lemma echo_command_spec args w : echo_command args w = Done tt (echoed args w).
Proof.
  unfold echo_command, echoed. mred.
  destruct (echo_mode w); [|done].
  rewrite (log_args_spec args). unfold add_events, add_event. simpl.
  by rewrite <- !app_assoc.
Qed.

Lemma bump_call_counter_spec p o w :
  objects w !! p = Some o -> bump_call_counter p w = Done tt (bumped p o w).
Proof. intros Ho. unfold bump_call_counter, deref. munfold. by rewrite Ho. Qed.

Lemma bump_call_counter_dangling p w :
  objects w !! p = None -> bump_call_counter p w = Undefined.
Proof. intros Ho. unfold bump_call_counter, deref. munfold. by rewrite Ho. Qed.

Lemma Pass_call_resolved fuel a0 rest w p :
  at_ a0 0 <> Some "#"%char ->
  pass_register w !! a0 = Some p ->
  Pass_call fuel (a0 :: rest) w =
    dispatch_resolved fuel p (a0 :: rest) (stack_depth w) (echoed (a0 :: rest) w).
Proof.
  intros Hc Hp. unfold Pass_call, dispatch_resolved.
  rewrite bool_decide_false by done.
  rewrite (bind_Done _ _ _ _ _ (echo_command_spec _ _)).
  assert (pass_register (echoed (a0 :: rest) w) = pass_register w) as Epr.
  { unfold echoed. by destruct (echo_mode w). }
  assert (objects (echoed (a0 :: rest) w) = objects w) as Eo.
  { unfold echoed. by destruct (echo_mode w). }
  assert (design (echoed (a0 :: rest) w) = design w) as Ed.
  { unfold echoed. by destruct (echo_mode w). }
  set (w1 := echoed (a0 :: rest) w) in *.
  destruct (objects w1 !! p) as [o|] eqn:Ho.
  - unfold count_is_0. munfold. simpl. rewrite Epr, Hp. simpl. rewrite Epr, Hp.
    rewrite (bump_call_counter_spec _ _ _ Ho). simpl. rewrite Epr, Hp.
    unfold stack_depth. by rewrite Ed.
  - unfold count_is_0. munfold. simpl. rewrite Epr, Hp. simpl. rewrite Epr, Hp.
    by rewrite (bump_call_counter_dangling _ _ Ho).
Qed.

Lemma Pass_call_unresolved fuel a0 rest w :
  at_ a0 0 <> Some "#"%char ->
  pass_register w !! a0 = None ->
  Pass_call fuel (a0 :: rest) w =
    CmdError ("No such command: " +:+ c_str a0 +:+
              " (type 'help' for a command overview)" +:+ nl)
             (echoed (a0 :: rest) w).
Proof.
  intros Hc Hp. unfold Pass_call.
  rewrite bool_decide_false by done.
  rewrite (bind_Done _ _ _ _ _ (echo_command_spec _ _)).
  assert (pass_register (echoed (a0 :: rest) w) = pass_register w) as Epr.
  { unfold echoed. by destruct (echo_mode w). }
  unfold count_is_0. munfold. simpl. by rewrite Epr, Hp.
Qed.

Lemma echoed_fields args w :
  objects (echoed args w) = objects w /\
  pass_register (echoed args w) = pass_register w /\
  design (echoed args w) = design w /\
  exists evs, events (echoed args w) = events w ++ evs /\
    forall e, e ∈ evs -> exists text, e = EvLog text.
Proof.
  unfold echoed. destruct (echo_mode w); simpl.
  - split_and!; try done. eexists. split; [done|].
    intros e [->|He]%elem_of_cons; [eauto|].
    apply elem_of_app in He as [He|He].
    + revert He. generalize 0. induction (args) as [|a l IH]; intros n He; simpl in *.
      * by apply not_elem_of_nil in He.
      * apply elem_of_cons in He as [->|He]; eauto.
    + apply list_elem_of_singleton in He. eauto.
  - split_and!; try done. exists []. split; [by rewrite app_nil_r|].
    intros e He. by apply not_elem_of_nil in He.
Qed.

Lemma Design_check_spec w :
  Design_check w =
    if design_check (design w) then Done tt (add_event EvCheck w)
    else Fatal "design consistency check failed".
Proof. unfold Design_check. mred. by destruct (design_check (design w)). Qed.

(** A dispatch that returned did resolve its command, ran [execute] on the
    bumped object and ended with the unwinding and the check. *)
Lemma Pass_call_Done_inv fuel a0 rest w w' :
  at_ a0 0 <> Some "#"%char ->
  Pass_call fuel (a0 :: rest) w = Done tt w' ->
  exists p o w2,
    pass_register w !! a0 = Some p /\
    objects w !! p = Some o /\
    virtual_execute fuel p (a0 :: rest) (bumped p o (echoed (a0 :: rest) w)) = Done tt w2 /\
    design_check (design (unwound (stack_depth w) w2)) = true /\
    w' = add_event EvCheck (unwound (stack_depth w) w2).
Proof.
  intros Hc Hcall.
  destruct (pass_register w !! a0) as [p|] eqn:Hp.
  2:{ rewrite Pass_call_unresolved in Hcall by done. done. }
  rewrite (Pass_call_resolved _ _ _ _ p) in Hcall by done.
  destruct (echoed_fields (a0 :: rest) w) as (Eo & _ & _ & _).
  unfold dispatch_resolved in Hcall.
  destruct (objects w !! p) as [o|] eqn:Ho.
  2:{ rewrite bind_unfold, bump_call_counter_dangling in Hcall by congruence. done. }
  assert (objects (echoed (a0 :: rest) w) !! p = Some o) as Ho' by congruence.
  rewrite (bind_Done _ _ _ _ _ (bump_call_counter_spec p o _ Ho')) in Hcall.
  apply bind_Done_inv in Hcall as ([] & w2 & Hex & Hcall).
  unfold unwind_selection_stack in Hcall. rewrite bind_unfold in Hcall.
  cbv beta iota delta [modify] in Hcall.
  rewrite Design_check_spec in Hcall.
  fold (unwound (stack_depth w) w2) in Hcall.
  destruct (design_check (design (unwound (stack_depth w) w2))) eqn:Hck; [|done].
  exists p, o, w2. split_and!; try done. congruence.
Qed.

(** A resolved dispatch whose [execute] returns ends with the unwinding and
    the check. *)
Lemma Pass_call_returns fuel a0 rest w p o w2 :
  at_ a0 0 <> Some "#"%char ->
  pass_register w !! a0 = Some p ->
  objects w !! p = Some o ->
  virtual_execute fuel p (a0 :: rest) (bumped p o (echoed (a0 :: rest) w)) = Done tt w2 ->
  Pass_call fuel (a0 :: rest) w =
    if design_check (design (unwound (stack_depth w) w2))
    then Done tt (add_event EvCheck (unwound (stack_depth w) w2))
    else Fatal "design consistency check failed".
Proof.
  intros Hc Hp Ho Hex.
  rewrite (Pass_call_resolved _ _ _ _ p) by done.
  unfold dispatch_resolved.
  assert (objects (echoed (a0 :: rest) w) !! p = Some o) as Ho'.
  { by destruct (echoed_fields (a0 :: rest) w) as (-> & _). }
  rewrite (bind_Done _ _ _ _ _ (bump_call_counter_spec p o _ Ho')).
  rewrite (bind_Done _ _ _ _ _ Hex).
  unfold unwind_selection_stack. rewrite bind_unfold.
  cbv beta iota delta [modify].
  by rewrite Design_check_spec.
Qed.

Lemma Pass_call_noop fuel a0 rest w :
  at_ a0 0 = Some "#"%char -> Pass_call fuel (a0 :: rest) w = Done tt w.
Proof. intros Hc. unfold Pass_call. by rewrite bool_decide_true. Qed.

End Dispatcher.

(** ** The registry after start-up *)

Section RegistryClaims.
Context {Netlist : Type} {host : Host Netlist} {cmds : Commands Netlist}.
Implicit Types (w : World Netlist) (ds : list Decl).

Lemma run_register_taken w p o q :
  objects w !! p = Some o ->
  pass_register w !! pass_name o = Some q ->
  run_register p w = Fatal "Assert `pass_register.count(pass_name) == 0' failed.".
Proof.
  intros Ho Hq. unfold run_register, deref. mred. rewrite Ho.
  destruct (kind o); unfold Pass_run_register, Frontend_run_register,
    Backend_run_register, deref; mred; rewrite Ho;
    by rewrite (count_is_0_Some _ _ _ Hq).
Qed.

Lemma run_register_frontend_taken w p o fn q :
  objects w !! p = Some o -> kind o = FrontendPass fn ->
  pass_register w !! pass_name o = None ->
  frontend_register w !! fn = Some q ->
  run_register p w =
    Fatal "Assert `frontend_register.count(frontend_name) == 0' failed.".
Proof.
  intros Ho Hk Hp Hq. unfold run_register, deref. mred. rewrite Ho, Hk.
  unfold Frontend_run_register, deref. mred. rewrite Ho.
  rewrite (count_is_0_None _ _ Hp). simpl.
  by rewrite (count_is_0_Some _ _ _ Hq).
Qed.

Lemma run_register_backend_taken w p o bn q :
  objects w !! p = Some o -> kind o = BackendPass bn ->
  pass_register w !! pass_name o = None ->
  backend_register w !! bn = Some q ->
  run_register p w =
    Fatal "Assert `backend_register.count(backend_name) == 0' failed.".
Proof.
  intros Ho Hk Hp Hq. unfold run_register, deref. mred. rewrite Ho, Hk.
  unfold Backend_run_register, deref. mred. rewrite Ho.
  rewrite (count_is_0_None _ _ Hp). simpl.
  by rewrite (count_is_0_Some _ _ _ Hq).
Qed.

(** C6.  Start-up from the process before any construction: when the
    declared objects have pairwise distinct names in each namespace they
    occupy, constructing them and running [init_register] (with fuel for one
    round per object) returns, the queue is empty, the pass registry maps the
    name of each object to that object and nothing else, and an unregistered
    name is not found, so that dispatching it raises the command error "No
    such command" (with the echo mode off, in the same world), whose text
    shows the name as [%s] prints it from [c_str()].  Registering an object
    whose name is taken in a namespace is fatal: the failed [log_assert]
    ends the process. *)
Theorem C6_registry_after_init_register ds (d0 : Design Netlist) (fuel : nat) :
  NoDup (decl_pass_name <$> ds) ->
  NoDup (omap decl_frontend_name ds) ->
  NoDup (omap decl_backend_name ds) ->
  length ds <= fuel ->
  (exists w',
    (construct_all ds;; Pass_init_register fuel) (empty_world d0) = Done tt w' /\
    first_queued_pass w' = None /\
    (forall i d, ds !! i = Some d ->
       pass_register w' !! decl_pass_name d = Some i /\
       pass_name <$> objects w' !! i = Some (decl_pass_name d)) /\
    (forall name p, pass_register w' !! name = Some p ->
       exists d, ds !! p = Some d /\ decl_pass_name d = name) /\
    (forall name, name ∉ decl_pass_name <$> ds ->
       pass_register w' !! name = None /\
       forall fuel' rest, at_ name 0 <> Some "#"%char ->
         Pass_call fuel' (name :: rest) w' =
           CmdError ("No such command: " +:+ c_str name +:+
                     " (type 'help' for a command overview)" +:+ nl) w')) /\
  (forall w p o q,
     objects w !! p = Some o -> pass_register w !! pass_name o = Some q ->
     run_register p w =
       Fatal "Assert `pass_register.count(pass_name) == 0' failed.") /\
  (forall w p o fn q,
     objects w !! p = Some o -> kind o = FrontendPass fn ->
     pass_register w !! pass_name o = None ->
     frontend_register w !! fn = Some q ->
     run_register p w =
       Fatal "Assert `frontend_register.count(frontend_name) == 0' failed.") /\
  (forall w p o bn q,
     objects w !! p = Some o -> kind o = BackendPass bn ->
     pass_register w !! pass_name o = None ->
     backend_register w !! bn = Some q ->
     run_register p w =
       Fatal "Assert `backend_register.count(backend_name) == 0' failed.").
Proof.
  intros Hp Hf Hb Hfuel. split_and!.
  - destruct (startup_registers ds d0 fuel Hp Hf Hb Hfuel)
      as (w' & Hrun & [Hlen Hobj] & Hq & (Hrp & _ & _) & Hecho & _ & _).
    exists w'. split_and!; [done|done| | |].
    + intros i d Hd. split.
      * apply Hrp. split; [lia|]. eauto.
      * by rewrite (Hobj i d Hd).
    + intros name p Hreg. apply Hrp in Hreg as [_ (d & Hd & Hn)]. eauto.
    + intros name Hname.
      assert (pass_register w' !! name = None) as Hnone.
      { destruct (pass_register w' !! name) as [i|] eqn:E; [|done].
        apply Hrp in E as [_ (d & Hd & Hn)]. exfalso. apply Hname.
        apply list_elem_of_fmap. exists d. split; [done|].
        by eapply list_elem_of_lookup_2. }
      split; [done|]. intros fuel' rest Hc.
      rewrite Pass_call_unresolved by done.
      unfold echoed. by rewrite Hecho.
  - apply run_register_taken.
  - apply run_register_frontend_taken.
  - apply run_register_backend_taken.
Qed.

Lemma register_one (d : Decl) w fuel :
  first_queued_pass w = None ->
  pass_register w !! decl_pass_name d = None ->
  (forall n, decl_frontend_name d = Some n -> frontend_register w !! n = None) ->
  (forall n, decl_backend_name d = Some n -> backend_register w !! n = None) ->
  exists w',
    (construct d;; Pass_init_register (S fuel)) w = Done tt w' /\
    objects w' = objects w ++ [decl_object d None] /\
    first_queued_pass w' = None /\
    pass_register w' = <[decl_pass_name d := length (objects w)]> (pass_register w) /\
    frontend_register w' =
      match decl_frontend_name d with
      | Some n => <[n := length (objects w)]> (frontend_register w)
      | None => frontend_register w
      end /\
    backend_register w' =
      match decl_backend_name d with
      | Some n => <[n := length (objects w)]> (backend_register w)
      | None => backend_register w
      end.
Proof.
  intros Hq Hp Hf Hb.
  set (n := length (objects w)).
  set (w1 := set_first_queued_pass (Some n)
               (set_objects (objects w ++ [decl_object d (first_queued_pass w)]) w)).
  assert (objects w1 !! n = Some (decl_object d None)) as Hobj.
  { simpl. rewrite Hq. unfold n. by rewrite lookup_app_r, Nat.sub_diag by lia. }
  pose proof (run_register_fresh w1 n d None Hobj Hp Hf Hb) as Hrun.
  destruct (register_decl_fields d n w1) as (Eo & Eq & _ & _ & _ & Epr & Efr & Ebr).
  exists (set_first_queued_pass None (register_decl d n w1)).
  split_and!; simpl; try done.
  - rewrite (bind_Done _ _ _ _ _ (construct_spec d w)). fold n w1.
    assert (first_queued_pass w1 = Some n) as Hq1 by done.
    cbn [Pass_init_register]. mred. rewrite Hq1, Hrun, Eq, Hq1.
    unfold deref. rewrite Eo, Hobj. simpl.
    destruct fuel; by mred.
  - rewrite Eo. simpl. by rewrite Hq.
Qed.


Lemma starts_with_eq_cons (n : string) : starts_with "=" ("=" +:+ n) = true.
Proof. unfold starts_with. simpl. by destruct n. Qed.

(** C8.  A [Frontend] constructed with a name [N] that does not begin with
    ["="] is registered, by [init_register], in the dispatch namespace under
    ["read_" + N] and in the frontend namespace under [N]; constructed with
    ["=" + N] it is registered in both under [N].  A [Backend] does the same
    with ["write_"] and the backend namespace.  In each case both entries
    are the one new object and the other namespace is left alone. *)
Theorem C8_frontend_backend_names (N short_help : string) w (fuel : nat) :
  first_queued_pass w = None ->
  let p := length (objects w) in
  (starts_with "=" N = false ->
   pass_register w !! ("read_" +:+ N) = None ->
   frontend_register w !! N = None ->
   exists w',
     (Frontend_ctor N short_help;; Pass_init_register (S fuel)) w = Done tt w' /\
     objects w' !! p =
       Some (mkPass ("read_" +:+ N) short_help 0 None (FrontendPass N)) /\
     pass_register w' = <["read_" +:+ N := p]> (pass_register w) /\
     frontend_register w' = <[N := p]> (frontend_register w) /\
     backend_register w' = backend_register w) /\
  (pass_register w !! N = None ->
   frontend_register w !! N = None ->
   exists w',
     (Frontend_ctor ("=" +:+ N) short_help;; Pass_init_register (S fuel)) w
       = Done tt w' /\
     objects w' !! p = Some (mkPass N short_help 0 None (FrontendPass N)) /\
     pass_register w' = <[N := p]> (pass_register w) /\
     frontend_register w' = <[N := p]> (frontend_register w) /\
     backend_register w' = backend_register w) /\
  (starts_with "=" N = false ->
   pass_register w !! ("write_" +:+ N) = None ->
   backend_register w !! N = None ->
   exists w',
     (Backend_ctor N short_help;; Pass_init_register (S fuel)) w = Done tt w' /\
     objects w' !! p =
       Some (mkPass ("write_" +:+ N) short_help 0 None (BackendPass N)) /\
     pass_register w' = <["write_" +:+ N := p]> (pass_register w) /\
     backend_register w' = <[N := p]> (backend_register w) /\
     frontend_register w' = frontend_register w) /\
  (pass_register w !! N = None ->
   backend_register w !! N = None ->
   exists w',
     (Backend_ctor ("=" +:+ N) short_help;; Pass_init_register (S fuel)) w
       = Done tt w' /\
     objects w' !! p = Some (mkPass N short_help 0 None (BackendPass N)) /\
     pass_register w' = <[N := p]> (pass_register w) /\
     backend_register w' = <[N := p]> (backend_register w) /\
     frontend_register w' = frontend_register w).
Proof.
  intros Hq p. split_and!.
  - intros Hs Hp Hf.
    destruct (register_one (DeclFrontend N short_help) w fuel Hq)
      as (w' & Hrun & Ho & _ & Epr & Efr & Ebr); simpl; rewrite ?Hs; try done.
    { by intros n [= <-]. }
    exists w'. simpl in *. rewrite Hs in *.
    split_and!; try done.
    rewrite Ho. unfold p. rewrite lookup_app_r, Nat.sub_diag by lia.
    unfold decl_object. simpl. by rewrite Hs.
  - intros Hp Hf.
    destruct (register_one (DeclFrontend ("=" +:+ N) short_help) w fuel Hq)
      as (w' & Hrun & Ho & _ & Epr & Efr & Ebr);
      cbn [decl_pass_name decl_frontend_name decl_backend_name];
      rewrite ?starts_with_eq_cons; try done.
    { by intros n [= <-]. }
    exists w'. cbn [decl_pass_name decl_frontend_name decl_backend_name construct] in *.
    rewrite starts_with_eq_cons in *.
    split_and!; try done.
    rewrite Ho. unfold p, decl_object. cbn [decl_pass_name decl_kind decl_help].
    by rewrite lookup_app_r, Nat.sub_diag, starts_with_eq_cons by lia.
  - intros Hs Hp Hf.
    destruct (register_one (DeclBackend N short_help) w fuel Hq)
      as (w' & Hrun & Ho & _ & Epr & Efr & Ebr); simpl; rewrite ?Hs; try done.
    { by intros n [= <-]. }
    exists w'. simpl in *. rewrite Hs in *.
    split_and!; try done.
    rewrite Ho. unfold p. rewrite lookup_app_r, Nat.sub_diag by lia.
    unfold decl_object. simpl. by rewrite Hs.
  - intros Hp Hf.
    destruct (register_one (DeclBackend ("=" +:+ N) short_help) w fuel Hq)
      as (w' & Hrun & Ho & _ & Epr & Efr & Ebr);
      cbn [decl_pass_name decl_frontend_name decl_backend_name];
      rewrite ?starts_with_eq_cons; try done.
    { by intros n [= <-]. }
    exists w'. cbn [decl_pass_name decl_frontend_name decl_backend_name construct] in *.
    rewrite starts_with_eq_cons in *.
    split_and!; try done.
    rewrite Ho. unfold p, decl_object. cbn [decl_pass_name decl_kind decl_help].
    by rewrite lookup_app_r, Nat.sub_diag, starts_with_eq_cons by lia.
Qed.

End RegistryClaims.

(** ** Dispatching a command *)

Section DispatcherClaims.
Context {Netlist : Type} {host : Host Netlist} {cmds : Commands Netlist}.
Implicit Types (w : World Netlist).

Lemma stack_depth_unwound orig w :
  stack_depth (add_event EvCheck (unwound orig w)) = Nat.min orig (stack_depth w).
Proof. unfold stack_depth. simpl. apply unwind_length. Qed.

Lemma stack_depth_bumped_echoed p o args w :
  stack_depth (bumped p o (echoed args w)) = stack_depth w.
Proof.
  unfold stack_depth. simpl.
  by destruct (echoed_fields args w) as (_ & _ & -> & _).
Qed.

(** C4 (amended).  In a dispatch that is not a no-op: when the command name
    resolves, [execute] returns and the check passes, the dispatch returns
    and the depth of the selection stack is then the smaller of the depth
    recorded before [execute] and the depth [execute] left.  Conversely a
    dispatch that returns did resolve its command name, [execute] ran from
    a world of the recorded depth and returned, and the depth after the
    dispatch is that minimum: it never exceeds the recorded depth, and
    equals it whenever [execute] left at least as many frames as were
    recorded. *)
Theorem C4_dispatch_unwinds fuel (a0 : string) (rest : list string) w :
  at_ a0 0 <> Some "#"%char ->
  (forall p o w2,
     pass_register w !! a0 = Some p ->
     objects w !! p = Some o ->
     virtual_execute fuel p (a0 :: rest) (bumped p o (echoed (a0 :: rest) w))
       = Done tt w2 ->
     design_check (design (unwound (stack_depth w) w2)) = true ->
     exists w',
       Pass_call fuel (a0 :: rest) w = Done tt w' /\
       stack_depth w' = Nat.min (stack_depth w) (stack_depth w2)) /\
  (forall w',
     Pass_call fuel (a0 :: rest) w = Done tt w' ->
     exists p o w2,
       pass_register w !! a0 = Some p /\
       objects w !! p = Some o /\
       stack_depth (bumped p o (echoed (a0 :: rest) w)) = stack_depth w /\
       virtual_execute fuel p (a0 :: rest) (bumped p o (echoed (a0 :: rest) w))
         = Done tt w2 /\
       stack_depth w' = Nat.min (stack_depth w) (stack_depth w2) /\
       stack_depth w' <= stack_depth w /\
       (stack_depth w <= stack_depth w2 -> stack_depth w' = stack_depth w)).
Proof.
  intros Hc. split.
  - intros p o w2 Hp Ho Hex Hck.
    rewrite (Pass_call_returns _ _ _ _ _ _ _ Hc Hp Ho Hex), Hck.
    eexists. split; [done|]. apply stack_depth_unwound.
  - intros w' Hcall.
    destruct (Pass_call_Done_inv _ _ _ _ _ Hc Hcall)
      as (p & o & w2 & Hp & Ho & Hex & Hck & ->).
    exists p, o, w2.
    rewrite stack_depth_unwound, stack_depth_bumped_echoed.
    split_and!; try done; lia.
Qed.

(** C7 (amended).  In a dispatch that is not a no-op: when the command name
    resolves, [execute] returns and the check passes, the dispatch returns
    with the check as the one event after those of [execute]; a dispatch
    that returns has the check, passed, as its last event.  When the
    command name is unknown the dispatch ends with the command error having
    logged at most the echo, without a check; when [execute] raises a
    command error the dispatch ends with that very outcome, nothing run
    after it. *)
Theorem C7_check_after_returning_dispatch fuel (a0 : string) (rest : list string) w :
  at_ a0 0 <> Some "#"%char ->
  (forall p o w2,
     pass_register w !! a0 = Some p ->
     objects w !! p = Some o ->
     virtual_execute fuel p (a0 :: rest) (bumped p o (echoed (a0 :: rest) w))
       = Done tt w2 ->
     design_check (design (unwound (stack_depth w) w2)) = true ->
     exists w',
       Pass_call fuel (a0 :: rest) w = Done tt w' /\
       events w' = events w2 ++ [EvCheck]) /\
  (forall w', Pass_call fuel (a0 :: rest) w = Done tt w' ->
     last (events w') = Some EvCheck /\ design_check (design w') = true) /\
  (pass_register w !! a0 = None ->
     exists msg w1 logs,
       Pass_call fuel (a0 :: rest) w = CmdError msg w1 /\
       events w1 = events w ++ logs /\ EvCheck ∉ logs) /\
  (forall p o msg w2,
     pass_register w !! a0 = Some p -> objects w !! p = Some o ->
     virtual_execute fuel p (a0 :: rest) (bumped p o (echoed (a0 :: rest) w))
       = CmdError msg w2 ->
     Pass_call fuel (a0 :: rest) w = CmdError msg w2).
Proof.
  intros Hc. split_and!.
  - intros p o w2 Hp Ho Hex Hck.
    rewrite (Pass_call_returns _ _ _ _ _ _ _ Hc Hp Ho Hex), Hck.
    eexists. split; done.
  - intros w' Hcall.
    destruct (Pass_call_Done_inv _ _ _ _ _ Hc Hcall)
      as (p & o & w2 & Hp & Ho & Hex & Hck & ->).
    split; [|done]. simpl. by rewrite last_snoc.
  - intros Hp. rewrite Pass_call_unresolved by done.
    destruct (echoed_fields (a0 :: rest) w) as (_ & _ & _ & logs & Hev & Hlogs).
    do 3 eexists. split_and!; [done|exact Hev|].
    intros Hin. by destruct (Hlogs _ Hin).
  - intros p o msg w2 Hp Ho Hex.
    rewrite (Pass_call_resolved _ _ _ _ p) by done.
    unfold dispatch_resolved.
    assert (objects (echoed (a0 :: rest) w) !! p = Some o) as Ho'.
    { by destruct (echoed_fields (a0 :: rest) w) as (-> & _). }
    rewrite (bind_Done _ _ _ _ _ (bump_call_counter_spec p o _ Ho')).
    by rewrite bind_unfold, Hex.
Qed.

Lemma counter_of_bumped p o w :
  objects w !! p = Some o ->
  counter_of p (bumped p o w) = Some (wrap_int (call_counter o + 1)).
Proof.
  intros Ho. unfold counter_of, bumped. simpl.
  rewrite list_lookup_insert_eq; [done|]. by eapply lookup_lt_Some.
Qed.

Lemma counter_of_Some p w c :
  counter_of p w = Some c ->
  exists o, objects w !! p = Some o /\ call_counter o = c.
Proof.
  unfold counter_of. destruct (objects w !! p) as [o|]; [|done].
  intros [= <-]. eauto.
Qed.

(** The frontend driver on a handler that leaves the counter of its object
    alone: a run that needs exactly [k + 1] rounds adds [k + 1], in the
    arithmetic of [int]. *)
Lemma Frontend_execute_loop_counter p :
  (forall f fname args wa f' wb,
     frontend_execute p f fname args wa = Done f' wb ->
     counter_of p wb = counter_of p wa) ->
  forall k args w w' c,
    Frontend_execute_loop (S k) p args w = Done tt w' ->
    Frontend_execute_loop k p args w = OutOfFuel ->
    counter_of p w = Some c ->
    counter_of p w' = Some (wrap_int (c + Z.of_nat k + 1)).
Proof.
  intros Hframe. induction k as [|k IH]; intros args w w' c Hrun Hout Hc.
  - clear Hout. cbn [Frontend_execute_loop] in Hrun. mred_in Hrun.
    destruct (counter_of_Some _ _ _ Hc) as (o & Ho & <-).
    rewrite (bump_call_counter_spec p o (set_next_args [] w) Ho) in Hrun.
    destruct (frontend_execute p None "" args _) as [f w2| | | |] eqn:Hfe; try done.
    apply Hframe in Hfe. rewrite counter_of_bumped in Hfe by done.
    destruct f as [f|]; simpl in Hrun; [|done].
    destruct (next_args w2); [|done].
    inversion Hrun; subst w'. unfold counter_of in *. simpl.
    rewrite Hfe. do 2 f_equal. lia.
  - cbn [Frontend_execute_loop] in Hrun, Hout. mred_in Hrun. mred_in Hout.
    destruct (counter_of_Some _ _ _ Hc) as (o & Ho & <-).
    rewrite (bump_call_counter_spec p o (set_next_args [] w) Ho) in Hrun, Hout.
    destruct (frontend_execute p None "" args _) as [f w2| | | |] eqn:Hfe; try done.
    apply Hframe in Hfe. rewrite counter_of_bumped in Hfe by done.
    destruct f as [f|]; simpl in Hrun, Hout; [|done].
    destruct (next_args w2) as [|a args']; [done|].
    rewrite (IH _ _ _ (wrap_int (call_counter o + 1)) Hrun Hout).
    + rewrite <- Z.add_assoc, wrap_int_add. do 2 f_equal. lia.
    + unfold counter_of in *. simpl. exact Hfe.
Qed.

(** C9.  In a dispatch resolved to the object [o] at [p], [execute] starts
    in a world where the counter is already one more than before, so a
    command error of [execute] leaves the dispatch with the invocation
    counted.  When [o] is a frontend whose format handler leaves the counter
    alone and the driver needs exactly [k + 1] rounds (it returns with fuel
    [S k] and not with fuel [k]), that is [k] continuation rounds, the
    counter ends [k + 2] above its value before the dispatch.  The counter
    is an [int]: the sums are those of [int] arithmetic, and they are the
    exact sums whenever the counter was in the range of [int] before the
    dispatch and the sum does not exceed [int_max]. *)
Theorem C9_call_counter fuel (a0 : string) (rest : list string) w p o :
  at_ a0 0 <> Some "#"%char ->
  pass_register w !! a0 = Some p ->
  objects w !! p = Some o ->
  let w1 := bumped p o (echoed (a0 :: rest) w) in
  counter_of p w = Some (call_counter o) /\
  counter_of p w1 = Some (wrap_int (call_counter o + 1)) /\
  Pass_call fuel (a0 :: rest) w =
    (virtual_execute fuel p (a0 :: rest);;
     unwind_selection_stack (stack_depth w);;
     Design_check) w1 /\
  (forall msg w2,
     virtual_execute fuel p (a0 :: rest) w1 = CmdError msg w2 ->
     Pass_call fuel (a0 :: rest) w = CmdError msg w2) /\
  (forall fn k w',
     kind o = FrontendPass fn ->
     (forall f fname args wa f' wb,
        frontend_execute p f fname args wa = Done f' wb ->
        counter_of p wb = counter_of p wa) ->
     Pass_call (S k) (a0 :: rest) w = Done tt w' ->
     Pass_call k (a0 :: rest) w = OutOfFuel ->
     counter_of p w' = Some (wrap_int (call_counter o + Z.of_nat k + 2))) /\
  (forall n : Z,
     (0 <= n)%Z -> (int_min <= call_counter o)%Z ->
     (call_counter o + n <= int_max)%Z ->
     wrap_int (call_counter o + n) = (call_counter o + n)%Z).
Proof.
  intros Hc Hp Ho w1.
  assert (objects (echoed (a0 :: rest) w) !! p = Some o) as Ho'.
  { by destruct (echoed_fields (a0 :: rest) w) as (-> & _). }
  assert (forall fuel', Pass_call fuel' (a0 :: rest) w =
    (virtual_execute fuel' p (a0 :: rest);;
     unwind_selection_stack (stack_depth w);; Design_check) w1) as Hcall.
  { intros fuel'. rewrite (Pass_call_resolved _ _ _ _ p) by done.
    unfold dispatch_resolved.
    by rewrite (bind_Done _ _ _ _ _ (bump_call_counter_spec p o _ Ho')). }
  split_and!.
  - unfold counter_of. by rewrite Ho.
  - by apply counter_of_bumped.
  - apply Hcall.
  - intros msg w2 Hex. by rewrite Hcall, bind_unfold, Hex.
  - intros fn k w' Hk Hframe Hrun Hout.
    rewrite Hcall in Hrun, Hout.
    assert (objects w1 !! p = Some (mkPass (pass_name o) (short_help o)
              (wrap_int (call_counter o + 1)) (next_queued_pass o) (kind o))) as Ho1.
    { unfold w1, bumped. simpl. rewrite list_lookup_insert_eq; [done|].
      by eapply lookup_lt_Some. }
    apply bind_Done_inv in Hrun as ([] & w2 & Hex & Hrest).
    rewrite bind_unfold in Hout.
    unfold virtual_execute, deref in Hex, Hout.
    mred_in Hex. mred_in Hout. rewrite Ho1 in Hex, Hout. simpl in Hex, Hout.
    rewrite Hk in Hex, Hout.
    unfold Frontend_execute in Hex, Hout. mred_in Hex. mred_in Hout.
    destruct (bool_decide (next_args w1 = [])); [|done].
    destruct (Frontend_execute_loop k p (a0 :: rest) w1) eqn:Hloop.
    + unfold unwind_selection_stack in Hout. mred_in Hout.
      rewrite Design_check_spec in Hout.
      by destruct (design_check _).
    + done.
    + done.
    + done.
    + assert (counter_of p w2 =
              Some (wrap_int (wrap_int (call_counter o + 1) + Z.of_nat k + 1))) as Hc2.
      { eapply (Frontend_execute_loop_counter p Hframe k); eauto.
        by apply counter_of_bumped. }
      unfold unwind_selection_stack in Hrest. mred_in Hrest.
      rewrite Design_check_spec in Hrest.
      destruct (design_check _); [|done].
      inversion Hrest; subst w'. unfold counter_of in *. simpl.
      rewrite Hc2. rewrite <- Z.add_assoc, wrap_int_add. do 2 f_equal. lia.
  - intros n Hn Hlo Hhi. apply wrap_int_small. lia.
Qed.

End DispatcherClaims.

(** ** The scoped-call wrappers *)

Section Wrappers.
Context {Netlist : Type} {host : Host Netlist} {cmds : Commands Netlist}.
Implicit Types (w : World Netlist) (R : World Netlist -> World Netlist -> Prop).

Lemma preserves_ret R : Reflexive R -> preserves R (mret tt).
Proof. intros HR w w' [= <-]. apply HR. Qed.

Lemma preserves_bind R (c : M Netlist unit) (k : M Netlist unit) :
  Transitive R -> preserves R c -> preserves R k -> preserves R (c;; k).
Proof.
  intros HT Hc Hk w w' Hrun.
  apply bind_Done_inv in Hrun as ([] & w1 & H1 & H2).
  etrans; eauto.
Qed.

Lemma preserves_when R b (c : M Netlist unit) :
  Reflexive R -> preserves R c -> preserves R (when b c).
Proof. intros HR Hc. destruct b; [done|]. by apply preserves_ret. Qed.

Lemma call_tokens_preserves R fuel calls :
  Reflexive R -> Transitive R ->
  (forall args, preserves R (Pass_call fuel args)) ->
  (forall s, preserves R (calls s)) ->
  forall toks args, preserves R (call_tokens fuel calls toks args).
Proof.
  intros HR HT Hv Hs. induction toks as [|str toks IH]; intros args; simpl.
  - apply Hv.
  - destruct (String.eqb str "#"); [apply Hv|].
    destruct (ends_with_semikolon str); [|apply IH].
    destruct (strip_semikolon str (String.length str) 0) as [strsz n].
    repeat (apply preserves_bind; [done| |]); try apply preserves_when;
      auto.
Qed.

Lemma Pass_call_string_preserves R fuel :
  Reflexive R -> Transitive R ->
  (forall e w, R w (add_event e w)) ->
  (forall args, preserves R (Pass_call fuel args)) ->
  forall depth command, preserves R (Pass_call_string fuel depth command).
Proof.
  intros HR HT He Hv. induction depth as [|depth IH]; intros command; [done|].
  cbn [Pass_call_string]. unfold Pass_call_string_body.
  destruct (advance _ _) as [|c s1]; [by apply preserves_ret|].
  destruct (Ascii.eqb c "#"); [by apply preserves_ret|].
  destruct (Ascii.eqb c "!").
  - intros w w' Hrun. mred_in Hrun.
    destruct (negb _); [done|]. inversion Hrun; subst w'.
    etrans; apply He.
  - by apply call_tokens_preserves.
Qed.

Lemma Pass_call_depth_le fuel args :
  preserves (fun w w' => stack_depth w' <= stack_depth w) (Pass_call fuel args).
Proof.
  intros w w' Hrun. destruct args as [|a0 rest]; [by inversion Hrun|].
  destruct (decide (at_ a0 0 = Some "#"%char)) as [Hc|Hc].
  - rewrite Pass_call_noop in Hrun by done. by inversion Hrun.
  - destruct (Pass_call_Done_inv _ _ _ _ _ Hc Hrun)
      as (p & o & w2 & _ & _ & _ & _ & ->).
    rewrite stack_depth_unwound. lia.
Qed.


Lemma Pass_call_string_depth_le fuel depth command :
  preserves (fun w w' => stack_depth w' <= stack_depth w)
    (Pass_call_string fuel depth command).
Proof.
  apply Pass_call_string_preserves.
  - by intros w.
  - intros w1 w2 w3 H12 H23. lia.
  - done.
  - apply Pass_call_depth_le.
Qed.


Lemma enter_module_spec fuel depth m command w :
  Pass_call_on_module_string fuel depth m command w =
    (Pass_call_string fuel depth command;;
     pop_selection;;
     set_active_module (active_module w)) (entered m w).
Proof.
  unfold Pass_call_on_module_string, set_active_module, push_selection,
    select_in_back. mred. simpl.
  destruct (selection_stack (design w) ++ [Selection_ctor false]) eqn:E.
  { by destruct (selection_stack (design w)). }
  rewrite <- E.
  cbn [selection_stack design set_design set_selection_stack
       set_selected_active_module selected_active_module netlist].
  rewrite removelast_last, last_last. reflexivity.
Qed.

Lemma pop_selection_Done w w' :
  pop_selection w = Done tt w' -> S (stack_depth w') = stack_depth w.
Proof.
  unfold pop_selection. mred.
  destruct (selection_stack (design w)) as [|s st] eqn:Est; [done|].
  intros [= <-]. unfold stack_depth. simpl. rewrite Est.
  destruct (exists_last (l := s :: st)) as (l & x & ->); [done|].
  rewrite removelast_last, length_app. simpl. lia.
Qed.

Lemma accounts_ret : accounts (Netlist := Netlist) (mret tt) (fun _ => []).
Proof. intros w w' [= <-]. split; [done|]. split; [by constructor|done]. Qed.

Lemma accounts_bind (c1 c2 : M Netlist unit) t1 t2 :
  accounts c1 t1 -> accounts c2 t2 ->
  accounts (c1;; c2) (fun w => t1 w ++ after c1 w t2).
Proof.
  intros H1 H2 w w' Hrun.
  apply bind_Done_inv in Hrun as ([] & w1 & Hrun1 & Hrun2).
  destruct (H1 _ _ Hrun1) as [Hle1 Heq1]. destruct (H2 _ _ Hrun2) as [Hle2 Heq2].
  split; [lia|]. unfold after. rewrite Hrun1, Forall_app.
  rewrite <- Heq1, <- Heq2. lia.
Qed.

Lemma accounts_when b (c : M Netlist unit) t :
  accounts c t -> accounts (when b c) (fun w => if b then t w else []).
Proof. intros Hc. destruct b; [done|]. apply accounts_ret. Qed.

Lemma Pass_call_accounts fuel args :
  accounts (Pass_call fuel args) (Pass_call_executes fuel args).
Proof.
  intros w w' Hrun. unfold Pass_call_executes.
  destruct args as [|a0 rest].
  { injection Hrun as <-. split; [done|]. split; [by constructor|done]. }
  destruct (decide (at_ a0 0 = Some "#"%char)) as [Hc|Hc].
  { rewrite Pass_call_noop in Hrun by done. injection Hrun as <-.
    rewrite bool_decide_true by done.
    split; [done|]. split; [by constructor|done]. }
  rewrite bool_decide_false by done.
  destruct (Pass_call_Done_inv _ _ _ _ _ Hc Hrun)
    as (p & o & w2 & Hp & Ho & Hex & _ & ->).
  destruct (echoed_fields (a0 :: rest) w) as (Eo & Epr & _).
  cbv zeta. rewrite Epr, Hp, Eo, Ho, Hex.
  rewrite stack_depth_unwound. split; [lia|].
  rewrite Forall_singleton. unfold keeps_frames. cbn [fst snd].
  rewrite stack_depth_bumped_echoed. lia.
Qed.

Lemma call_tokens_accounts fuel calls calls_executes :
  (forall s, accounts (calls s) (calls_executes s)) ->
  forall toks args,
    accounts (call_tokens fuel calls toks args)
      (call_tokens_executes fuel calls calls_executes toks args).
Proof.
  intros Hs. induction toks as [|str toks IH]; intros args;
    cbn [call_tokens call_tokens_executes].
  - apply Pass_call_accounts.
  - cbv zeta. destruct (String.eqb str "#"); [apply Pass_call_accounts|].
    destruct (ends_with_semikolon str); [|apply IH].
    destruct (strip_semikolon str (String.length str) 0) as [strsz n].
    apply accounts_bind; [apply Pass_call_accounts|].
    apply accounts_bind; [apply accounts_when, Hs|].
    apply accounts_bind; [apply accounts_when, Hs|].
    apply IH.
Qed.

Lemma Pass_call_string_accounts fuel : forall depth command,
  accounts (Pass_call_string fuel depth command)
    (Pass_call_string_executes fuel depth command).
Proof.
  induction depth as [|depth IH]; intros command; [done|].
  cbn [Pass_call_string Pass_call_string_executes].
  unfold Pass_call_string_body, Pass_call_string_body_executes. cbv zeta.
  destruct (advance _ _) as [|c s1]; [apply accounts_ret|].
  destruct (Ascii.eqb c "#"); [apply accounts_ret|].
  destruct (Ascii.eqb c "!").
  - intros w w' Hrun. mred_in Hrun.
    destruct (negb _); [done|]. injection Hrun as <-.
    split; [done|]. split; [by constructor|done].
  - by apply call_tokens_accounts.
Qed.

(** C5 (amended).  [call_on_module] runs the string-form call, the pop and
    the restoration of the active module from the world [entered m w], in
    which the active module is the name of [m] and a selection of exactly
    [m] is on top of the stack as it was.  When the inner call returns and
    left a frame to pop, [call_on_module] returns.  When [call_on_module]
    returns, the active module is as before the call; the inner call
    cannot have left the stack deeper than it found it, and the wrapper
    takes one frame off what it left: the depth after the call never
    exceeds the depth before it, and equals it exactly when none of the
    commands the inner call dispatched took more frames off the stack than
    it put on. *)
Theorem C5_call_on_module fuel depth (m : Module_) (command : string) w :
  active_module (entered m w) = module_name m /\
  (selection_stack (design (entered m w)) =
     selection_stack (design w) ++ [mkSelection false {[ module_name m ]}]) /\
  Pass_call_on_module_string fuel depth m command w =
    (Pass_call_string fuel depth command;;
     pop_selection;;
     set_active_module (active_module w)) (entered m w) /\
  (forall w_out,
     Pass_call_string fuel depth command (entered m w) = Done tt w_out ->
     selection_stack (design w_out) <> [] ->
     exists w',
       Pass_call_on_module_string fuel depth m command w = Done tt w' /\
       active_module w' = active_module w /\
       S (stack_depth w') = stack_depth w_out) /\
  (forall w',
     Pass_call_on_module_string fuel depth m command w = Done tt w' ->
     active_module w' = active_module w /\
     exists w_out,
       Pass_call_string fuel depth command (entered m w) = Done tt w_out /\
       stack_depth w_out <= S (stack_depth w) /\
       S (stack_depth w') = stack_depth w_out /\
       stack_depth w' <= stack_depth w /\
       (stack_depth w' = stack_depth w <->
        Forall keeps_frames
          (Pass_call_string_executes fuel depth command (entered m w)))).
Proof.
  assert (stack_depth (entered m w) = S (stack_depth w)) as Hd.
  { unfold stack_depth. simpl. rewrite length_app. simpl. lia. }
  split_and!.
  - done.
  - simpl. unfold Selection_select, Selection_ctor. simpl.
    by rewrite union_empty_r_L.
  - apply enter_module_spec.
  - intros w_out Hin Hne. rewrite enter_module_spec.
    rewrite (bind_Done _ _ _ _ _ Hin).
    destruct (pop_selection w_out) as [[] w_pop| | | |] eqn:Hpop.
    + rewrite (bind_Done _ _ _ _ _ Hpop).
      apply pop_selection_Done in Hpop.
      eexists. split; [done|]. split; [done|]. exact Hpop.
    + unfold pop_selection in Hpop. mred_in Hpop.
      by destruct (selection_stack (design w_out)).
    + unfold pop_selection in Hpop. mred_in Hpop.
      by destruct (selection_stack (design w_out)).
    + unfold pop_selection in Hpop. mred_in Hpop.
      by destruct (selection_stack (design w_out)).
    + unfold pop_selection in Hpop. mred_in Hpop.
      by destruct (selection_stack (design w_out)).
  - intros w' Hrun. rewrite enter_module_spec in Hrun.
    apply bind_Done_inv in Hrun as ([] & w_out & Hin & Hrun).
    apply bind_Done_inv in Hrun as ([] & w_pop & Hpop & Hrun).
    apply pop_selection_Done in Hpop.
    unfold set_active_module in Hrun. mred_in Hrun.
    inversion Hrun; subst w'. clear Hrun.
    pose proof (Pass_call_string_depth_le _ _ _ _ _ Hin) as Hle. simpl in Hle.
    split; [done|]. exists w_out.
    split_and!; try done.
    + lia.
    + unfold stack_depth in *. simpl in *. lia.
    + destruct (Pass_call_string_accounts _ _ _ _ _ Hin) as [_ Heq].
      rewrite <- Heq. unfold stack_depth in *. simpl in *. lia.
Qed.

End Wrappers.

(** ** The tokenizer *)

Section Tokenizer.
Context {Netlist : Type} {host : Host Netlist} {cmds : Commands Netlist}.
Implicit Types (w : World Netlist).

Lemma call_tokens_plain fuel calls toks : forall args rest,
  Forall plain toks ->
  call_tokens fuel calls (toks ++ rest) args =
  call_tokens fuel calls rest (args ++ toks).
Proof.
  induction toks as [|t toks IH]; intros args rest Hp.
  - by rewrite app_nil_r.
  - apply Forall_cons in Hp as [[Hh Hs] Hp]. simpl.
    rewrite Hh, Hs. rewrite IH by done. by rewrite <- app_assoc.
Qed.

Lemma call_tokens_flush fuel calls r n rest args :
  ends_with_semikolon r = false ->
  call_tokens fuel calls ((r +:+ semicolons (S n)) :: rest) args =
    (Pass_call fuel (if (0 <? String.length r)%nat then args ++ [r] else args);;
     when (S n =? 2)%nat (calls "clean");;
     when (S n =? 3)%nat (calls "clean -purge");;
     call_tokens fuel calls rest []).
Proof.
  intros Hr. cbn [call_tokens].
  rewrite not_hash_append, ends_with_semikolon_append.
  rewrite strip_semikolon_spec by done.
  unfold substr. by rewrite substring_append_l.
Qed.

Lemma Pass_call_string_clean fuel depth w :
  Pass_call_string fuel (S depth) "clean" w = Pass_call fuel ["clean"] w.
Proof. reflexivity. Qed.

Lemma Pass_call_string_clean_purge fuel depth w :
  Pass_call_string fuel (S depth) "clean -purge" w =
  Pass_call fuel ["clean"; "-purge"] w.
Proof. reflexivity. Qed.

(** A token with trailing semicolons, after plain tokens: the flush, the
    implicit command for two or three semicolons, and the rest of the
    line. *)
Lemma call_tokens_segment fuel depth toks r n rest args w :
  Forall plain toks -> ends_with_semikolon r = false ->
  call_tokens fuel (Pass_call_string fuel (S depth))
    (toks ++ (r +:+ semicolons (S n)) :: rest) args w =
    (Pass_call fuel
       (if (0 <? String.length r)%nat then args ++ toks ++ [r] else args ++ toks);;
     when (S n =? 2)%nat (Pass_call fuel ["clean"]);;
     when (S n =? 3)%nat (Pass_call fuel ["clean"; "-purge"]);;
     call_tokens fuel (Pass_call_string fuel (S depth)) rest []) w.
Proof.
  intros Hp Hr. rewrite call_tokens_plain by done.
  rewrite call_tokens_flush by done.
  rewrite <- app_assoc. reflexivity.
Qed.

(** C1.  The string-form call on ["foo bar;; baz"] is the dispatch of
    [["foo"; "bar"]], then of [["clean"]], then of [["baz"]], and on
    ["foo;;;"] the dispatch of [["foo"]], then of [["clean"; "-purge"]],
    each run only if the one before returned.  In general a line that is
    neither empty, a comment nor a shell passthrough is handled token by
    token; plain tokens followed by a token with a non-empty remainder [r]
    and [n >= 1] trailing semicolons dispatch the pending arguments, the
    plain tokens and [r] as one command, then ["clean"] when [n] is exactly
    2 and ["clean -purge"] when it is exactly 3, and go on with the rest of
    the line from an empty argument vector; plain tokens left at the end of
    the line are dispatched with the pending arguments. *)
Theorem C1_tokenizer_dispatch_order (fuel depth : nat) :
  (forall w,
     Pass_call_string fuel (S (S depth)) "foo bar;; baz" w =
     (Pass_call fuel ["foo"; "bar"];;
      Pass_call fuel ["clean"];;
      Pass_call fuel ["baz"]) w) /\
  (forall w,
     Pass_call_string fuel (S (S depth)) "foo;;;" w =
     (Pass_call fuel ["foo"];; Pass_call fuel ["clean"; "-purge"]) w) /\
  (forall command c s1 w,
     advance (strspn (c_str command) blanks) (c_str command) = String c s1 ->
     c <> "#"%char -> c <> "!"%char ->
     Pass_call_string fuel (S (S depth)) command w =
     call_tokens fuel (Pass_call_string fuel (S depth))
       (tokens (String c s1) blanks) [] w) /\
  (forall toks r n rest args w,
     Forall plain toks -> r <> "" -> ends_with_semikolon r = false ->
     call_tokens fuel (Pass_call_string fuel (S depth))
       (toks ++ (r +:+ semicolons (S n)) :: rest) args w =
     (Pass_call fuel (args ++ toks ++ [r]);;
      when (S n =? 2)%nat (Pass_call fuel ["clean"]);;
      when (S n =? 3)%nat (Pass_call fuel ["clean"; "-purge"]);;
      call_tokens fuel (Pass_call_string fuel (S depth)) rest []) w) /\
  (forall toks args w,
     Forall plain toks ->
     call_tokens fuel (Pass_call_string fuel (S depth)) toks args w =
     Pass_call fuel (args ++ toks) w).
Proof.
  split_and!.
  - reflexivity.
  - intros w.
    transitivity ((Pass_call fuel ["foo"];;
                   Pass_call fuel ["clean"; "-purge"];; mret tt) w);
      [reflexivity|].
    rewrite !bind_unfold. destruct (Pass_call fuel ["foo"] w); try done.
    apply bind_ret_r.
  - intros command c s1 w Hs Hc1 Hc2. cbn [Pass_call_string].
    unfold Pass_call_string_body. rewrite Hs.
    apply Ascii.eqb_neq in Hc1, Hc2. by rewrite Hc1, Hc2.
  - intros toks r n rest args w Hp Hne Hr.
    rewrite call_tokens_segment by done.
    destruct r; [done|]. reflexivity.
  - intros toks args w Hp.
    rewrite <- (app_nil_r toks) at 1. by rewrite call_tokens_plain.
Qed.

(** C2 (amended).  A token of [n >= 1] semicolons only, after plain tokens,
    dispatches the pending arguments and the plain tokens as one command
    and then, like any token with trailing semicolons, ["clean"] when [n] is
    exactly 2 and ["clean -purge"] when it is exactly 3, and nothing more
    for any other [n]; the rest of the line starts from an empty argument
    vector.  So ["foo ;;"] dispatches [["foo"]] and then [["clean"]], and
    ["foo ;"] only [["foo"]]. *)
Theorem C2_semicolon_only_token (fuel depth : nat) :
  (forall toks n rest args w,
     Forall plain toks ->
     call_tokens fuel (Pass_call_string fuel (S depth))
       (toks ++ semicolons (S n) :: rest) args w =
     (Pass_call fuel (args ++ toks);;
      when (S n =? 2)%nat (Pass_call fuel ["clean"]);;
      when (S n =? 3)%nat (Pass_call fuel ["clean"; "-purge"]);;
      call_tokens fuel (Pass_call_string fuel (S depth)) rest []) w) /\
  (forall w,
     Pass_call_string fuel (S (S depth)) "foo ;;" w =
     (Pass_call fuel ["foo"];; Pass_call fuel ["clean"]) w) /\
  (forall w,
     Pass_call_string fuel (S (S depth)) "foo ;;;" w =
     (Pass_call fuel ["foo"];; Pass_call fuel ["clean"; "-purge"]) w) /\
  (forall w,
     Pass_call_string fuel (S (S depth)) "foo ;" w = Pass_call fuel ["foo"] w).
Proof.
  split_and!.
  - intros toks n rest args w Hp.
    exact (call_tokens_segment fuel depth toks "" n rest args w Hp eq_refl).
  - intros w.
    transitivity ((Pass_call fuel ["foo"];;
                   Pass_call fuel ["clean"];; mret tt) w); [reflexivity|].
    rewrite !bind_unfold. destruct (Pass_call fuel ["foo"] w); try done.
    apply bind_ret_r.
  - intros w.
    transitivity ((Pass_call fuel ["foo"];;
                   Pass_call fuel ["clean"; "-purge"];; mret tt) w);
      [reflexivity|].
    rewrite !bind_unfold. destruct (Pass_call fuel ["foo"] w); try done.
    apply bind_ret_r.
  - intros w.
    transitivity ((Pass_call fuel ["foo"];; mret tt) w); [reflexivity|].
    apply bind_ret_r.
Qed.

End Tokenizer.

(** ** The here-document *)

Section HereDoc.
Context {Netlist : Type} {host : Host Netlist}.
Implicit Types (w : World Netlist).

Lemma line_shape_cons c s :
  line_shape (String c s) = true ->
  (s = "" /\ c = LF) \/
  (s <> "" /\ c <> LF /\ c <> NUL /\ line_shape s = true).
Proof.
  simpl. destruct s as [|c' s'].
  - intros H%Ascii.eqb_eq. by left.
  - intros H. apply andb_prop in H as [H H3]. apply andb_prop in H as [H1 H2].
    right. split_and!; try done.
    + intros ->. by rewrite Ascii.eqb_refl in H1.
    + intros ->. by rewrite Ascii.eqb_refl in H2.
Qed.

Lemma fgets_block_line l : forall k rest,
  line_shape l = true -> String.length l <= k ->
  fgets_block k (l +:+ rest) = (l, rest).
Proof.
  induction l as [|c l IH]; intros k rest Hl Hk; [done|].
  destruct k as [|k]; [simpl in Hk; lia|].
  rewrite append_cons. cbn [fgets_block].
  apply line_shape_cons in Hl as [[-> ->]|(Hne & Hc1 & Hc2 & Hl)].
  - by rewrite Ascii.eqb_refl.
  - apply Ascii.eqb_neq in Hc1. rewrite Hc1.
    rewrite IH; [done|done|]. simpl in Hk. lia.
Qed.

Lemma c_str_line l : line_shape l = true -> c_str l = l.
Proof.
  induction l as [|c l IH]; intros Hl; [done|].
  apply line_shape_cons in Hl as [[-> ->]|(Hne & Hc1 & Hc2 & Hl)]; [done|].
  simpl. apply Ascii.eqb_neq in Hc2. rewrite Hc2. by rewrite IH.
Qed.

Lemma line_shape_last l :
  line_shape l = true ->
  String.get (String.length l - 1) l = Some LF /\ 0 < String.length l.
Proof.
  induction l as [|c l IH]; intros Hl; [done|].
  apply line_shape_cons in Hl as [[-> ->]|(Hne & Hc1 & Hc2 & Hl)]; [simpl; split; [done|lia]|].
  destruct (IH Hl) as [Hget Hlen]. split; [|simpl; lia].
  simpl. rewrite Nat.sub_0_r. destruct (String.length l) as [|n] eqn:E; [lia|].
  simpl in Hget. rewrite Nat.sub_0_r in Hget. done.
Qed.

Lemma ends_line_line l : line_shape l = true -> ends_line l = true.
Proof.
  intros Hl. destruct (line_shape_last l Hl) as [Hget Hlen].
  unfold ends_line. rewrite Hget. rewrite Ascii.eqb_refl.
  by apply Nat.ltb_lt in Hlen as ->.
Qed.

Lemma heredoc_read_buffer_line fuel filename l rest w :
  is_text_line l = true ->
  current_script_file w = Some (l +:+ rest) ->
  heredoc_read_buffer (S fuel) filename "" w =
    Done l (set_current_script_file (Some rest) w).
Proof.
  intros Hl Hs. apply andb_prop in Hl as [Hshape Hlen].
  apply Nat.leb_le in Hlen.
  cbn [heredoc_read_buffer]. mred. rewrite Hs.
  unfold fgets.
  destruct (l +:+ rest) as [|c0 s0] eqn:E.
  { destruct l; [done|]. by rewrite append_cons in E. }
  rewrite <- E. rewrite fgets_block_line by done.
  rewrite c_str_line by done.
  change ("" +:+ l) with l.
  by rewrite ends_line_line.
Qed.



Lemma line_shape_nonempty l : line_shape l = true -> 0 < String.length l.
Proof. destruct l; [done|]. simpl. lia. Qed.

Lemma length_concat_lines lines s :
  Forall (fun l => line_shape l = true) lines ->
  length lines <= String.length (concat_lines lines +:+ s).
Proof.
  induction lines as [|l lines IH]; intros Hl; simpl; [lia|].
  apply Forall_cons in Hl as [Hl Hlines].
  rewrite append_assoc, length_append.
  pose proof (line_shape_nonempty l Hl). specialize (IH Hlines). lia.
Qed.


Lemma no_option_follows_nil this args i w :
  no_option_follows this args [] i w = Done tt w.
Proof. reflexivity. Qed.


(** [fgets] never gives characters back. *)
Lemma fgets_block_rest_le k : forall f,
  String.length (snd (fgets_block k f)) <= String.length f.
Proof.
  induction k as [|k IH]; intros f; [done|].
  destruct f as [|c f]; [done|]. cbn [fgets_block].
  destruct (Ascii.eqb c LF); [simpl; lia|].
  specialize (IH f). destruct (fgets_block k f) as [b r].
  cbn [snd String.length] in *. lia.
Qed.

(** On a script that has a character left, [fgets] reads at least one. *)
Lemma fgets_block_shorter k c f :
  String.length (snd (fgets_block (S k) (String c f))) < String.length (String c f).
Proof.
  cbn [fgets_block]. destruct (Ascii.eqb c LF); [simpl; lia|].
  pose proof (fgets_block_rest_le k f) as Hle.
  destruct (fgets_block k f) as [b r]. cbn [snd String.length] in *. lia.
Qed.

(** The capture loops never reach their bound: each round reads at least
    one character of the script. *)
Lemma heredoc_read_buffer_total filename fuel : forall buffer w f,
  current_script_file w = Some f -> String.length f < fuel ->
  heredoc_read_buffer fuel filename buffer w <> OutOfFuel /\
  forall b w', heredoc_read_buffer fuel filename buffer w = Done b w' ->
    exists f', current_script_file w' = Some f' /\
               String.length f' < String.length f.
Proof.
  induction fuel as [|fuel IH]; intros buffer w f Hs Hf; [lia|].
  cbn [heredoc_read_buffer]. mred. rewrite Hs.
  destruct f as [|c f]; [done|].
  unfold fgets. change (block_size - 1) with (S (block_size - 2)).
  pose proof (fgets_block_shorter (block_size - 2) c f) as Hlt.
  destruct (fgets_block (S (block_size - 2)) (String c f)) as [block rest].
  simpl in Hlt.
  destruct (ends_line (buffer +:+ c_str block)).
  - split; [done|]. intros b w' [= <- <-]. exists rest. split; [done|]. simpl. lia.
  - destruct (IH (buffer +:+ c_str block)
                (set_current_script_file (Some rest) w) rest eq_refl) as [Hne Hd].
    { simpl in Hf. lia. }
    split; [done|]. intros b w' Hrun.
    destruct (Hd b w' Hrun) as (f' & Hf' & Hlen). exists f'. split; [done|].
    simpl. lia.
Qed.

Lemma heredoc_read_total filename marker fuel : forall w f,
  current_script_file w = Some f -> String.length f < fuel ->
  heredoc_read fuel filename marker w <> OutOfFuel.
Proof.
  induction fuel as [|fuel IH]; intros w f Hs Hf; [lia|].
  cbn [heredoc_read]. rewrite bind_unfold.
  destruct (heredoc_read_buffer_total filename (S fuel) "" w f Hs Hf) as [Hne Hd].
  destruct (heredoc_read_buffer (S fuel) filename "" w) as [b w'| | | |] eqn:E;
    try done.
  destruct (Hd b w' eq_refl) as (f' & Hs' & Hlen).
  destruct (find_first_not_of b blanks); [|done].
  destruct (String.eqb _ _); [done|]. mred.
  apply (IH _ f'); [done|lia].
Qed.

(** [here_document] gives its loop one round for each character the script
    has left, and one more: the bound is never what ends the capture. *)
Lemma here_document_total filename w : here_document filename w <> OutOfFuel.
Proof.
  unfold here_document.
  apply bind_total; [done|]. intros sf w1 [= <- <-].
  apply bind_total; [by destruct (bool_decide _)|]. intros [] w1 H1.
  assert (w1 = w /\ exists f, current_script_file w = Some f) as [-> [f Hs]].
  { destruct (current_script_file w) as [f|]; [|done].
    rewrite bool_decide_false in H1 by done. injection H1 as <-. eauto. }
  clear H1.
  apply bind_total; [by destruct (_ <=? _)%nat|]. intros [] w1 H1.
  assert (w1 = w) as ->.
  { destruct (_ <=? _)%nat; [done|]. by injection H1. }
  clear H1.
  apply bind_total; [done|]. intros [] w1 [= <-].
  apply bind_total.
  - apply (heredoc_read_total _ _ _ _ f); [done|]. rewrite Hs. simpl. lia.
  - intros [] w2 _. apply bind_total; [done|]. by intros doc w3 _.
Qed.


End HereDoc.

(** ** The backend driver *)

Section Backend.
Context {Netlist : Type} {host : Host Netlist} {cmds : Commands Netlist}.
Implicit Types (w : World Netlist).

Lemma Backend_extra_args_absent this fname pre w :
  pre <> [] ->
  Backend_extra_args this None fname pre (length pre) w =
    Done (Some stdout_, "<stdout>") w.
Proof.
  intros Hpre. unfold Backend_extra_args.
  rewrite drop_ge by lia. cbn [Backend_extra_args_loop]. mred.
  rewrite bool_decide_false by (intros H; by apply H).
  by destruct pre.
Qed.

Lemma Backend_extra_args_dash this fname pre w :
  Backend_extra_args this None fname (pre ++ ["-"]) (length pre) w =
    Done (Some stdout_, "<stdout>") w.
Proof.
  unfold Backend_extra_args.
  rewrite drop_app_length. cbn [Backend_extra_args_loop].
  change (substr "-" 0 1) with "-". change (String.eqb "-" "-") with true.
  cbn [andb negb]. mred.
  rewrite !bool_decide_false by (intros H; by apply H).
  by destruct pre.
Qed.

Lemma not_dash path :
  String.eqb (substr path 0 1) "-" = false -> String.eqb path "-" = false.
Proof.
  intros H. destruct (String.eqb path "-") eqn:E; [|done].
  apply String.eqb_eq in E as ->. done.
Qed.

Lemma Backend_extra_args_path this fname pre path h w :
  String.eqb (substr path 0 1) "-" = false ->
  os_fopen (c_str path) "w" = Some h ->
  Backend_extra_args this None fname (pre ++ [path]) (length pre) w =
    Done (Some (file_handle h), path) w.
Proof.
  intros Hpath Hopen. unfold Backend_extra_args.
  rewrite drop_app_length. cbn [Backend_extra_args_loop].
  rewrite Hpath, (not_dash _ Hpath), Hopen. cbn [andb negb]. mred.
  rewrite !bool_decide_false by (intros H; by apply H). simpl.
  by destruct pre.
Qed.

(** [cmd_error] does not return: what follows it is not run. *)
Lemma Pass_cmd_error_bind {A B} this args argidx msg (k : A -> M Netlist B) w :
  (Pass_cmd_error this args argidx msg ≫= k) w =
    Pass_cmd_error this args argidx msg w.
Proof.
  unfold Pass_cmd_error. mred.
  by destruct (pass_help this _).
Qed.

Lemma Backend_extra_args_second this fname pre path h extra w :
  String.eqb (substr path 0 1) "-" = false ->
  os_fopen (c_str path) "w" = Some h ->
  Backend_extra_args this None fname (pre ++ [path; extra]) (length pre) w =
    Pass_cmd_error this (pre ++ [path; extra]) (S (length pre))
      (if String.eqb (substr extra 0 1) "-" && negb (String.eqb extra "-")
       then "Unkown option or option in arguments."
       else "Extra filename argument in direct file mode.") w.
Proof.
  intros Hpath Hopen. unfold Backend_extra_args.
  rewrite drop_app_length. cbn [Backend_extra_args_loop].
  rewrite Hpath, (not_dash _ Hpath), Hopen. cbn [andb negb].
  rewrite (bool_decide_false (None ≠ None)) by (intros H; by apply H).
  change (file_handle <$> Some h) with (Some (file_handle h)).
  rewrite (bool_decide_false (Some (file_handle h) = None)) by done.
  rewrite (bool_decide_true (Some (file_handle h) ≠ None)) by done.
  destruct (String.eqb (substr extra 0 1) "-" && negb (String.eqb extra "-"));
    unfold Pass_cmd_error; mred; by destruct (pass_help this _).
Qed.

(** C10 (amended).  [Backend::execute], once the format handler has returned
    the stream [f], closes [f] exactly when it is not standard output.  The
    destination [extra_args] resolves is standard output, recorded as
    ["<stdout>"], when no destination token is left or the token is ["-"],
    and the file opened for writing, which is not standard output, when the
    token is a path that opens.  When the format handler raises a command
    error, [Backend::execute] ends with that error in the world of the
    error: it closes nothing.  This is what happens when a second token
    follows a path that opened: [extra_args] ends in [cmd_error], which
    does not return, with the file open. *)
Theorem C10_backend_closes_unless_stdout (this : ptr) :
  (forall args w wb f w1,
     bump_call_counter this w = Done tt wb ->
     backend_execute this None "" args wb = Done (Some f) w1 ->
     Backend_execute this args w =
       Done tt (if bool_decide (f = stdout_) then w1
                else add_event (EvFclose f) w1)) /\
  (forall fname pre w,
     pre <> [] ->
     Backend_extra_args this None fname pre (length pre) w =
       Done (Some stdout_, "<stdout>") w) /\
  (forall fname pre w,
     Backend_extra_args this None fname (pre ++ ["-"]) (length pre) w =
       Done (Some stdout_, "<stdout>") w) /\
  (forall fname pre path h w,
     String.eqb (substr path 0 1) "-" = false ->
     os_fopen (c_str path) "w" = Some h ->
     Backend_extra_args this None fname (pre ++ [path]) (length pre) w =
       Done (Some (file_handle h), path) w /\
     bool_decide (file_handle h = stdout_) = false) /\
  (forall args w wb msg w1,
     bump_call_counter this w = Done tt wb ->
     backend_execute this None "" args wb = CmdError msg w1 ->
     Backend_execute this args w = CmdError msg w1) /\
  (forall fname pre path h extra w,
     String.eqb (substr path 0 1) "-" = false ->
     os_fopen (c_str path) "w" = Some h ->
     Backend_extra_args this None fname (pre ++ [path; extra]) (length pre) w =
       Pass_cmd_error this (pre ++ [path; extra]) (S (length pre))
         (if String.eqb (substr extra 0 1) "-" && negb (String.eqb extra "-")
          then "Unkown option or option in arguments."
          else "Extra filename argument in direct file mode.") w /\
     forall r w',
       Backend_extra_args this None fname (pre ++ [path; extra]) (length pre) w
         <> Done r w').
Proof.
  split_and!.
  - intros args w wb f w1 Hb Hex. unfold Backend_execute.
    rewrite (bind_Done _ _ _ _ _ Hb), (bind_Done _ _ _ _ _ Hex).
    destruct (decide (f = stdout_)) as [->|Hne].
    + by rewrite bool_decide_false by (intros H; by apply H).
    + rewrite bool_decide_true by congruence.
      by rewrite (bool_decide_false (f = stdout_)).
  - apply Backend_extra_args_absent.
  - apply Backend_extra_args_dash.
  - intros fname pre path h w Hpath Hopen. split; [|done].
    by apply Backend_extra_args_path.
  - intros args w wb msg w1 Hb Hex. unfold Backend_execute.
    rewrite (bind_Done _ _ _ _ _ Hb). by rewrite bind_unfold, Hex.
  - intros fname pre path h extra w Hpath Hopen.
    rewrite (Backend_extra_args_second _ _ _ _ _ _ _ Hpath Hopen).
    split; [done|]. intros r w'.
    unfold Pass_cmd_error. mred. by destruct (pass_help this _).
Qed.

End Backend.

(** ** What the source resolution leaves alone *)

Section Frames.
Context {Netlist : Type} {host : Host Netlist}.
Implicit Types (w : World Netlist).

Lemma keeps_ret {A B} (f : World Netlist -> B) (a : A) : keeps f (mret a).
Proof. by intros w a' w' [= _ <-]. Qed.

Lemma keeps_bind {A A' B} (f : World Netlist -> B) (c : M Netlist A)
    (k : A -> M Netlist A') :
  keeps f c -> (forall a, keeps f (k a)) -> keeps f (c ≫= k).
Proof.
  intros Hc Hk w a' w' Hrun.
  apply bind_Done_inv in Hrun as (a & w1 & H1 & H2).
  rewrite (Hk _ _ _ _ H2). by apply (Hc _ _ _ H1).
Qed.

Lemma keeps_gets {A B} (f : World Netlist -> B) (g : World Netlist -> A) :
  keeps f (gets g).
Proof. by intros w a w' [= _ <-]. Qed.

Lemma keeps_modify {B} (f : World Netlist -> B) (g : World Netlist -> World Netlist) :
  (forall w, f (g w) = f w) -> keeps f (modify g).
Proof. intros Hg w a w' Hrun. inversion Hrun. apply Hg. Qed.

Lemma keeps_when {B} (f : World Netlist -> B) b (c : M Netlist unit) :
  keeps f c -> keeps f (when b c).
Proof. intros Hc. destruct b; [done|]. apply keeps_ret. Qed.

Lemma keeps_log_error {A B} (f : World Netlist -> B) msg :
  keeps f (log_error (A := A) msg).
Proof. by intros w a w'. Qed.

Lemma keeps_log_cmd_error {A B} (f : World Netlist -> B) msg :
  keeps f (log_cmd_error (A := A) msg).
Proof. by intros w a w'. Qed.

Lemma keeps_Pass_cmd_error {A B} (f : World Netlist -> B) this args argidx msg :
  keeps f (Pass_cmd_error (A := A) this args argidx msg).
Proof.
  intros w a w' Hrun. unfold Pass_cmd_error in Hrun.
  apply bind_Done_inv in Hrun as (? & ? & _ & Hrun).
  apply bind_Done_inv in Hrun as (? & ? & _ & Hrun). done.
Qed.

Lemma keeps_heredoc_read_buffer filename fuel : forall buffer,
  keeps (Netlist := Netlist) objects (heredoc_read_buffer fuel filename buffer).
Proof.
  induction fuel as [|fuel IH]; intros buffer; [by intros w a w'|].
  cbn [heredoc_read_buffer].
  apply keeps_bind; [apply keeps_gets|]. intros [f|]; [|by intros w a w'].
  destruct (fgets block_size f) as [[block rest]|]; [|apply keeps_log_error].
  apply keeps_bind; [by apply keeps_modify|]. intros _.
  destruct (ends_line _); [apply keeps_ret|apply IH].
Qed.

Lemma keeps_heredoc_read filename marker fuel :
  keeps (Netlist := Netlist) objects (heredoc_read fuel filename marker).
Proof.
  induction fuel as [|fuel IH]; [by intros w a w'|].
  cbn [heredoc_read].
  apply keeps_bind; [apply keeps_heredoc_read_buffer|]. intros buffer.
  destruct (find_first_not_of buffer blanks); [|apply keeps_log_error].
  destruct (String.eqb _ _); [apply keeps_ret|].
  apply keeps_bind; [by apply keeps_modify|]. intros _. apply IH.
Qed.

Lemma keeps_here_document filename : keeps (Netlist := Netlist) objects (here_document filename).
Proof.
  unfold here_document.
  apply keeps_bind; [apply keeps_gets|]. intros sf.
  apply keeps_bind; [apply keeps_when, keeps_log_error|]. intros _.
  apply keeps_bind; [apply keeps_when, keeps_log_error|]. intros _.
  apply keeps_bind; [by apply keeps_modify|]. intros _.
  apply keeps_bind; [apply keeps_heredoc_read|]. intros _.
  apply keeps_bind; [apply keeps_gets|]. intros doc. apply keeps_ret.
Qed.

Lemma keeps_no_option_follows this args rest : forall i,
  keeps (Netlist := Netlist) objects (no_option_follows this args rest i).
Proof.
  induction rest as [|a rest IH]; intros i; [apply keeps_ret|].
  cbn [no_option_follows].
  apply keeps_bind; [apply keeps_when, keeps_Pass_cmd_error|]. intros _. apply IH.
Qed.

(** [Frontend::extra_args] does not touch the command objects. *)
Lemma keeps_Frontend_extra_args this f filename args argidx :
  keeps (Netlist := Netlist) objects (Frontend_extra_args this f filename args argidx).
Proof.
  unfold Frontend_extra_args.
  apply keeps_bind; [by apply keeps_modify|]. intros _.
  apply keeps_bind.
  - destruct (args !! argidx) as [arg|]; [|apply keeps_ret].
    apply keeps_bind; [apply keeps_when, keeps_Pass_cmd_error|]. intros _.
    apply keeps_bind; [apply keeps_when, keeps_Pass_cmd_error|]. intros _.
    destruct (String.eqb arg "<<" && _).
    + apply keeps_bind.
      { destruct (String.eqb _ _); [apply keeps_here_document|apply keeps_ret]. }
      intros f'. apply keeps_bind; [apply keeps_when, keeps_log_cmd_error|]. intros _.
      apply keeps_bind; [apply keeps_no_option_follows|]. intros _.
      destruct (_ <? _)%nat; [|apply keeps_ret].
      apply keeps_bind; [by apply keeps_modify|]. intros _.
      apply keeps_bind; [by apply keeps_modify|]. intros _. apply keeps_ret.
    + apply keeps_bind.
      { destruct (String.eqb _ _); [apply keeps_here_document|apply keeps_ret]. }
      intros f'. apply keeps_bind; [apply keeps_when, keeps_log_cmd_error|]. intros _.
      apply keeps_bind; [apply keeps_no_option_follows|]. intros _.
      destruct (_ <? _)%nat; [|apply keeps_ret].
      apply keeps_bind; [by apply keeps_modify|]. intros _.
      apply keeps_bind; [by apply keeps_modify|]. intros _. apply keeps_ret.
  - intros [[[f' filename'] args'] argidx'].
    apply keeps_bind; [apply keeps_when, keeps_Pass_cmd_error|]. intros _.
    destruct (if bool_decide (f ≠ None) then _ else _); [by intros w a w'|].
    apply keeps_ret.
Qed.

End Frames.

(** ** Words and lines *)

Section Words.

Lemma all_chars_append p s t :
  all_chars p (s +:+ t) = all_chars p s && all_chars p t.
Proof.
  induction s as [|c s IH]; [done|].
  rewrite append_cons. simpl. rewrite IH. by rewrite andb_assoc.
Qed.

Lemma all_chars_impl (p q : ascii -> bool) s :
  (forall c, p c = true -> q c = true) -> all_chars p s = true -> all_chars q s = true.
Proof.
  intros Hpq. induction s as [|c s IH]; [done|]. simpl.
  intros [Hc Hs]%andb_prop. by rewrite (Hpq c Hc), IH.
Qed.

Lemma c_str_no_nul s :
  all_chars (fun c => negb (Ascii.eqb c NUL)) s = true -> c_str s = s.
Proof.
  induction s as [|c s IH]; [done|]. simpl.
  intros [Hc Hs]%andb_prop. apply negb_true_iff in Hc. rewrite Hc.
  by rewrite IH.
Qed.

Lemma is_word_inv s :
  is_word s = true ->
  s <> "" /\
  all_chars (fun c => negb (mem_char c blanks)) s = true /\
  all_chars (fun c => negb (Ascii.eqb c NUL)) s = true.
Proof.
  unfold is_word. intros [Hne Hall]%andb_prop. split_and!.
  - intros ->. done.
  - eapply all_chars_impl; [|exact Hall]. by intros c [? _]%andb_prop.
  - eapply all_chars_impl; [|exact Hall]. by intros c [_ ?]%andb_prop.
Qed.

Lemma tokens_from_Some_word delim w : forall cur s,
  all_chars (fun c => negb (mem_char c delim)) w = true ->
  tokens_from (Some cur) (w +:+ s) delim = tokens_from (Some (cur +:+ w)) s delim.
Proof.
  induction w as [|c w IH]; intros cur s Hw.
  - by rewrite append_nil_r.
  - simpl in Hw. apply andb_prop in Hw as [Hc Hw]. apply negb_true_iff in Hc.
    rewrite append_cons. cbn [tokens_from]. rewrite Hc.
    rewrite IH by done. f_equal. f_equal.
    by rewrite append_assoc.
Qed.

Lemma tokens_from_None_word delim w s :
  w <> "" ->
  all_chars (fun c => negb (mem_char c delim)) w = true ->
  tokens_from None (w +:+ s) delim = tokens_from (Some w) s delim.
Proof.
  destruct w as [|c w]; [done|]. intros _ Hw.
  simpl in Hw. apply andb_prop in Hw as [Hc Hw]. apply negb_true_iff in Hc.
  rewrite append_cons. cbn [tokens_from]. rewrite Hc.
  by rewrite tokens_from_Some_word.
Qed.

(** The words are read back from the line that joins them. *)
Lemma tokens_unwords ws :
  Forall (fun x => is_word x = true) ws -> tokens (unwords ws) blanks = ws.
Proof.
  unfold tokens. induction ws as [|x ws IH]; [done|].
  intros Hall. apply Forall_cons in Hall as [Hx Hws].
  apply is_word_inv in Hx as (Hne & Hbl & _).
  destruct ws as [|y ws].
  - simpl. rewrite <- (append_nil_r x) at 1.
    by rewrite tokens_from_None_word.
  - change (unwords (x :: y :: ws)) with (x +:+ " " +:+ unwords (y :: ws)).
    rewrite tokens_from_None_word by done.
    rewrite append_cons. cbn [tokens_from]. 
    change (mem_char " " blanks) with true. cbv iota.
    f_equal. by apply IH.
Qed.

Lemma command_text_spaced ws : forall acc,
  acc <> "" ->
  fold_left command_text_step ws acc =
    acc +:+ fold_right (fun a r => " " +:+ a +:+ r) "" ws.
Proof.
  induction ws as [|x ws IH]; intros acc Hacc; simpl.
  - by rewrite append_nil_r.
  - unfold command_text_step at 2.
    assert (String.eqb acc "" = false) as -> by (by apply String.eqb_neq).
    rewrite IH.
    + by rewrite !append_assoc.
    + destruct acc; [done|]. by rewrite append_cons.
Qed.

Lemma unwords_spaced x ws :
  unwords (x :: ws) = x +:+ fold_right (fun a r => " " +:+ a +:+ r) "" ws.
Proof.
  revert x. induction ws as [|y ws IH]; intros x.
  - simpl. by rewrite append_nil_r.
  - change (unwords (x :: y :: ws)) with (x +:+ " " +:+ unwords (y :: ws)).
    rewrite IH. reflexivity.
Qed.

(** The command line [cmd_error] rebuilds is the words joined by single
    blanks, when the first is not empty. *)
Lemma command_text_unwords x ws :
  x <> "" -> fold_left command_text_step (x :: ws) "" = unwords (x :: ws).
Proof.
  intros Hx. cbn [fold_left].
  change (command_text_step "" x) with x.
  rewrite command_text_spaced by done. by rewrite unwords_spaced.
Qed.

End Words.

Section Lines.
Context {Netlist : Type} {host : Host Netlist} {cmds : Commands Netlist}.
Implicit Types (w : World Netlist).

Lemma c_str_append s t :
  all_chars (fun c => negb (Ascii.eqb c NUL)) s = true ->
  c_str (s +:+ t) = s +:+ c_str t.
Proof.
  induction s as [|c s IH]; [done|]. simpl.
  intros [Hc Hs]%andb_prop. apply negb_true_iff in Hc.
  rewrite append_cons. simpl. rewrite Hc. by rewrite IH.
Qed.

Lemma strspn_skip set lead r :
  all_chars (fun c => mem_char c set) lead = true ->
  strspn r set = 0 ->
  advance (strspn (lead +:+ r) set) (lead +:+ r) = r.
Proof.
  intros Hl Hr. induction lead as [|c lead IH].
  - change ("" +:+ r) with r. by rewrite Hr.
  - simpl in Hl. apply andb_prop in Hl as [Hc Hl].
    rewrite append_cons. simpl. rewrite Hc. simpl. by apply IH.
Qed.

Lemma blanks_not_NUL lead :
  all_chars (fun c => mem_char c blanks) lead = true ->
  all_chars (fun c => negb (Ascii.eqb c NUL)) lead = true.
Proof.
  apply all_chars_impl. intros c Hc.
  destruct (Ascii.eqb_spec c NUL) as [->|]; [|done]. by vm_compute in Hc.
Qed.

Lemma tokens_unwords_append ws b s :
  Forall (fun x => is_word x = true) ws -> ws <> [] ->
  mem_char b blanks = true ->
  tokens (unwords ws +:+ String b s) blanks = ws ++ tokens s blanks.
Proof.
  unfold tokens. intros Hall Hne Hb. induction ws as [|x ws IH]; [done|].
  apply Forall_cons in Hall as [Hx Hws].
  apply is_word_inv in Hx as (Hxne & Hbl & _).
  destruct ws as [|y ws].
  - simpl. rewrite tokens_from_None_word by done.
    cbn [tokens_from]. by rewrite Hb.
  - change (unwords (x :: y :: ws)) with (x +:+ " " +:+ unwords (y :: ws)).
    rewrite !append_assoc.
    rewrite tokens_from_None_word by done.
    rewrite append_cons. cbn [tokens_from].
    change (mem_char " " blanks) with true. cbv iota.
    simpl. f_equal. change ("" +:+ ?s) with s. by apply IH.
Qed.

Lemma unwords_head a0 rest :
  a0 <> "" -> exists c s1, unwords (a0 :: rest) = String c s1 /\ at_ a0 0 = Some c.
Proof.
  destruct a0 as [|c a0]; [done|]. intros _.
  rewrite unwords_spaced, append_cons. eauto.
Qed.

Lemma unwords_no_nul ws :
  Forall (fun x => is_word x = true) ws ->
  all_chars (fun c => negb (Ascii.eqb c NUL)) (unwords ws) = true.
Proof.
  induction ws as [|x ws IH]; [done|].
  intros Hall. apply Forall_cons in Hall as [Hx Hws].
  apply is_word_inv in Hx as (_ & _ & Hx).
  destruct ws as [|y ws]; [done|].
  change (unwords (x :: y :: ws)) with (x +:+ " " +:+ unwords (y :: ws)).
  rewrite !all_chars_append, Hx, IH by done. done.
Qed.

Lemma word_head_not_blank a0 c :
  is_word a0 = true -> at_ a0 0 = Some c -> mem_char c blanks = false.
Proof.
  intros (_ & Hbl & _)%is_word_inv. destruct a0 as [|c' a0]; [done|].
  intros [= <-]. simpl in Hbl. apply andb_prop in Hbl as [Hc _].
  by apply negb_true_iff.
Qed.

Lemma Pass_call_string_tokens fuel depth command c s1 ws more w :
  advance (strspn (c_str command) blanks) (c_str command) = String c s1 ->
  c <> "#"%char -> c <> "!"%char ->
  tokens (String c s1) blanks = ws ++ more ->
  Forall plain ws ->
  more = [] \/ (exists m, more = "#" :: m) ->
  Pass_call_string fuel (S depth) command w = Pass_call fuel ws w.
Proof.
  intros Hs Hc1 Hc2 Htok Hplain Hmore.
  cbn [Pass_call_string]. unfold Pass_call_string_body.
  cbv zeta. rewrite Hs.
  destruct (Ascii.eqb_spec c "#") as [|_]; [done|].
  destruct (Ascii.eqb_spec c "!") as [|_]; [done|].
  rewrite Htok. rewrite call_tokens_plain by done.
  destruct Hmore as [->|[m ->]]; reflexivity.
Qed.

Lemma strspn_head_0 c s set : mem_char c set = false -> strspn (String c s) set = 0.
Proof. intros H. simpl. by rewrite H. Qed.

End Lines.

Section LineClaims.
Context {Netlist : Type} {host : Host Netlist} {cmds : Commands Netlist}.
Implicit Types (w : World Netlist).

(** X6.  A line of plain words.  The command line that [cmd_error] rebuilds from
    an argument vector of words is the words joined by single blanks; the
    tokenizer reads the words back from it; and the string-form call on it
    is the vector-form call on the words, unless the first word starts with
    an exclamation mark. *)
Theorem word_line_dispatch fuel depth (a0 : string) (rest : list string) w :
  Forall (fun x => is_word x = true) (a0 :: rest) ->
  Forall plain (a0 :: rest) ->
  at_ a0 0 <> Some "!"%char ->
  fold_left command_text_step (a0 :: rest) "" = unwords (a0 :: rest) /\
  tokens (c_str (unwords (a0 :: rest))) blanks = a0 :: rest /\
  Pass_call_string fuel (S depth) (unwords (a0 :: rest)) w =
    Pass_call fuel (a0 :: rest) w.
Proof.
  intros Hwords Hplain Hbang.
  pose proof (Forall_inv Hwords) as Ha0. cbv beta in Ha0.
  destruct (is_word_inv _ Ha0) as (Hne & _ & _).
  pose proof (c_str_no_nul _ (unwords_no_nul _ Hwords)) as Hc.
  split_and!.
  - by apply command_text_unwords.
  - rewrite Hc. by apply tokens_unwords.
  - destruct (unwords_head a0 rest Hne) as (c & s1 & Hu & Hat).
    pose proof (word_head_not_blank _ _ Ha0 Hat) as Hnb.
    destruct (Ascii.eqb_spec c "#") as [->|Hhash].
    + rewrite Pass_call_noop by done.
      cbn [Pass_call_string]. unfold Pass_call_string_body. cbv zeta.
      rewrite Hc, Hu. by rewrite strspn_head_0.
    + apply (Pass_call_string_tokens _ _ _ c s1 _ []); try done.
      * rewrite Hc, Hu. by rewrite strspn_head_0.
      * by intros ->.
      * rewrite <- Hu, app_nil_r. by apply tokens_unwords.
      * by left.
Qed.

(** X7.  Comments.  A line whose first character behind its leading blanks is a
    hash, and a line of blanks only, do nothing at all; in a line of plain
    words a lone hash ends the command: what follows it on the line is not
    read, semicolons included; and the vector-form call skips an argument
    vector whose first argument starts with a hash. *)
Theorem comments_are_skipped fuel depth :
  (forall lead text w,
     all_chars (fun c => mem_char c blanks) lead = true ->
     Pass_call_string fuel (S depth) (lead +:+ String "#" text) w = Done tt w) /\
  (forall lead w,
     all_chars (fun c => mem_char c blanks) lead = true ->
     Pass_call_string fuel (S depth) lead w = Done tt w) /\
  (forall a0 rest text w,
     Forall (fun x => is_word x = true) (a0 :: rest) ->
     Forall plain (a0 :: rest) ->
     at_ a0 0 <> Some "!"%char ->
     Pass_call_string fuel (S depth) (unwords (a0 :: rest) +:+ " # " +:+ text) w =
       Pass_call fuel (a0 :: rest) w) /\
  (forall a0 rest w,
     at_ a0 0 = Some "#"%char -> Pass_call fuel (a0 :: rest) w = Done tt w).
Proof.
  split_and!.
  - intros lead text w Hlead.
    cbn [Pass_call_string]. unfold Pass_call_string_body. cbv zeta.
    rewrite c_str_append by (by apply blanks_not_NUL).
    destruct (c_str (String "#" text)) as [|c s1] eqn:Hcs; [done|].
    simpl in Hcs. injection Hcs as <- _.
    by rewrite strspn_skip.
  - intros lead w Hlead.
    cbn [Pass_call_string]. unfold Pass_call_string_body. cbv zeta.
    rewrite c_str_no_nul by (by apply blanks_not_NUL).
    rewrite <- (append_nil_r lead). by rewrite strspn_skip.
  - intros a0 rest text w Hwords Hplain Hbang.
    pose proof (Forall_inv Hwords) as Ha0. cbv beta in Ha0.
    destruct (is_word_inv _ Ha0) as (Hne & _ & _).
    destruct (unwords_head a0 rest Hne) as (c & s1 & Hu & Hat).
    pose proof (word_head_not_blank _ _ Ha0 Hat) as Hnb.
    assert (c_str (unwords (a0 :: rest) +:+ " # " +:+ text) =
            unwords (a0 :: rest) +:+ " # " +:+ c_str text) as Hc.
    { rewrite c_str_append by (by apply unwords_no_nul).
      f_equal. }
    destruct (Ascii.eqb_spec c "#") as [->|Hhash].
    + rewrite Pass_call_noop by done.
      cbn [Pass_call_string]. unfold Pass_call_string_body. cbv zeta.
      rewrite Hc, Hu, append_cons. by rewrite strspn_head_0.
    + apply (Pass_call_string_tokens _ _ _ c (s1 +:+ " # " +:+ c_str text) _
               ("#" :: tokens (c_str text) blanks)); try done.
      * rewrite Hc, Hu, append_cons. by rewrite strspn_head_0.
      * by intros ->.
      * rewrite <- append_cons, <- Hu.
        change (" # " +:+ c_str text) with (String " " ("# " +:+ c_str text)).
        rewrite tokens_unwords_append by done. done.
      * right. eauto.
  - intros a0 rest w Hat. by apply Pass_call_noop.
Qed.

End LineClaims.

Section Shell.
Context {Netlist : Type} {host : Host Netlist} {cmds : Commands Netlist}.
Implicit Types (w : World Netlist).

Lemma set_not_NUL set s :
  mem_char NUL set = false ->
  all_chars (fun c => mem_char c set) s = true ->
  all_chars (fun c => negb (Ascii.eqb c NUL)) s = true.
Proof.
  intros Hset. apply all_chars_impl. intros c Hc.
  destruct (Ascii.eqb_spec c NUL) as [->|]; [|done]. by rewrite Hset in Hc.
Qed.

Lemma ends_line_cons c c' s : ends_line (String c (String c' s)) = ends_line (String c' s).
Proof. unfold ends_line. simpl. by rewrite Nat.sub_0_r. Qed.

Lemma strip_trailing_kept s :
  ends_line s = false -> strip_trailing s [CR; LF] = s.
Proof.
  induction s as [|c s IH]; [done|]. destruct s as [|c' s].
  - unfold ends_line, mem_char. simpl.
    by destruct (Ascii.eqb c LF), (Ascii.eqb c CR).
  - rewrite ends_line_cons. intros H. specialize (IH H).
    change (strip_trailing (String c (String c' s)) [CR; LF]) with
      (match strip_trailing (String c' s) [CR; LF] with
       | EmptyString => if mem_char c [CR; LF] then EmptyString else String c EmptyString
       | r => String c r
       end).
    by rewrite IH.
Qed.

Lemma strip_trailing_all set t :
  all_chars (fun c => mem_char c set) t = true -> strip_trailing t set = "".
Proof.
  induction t as [|c t IH]; [done|]. simpl.
  intros [Hc Ht]%andb_prop. by rewrite IH, Hc.
Qed.

Lemma strip_trailing_append set s t :
  strip_trailing t set = "" ->
  strip_trailing (s +:+ t) set = strip_trailing s set.
Proof.
  intros Ht. induction s as [|c s IH]; [done|].
  rewrite append_cons. simpl. by rewrite IH.
Qed.

Lemma strspn_0_cmd cmd trail :
  match at_ cmd 0 with Some c => mem_char c [SP; HT] = false | None => True end ->
  all_chars (fun c => mem_char c [CR; LF]) trail = true ->
  strspn (cmd +:+ trail) [SP; HT] = 0.
Proof.
  destruct cmd as [|c cmd].
  - intros _. destruct trail as [|c t]; [done|].
    cbn [all_chars]. intros [Hc _]%andb_prop.
    change ("" +:+ String c t) with (String c t).
    apply strspn_head_0. unfold mem_char in *. cbn [existsb] in *.
    destruct (Ascii.eqb_spec c CR) as [->|]; [done|].
    destruct (Ascii.eqb_spec c LF) as [->|]; done.
  - intros Hc _. rewrite append_cons. apply strspn_head_0. exact Hc.
Qed.

(** X8.  The shell passthrough.  On a line whose first character behind its
    leading blanks is an exclamation mark, the command handed to [system] is
    what follows the mark without the blanks and tabs before it and without
    the carriage returns and newlines at its end; it is handed over once,
    after the header is logged; nothing is dispatched and the design is not
    checked; the call returns when [system] returns 0 and raises a command
    error with the return code otherwise. *)
Theorem shell_passthrough fuel depth (lead pad cmd trail : string) w :
  all_chars (fun c => mem_char c blanks) lead = true ->
  all_chars (fun c => mem_char c [SP; HT]) pad = true ->
  all_chars (fun c => negb (Ascii.eqb c NUL)) cmd = true ->
  match at_ cmd 0 with Some c => mem_char c [SP; HT] = false | None => True end ->
  ends_line cmd = false ->
  all_chars (fun c => mem_char c [CR; LF]) trail = true ->
  Pass_call_string fuel (S depth) (lead +:+ "!" +:+ pad +:+ cmd +:+ trail) w =
    let w1 := add_event (EvSystem cmd)
                (add_event (EvLog ("Shell command: " +:+ cmd +:+ nl)) w) in
    if (os_system cmd =? 0)%Z then Done tt w1
    else CmdError ("Shell command returned error code " +:+
                   pretty (os_system cmd) +:+ "." +:+ nl) w1.
Proof.
  intros Hlead Hpad Hcmd Hhead Hend Htrail.
  assert (c_str (lead +:+ "!" +:+ pad +:+ cmd +:+ trail) =
          lead +:+ String "!" (pad +:+ cmd +:+ trail)) as Hc.
  { apply c_str_no_nul. rewrite all_chars_append. cbn [all_chars].
    rewrite !all_chars_append.
    rewrite (blanks_not_NUL _ Hlead), Hcmd.
    by rewrite (set_not_NUL [SP; HT] pad eq_refl Hpad),
               (set_not_NUL [CR; LF] trail eq_refl Htrail). }
  cbn [Pass_call_string]. unfold Pass_call_string_body. cbv zeta.
  rewrite Hc. rewrite strspn_skip by done.
  change (Ascii.eqb "!" "#") with false. change (Ascii.eqb "!" "!") with true.
  cbv iota.
  rewrite strspn_skip by (try done; by apply strspn_0_cmd).
  rewrite strip_trailing_append by (by apply strip_trailing_all).
  rewrite strip_trailing_kept by done.
  mred. by destruct (os_system cmd =? 0)%Z.
Qed.

End Shell.

(** ** Syntax errors and the resolution of streams *)

Section CmdError.
Context {Netlist : Type} {host : Host Netlist}.
Implicit Types (w : World Netlist).

Lemma length_spaces n : String.length (spaces n) = n.
Proof. induction n as [|n IH]; simpl; [done|]. by rewrite IH. Qed.

Lemma substring_skip (p s : string) n m :
  String.substring (String.length p + n) m (p +:+ s) = String.substring n m s.
Proof. induction p as [|c p IH]; [done|]. rewrite append_cons. simpl. exact IH. Qed.

Lemma unwords_cons x l : l <> [] -> unwords (x :: l) = x +:+ " " +:+ unwords l.
Proof. by destruct l. Qed.

(** The words before an argument, each followed by its blank. *)
Lemma unwords_split pre arg post :
  exists before,
    unwords (pre ++ arg :: post) =
      before +:+ arg +:+ fold_right (fun a r => " " +:+ a +:+ r) "" post /\
    String.length before = list_sum (map (fun a => String.length a + 1) pre).
Proof.
  induction pre as [|x pre (before & Hu & Hlen)].
  - exists "". split; [|done]. apply unwords_spaced.
  - exists (x +:+ " " +:+ before). split.
    + change ((x :: pre) ++ arg :: post) with (x :: (pre ++ arg :: post)).
      rewrite unwords_cons by (by destruct pre). rewrite Hu.
      by rewrite !append_assoc.
    + rewrite !length_append, Hlen. simpl. lia.
Qed.

Lemma length_unwords x l :
  String.length (unwords (x :: l)) + 1 =
    list_sum (map (fun a => String.length a + 1) (x :: l)).
Proof.
  revert x. induction l as [|y l IH]; intros x.
  - simpl. lia.
  - rewrite unwords_cons by done. rewrite !length_append.
    specialize (IH y). unfold list_sum in *. cbn [map fold_right] in *.
    change (String.length " ") with 1. lia.
Qed.

Lemma Pass_cmd_error_not_Done {A} this args argidx msg w (a : A) w' :
  Pass_cmd_error this args argidx msg w <> Done a w'.
Proof.
  intros Hrun. unfold Pass_cmd_error in Hrun.
  apply bind_Done_inv in Hrun as (? & ? & _ & Hrun).
  apply bind_Done_inv in Hrun as (? & ? & _ & Hrun). done.
Qed.

Lemma unwords_nul_free ws :
  Forall (fun a => all_chars (fun c => negb (Ascii.eqb c NUL)) a = true) ws ->
  all_chars (fun c => negb (Ascii.eqb c NUL)) (unwords ws) = true.
Proof.
  induction ws as [|x ws IH]; [done|].
  intros Hall. apply Forall_cons in Hall as [Hx Hws].
  destruct ws as [|y ws]; [done|].
  change (unwords (x :: y :: ws)) with (x +:+ " " +:+ unwords (y :: ws)).
  rewrite !all_chars_append, Hx, IH by done. done.
Qed.

(** As long as it fits an [int], [error_pos] is the sum of the sizes. *)
Lemma error_pos_exact args : forall acc : nat,
  (Z.of_nat (acc + list_sum (map (fun a => String.length a + 1) args))%nat
     <= int_max)%Z ->
  fold_left error_pos_step args (Z.of_nat acc) =
    Z.of_nat (acc + list_sum (map (fun a => String.length a + 1) args)).
Proof.
  induction args as [|a args IH]; intros acc Hfit.
  - unfold list_sum. cbn [map fold_right fold_left]. f_equal. lia.
  - unfold list_sum in *. cbn [map fold_right fold_left] in *.
    unfold error_pos_step at 2.
    rewrite wrap_int_small by (unfold int_min, int_max in *; lia).
    replace (Z.of_nat acc + Z.of_nat (String.length a) + 1)%Z
      with (Z.of_nat (acc + (String.length a + 1))%nat) by lia.
    rewrite IH by (rewrite <- Nat.add_assoc; exact Hfit).
    f_equal. lia.
Qed.

Lemma padding_of_nat n : padding (Z.of_nat n) = spaces n.
Proof. unfold padding. by rewrite Z.abs_eq, Nat2Z.id by lia. Qed.

(** X3.  [cmd_error].  It never returns to its caller, whatever the [help] of
    the object does.  For an argument vector that starts with a non-empty
    word: once the syntax error line is logged and [help] has returned, it
    raises the command error whose text shows the message and the arguments
    joined by single blanks, both as [%s] prints them from [c_str()], and
    on the line below the caret behind the padding of width [error_pos].
    When the sizes of the arguments before [argidx] fit an [int] the
    padding is as many blanks as these sizes sum up to, each counted with
    its blank; when no argument has a NUL the line shown is the arguments
    joined by single blanks, in full.  The caret column is then where the
    argument at [argidx] starts in the line above, and one column behind
    the blank that would follow the last argument when [argidx] is past
    the end. *)
Theorem cmd_error_caret {A} (this : ptr) (a0 : string) (rest : list string)
    (argidx : nat) (msg : string) w :
  a0 <> "" ->
  let args := a0 :: rest in
  let text := unwords args in
  let pos := list_sum (map (fun a => String.length a + 1) (take argidx args)) in
  let error_pos := fold_left error_pos_step (take argidx args) 0%Z in
  (forall (a : A) w', Pass_cmd_error this args argidx msg w <> Done a w') /\
  (forall w1,
     pass_help this
       (add_event
          (EvLog (nl +:+ "Syntax error in command `" +:+ c_str text +:+ "':" +:+ nl)) w)
       = Done tt w1 ->
     Pass_cmd_error (A := A) this args argidx msg w =
       CmdError ("Command syntax error: " +:+ c_str msg +:+ nl +:+
                 "> " +:+ c_str text +:+ nl +:+
                 "> " +:+ padding error_pos +:+ "^" +:+ nl) w1) /\
  ((Z.of_nat pos <= int_max)%Z ->
   padding error_pos = spaces pos /\ String.length (spaces pos) = pos) /\
  (Forall (fun a => all_chars (fun c => negb (Ascii.eqb c NUL)) a = true) args ->
   c_str text = text) /\
  (forall arg, args !! argidx = Some arg ->
     substr text pos (String.length arg) = arg) /\
  (length args <= argidx -> pos = String.length text + 1).
Proof.
  intros Hne args text pos error_pos. split_and!.
  - intros a w'. apply Pass_cmd_error_not_Done.
  - intros w1 Hhelp. subst args text pos error_pos. unfold Pass_cmd_error.
    cbv zeta. rewrite command_text_unwords by done.
    erewrite bind_Done by reflexivity.
    by erewrite bind_Done by exact Hhelp.
  - intros Hfit. split; [|apply length_spaces].
    subst error_pos pos.
    rewrite (error_pos_exact _ 0) by exact Hfit.
    apply padding_of_nat.
  - intros Hfree. apply c_str_no_nul. by apply unwords_nul_free.
  - intros arg Harg.
    pose proof (take_drop_middle _ _ _ Harg) as Hsplit.
    destruct (unwords_split (take argidx args) arg (drop (S argidx) args))
      as (before & Hu & Hlen).
    rewrite Hsplit in Hu. unfold text, pos, substr. rewrite Hu, <- Hlen.
    rewrite <- (Nat.add_0_r (String.length before)).
    rewrite substring_skip. apply substring_append_l.
  - intros Hlen. unfold pos, text. rewrite take_ge by done.
    symmetry. apply length_unwords.
Qed.

End CmdError.

Section ExtraArgs.
Context {Netlist : Type} {host : Host Netlist}.
Implicit Types (w : World Netlist).

Lemma ret_bind {A B} (a : A) (k : A -> M Netlist B) w : (ret a ≫= k) w = k a w.
Proof. reflexivity. Qed.

Lemma mret_bind {A B} (a : A) (k : A -> M Netlist B) w : (mret a ≫= k) w = k a w.
Proof. reflexivity. Qed.

Lemma when_Done_inv b (c : M Netlist unit) w w' :
  when b c w = Done tt w' ->
  (b = false /\ w' = w) \/ (b = true /\ c w = Done tt w').
Proof. destruct b; simpl; [by right|]. intros [= <-]. by left. Qed.

Lemma when_cmd_error_Done b this args argidx msg w w' :
  when b (Pass_cmd_error this args argidx msg) w = Done tt w' ->
  b = false /\ w' = w.
Proof.
  intros [H|[_ H]]%when_Done_inv; [done|].
  by apply Pass_cmd_error_not_Done in H.
Qed.

Lemma when_log_cmd_error_Done b msg w w' :
  when b (log_cmd_error msg) w = Done tt w' -> b = false /\ w' = w.
Proof. by intros [H|[_ H]]%when_Done_inv. Qed.

Lemma no_option_follows_Done this args rest : forall i w w',
  no_option_follows this args rest i w = Done tt w' ->
  w' = w /\ Forall (fun a => String.eqb (substr a 0 1) "-" = false) rest.
Proof.
  induction rest as [|a rest IH]; intros i w w' Hrun.
  - by injection Hrun as <-.
  - cbn [no_option_follows] in Hrun.
    apply bind_Done_inv in Hrun as ([] & w1 & Hwhen & Hrun).
    apply when_cmd_error_Done in Hwhen as [Ha ->].
    apply IH in Hrun as [-> Hrest]. split; [done|]. by constructor.
Qed.

Lemma no_option_follows_ok this args rest : forall i w,
  Forall (fun a => String.eqb (substr a 0 1) "-" = false) rest ->
  no_option_follows this args rest i w = Done tt w.
Proof.
  induction rest as [|a rest IH]; intros i w Hall; [done|].
  apply Forall_cons in Hall as [Ha Hrest].
  cbn [no_option_follows]. rewrite Ha. cbn [when].
  erewrite bind_Done by reflexivity. by apply IH.
Qed.

(** Called without a stream, [Frontend::extra_args] returns only when there
    is an argument at [argidx]. *)
Lemma Frontend_extra_args_needs_source this fname args argidx w r w' :
  Frontend_extra_args this None fname args argidx w = Done r w' ->
  is_Some (args !! argidx).
Proof.
  unfold Frontend_extra_args. intros Hrun.
  destruct (args !! argidx) as [arg|]; [by eexists|].
  apply bind_Done_inv in Hrun as ([] & w0 & _ & Hrun).
  apply bind_Done_inv in Hrun as ([[[f1 fn1] args1] idx1] & w1 & Hbody & Hrun).
  injection Hbody as <- <- <- <- <-.
  apply bind_Done_inv in Hrun as ([] & w2 & Hwhen & _).
  apply when_cmd_error_Done in Hwhen as [Hf _].
  by apply bool_decide_eq_false in Hf.
Qed.

(** X16.  What a returning [Frontend::extra_args] guarantees.  The stream it
    hands back is open.  Called with a stream (direct file mode) it accepts
    no argument from [argidx] on and hands back the stream and the filename
    it was given, having only cleared [next_args].  Called without one,
    there is an argument at [argidx] and it is not an option; unless that
    argument is the lone here-document sign, it is the filename handed back
    and no argument behind it is an option. *)
Theorem Frontend_extra_args_returns (this : ptr) (f : option FILEp)
    (filename : string) (args : list string) (argidx : nat) w r fn w' :
  Frontend_extra_args this f filename args argidx w = Done (r, fn) w' ->
  r <> None /\
  (f <> None ->
     length args <= argidx /\ r = f /\ fn = filename /\ w' = set_next_args [] w) /\
  (f = None ->
     exists arg,
       args !! argidx = Some arg /\
       String.eqb (substr arg 0 1) "-" = false /\
       (arg <> "<<" ->
          fn = arg /\
          Forall (fun a => String.eqb (substr a 0 1) "-" = false)
            (drop (S argidx) args))).
Proof.
  unfold Frontend_extra_args. intros Hrun.
  apply bind_Done_inv in Hrun as ([] & w0 & [= <-] & Hrun).
  apply bind_Done_inv in Hrun as ([[[f1 fn1] args1] idx1] & w1 & Hbody & Hrun).
  apply bind_Done_inv in Hrun as ([] & w2 & Hwhen & Hrun).
  apply when_cmd_error_Done in Hwhen as [Hf1 ->].
  apply bool_decide_eq_false in Hf1.
  assert (r = f1 /\ fn = fn1 /\ w' = w1) as (-> & -> & ->).
  { destruct (if bool_decide (f ≠ None) then _ else _); [done|].
    by injection Hrun as <- <- <-. }
  clear Hrun. split; [done|].
  destruct (args !! argidx) as [arg|] eqn:Harg.
  - apply bind_Done_inv in Hbody as ([] & w3 & Hwhen & Hbody).
    apply when_cmd_error_Done in Hwhen as [Hopt ->].
    apply bind_Done_inv in Hbody as ([] & w3 & Hwhen & Hbody).
    apply when_cmd_error_Done in Hwhen as [Hfp ->].
    apply bool_decide_eq_false in Hfp.
    split; [done|]. intros _. exists arg. split_and!; [done|done|].
    intros Hsign.
    assert (String.eqb arg "<<" = false) as Heq by (by apply String.eqb_neq).
    rewrite Heq in Hbody. cbn [andb] in Hbody.
    apply bind_Done_inv in Hbody as (f2 & w3 & _ & Hbody).
    apply bind_Done_inv in Hbody as ([] & w4 & _ & Hbody).
    apply bind_Done_inv in Hbody as ([] & w5 & Hno & Hbody).
    apply no_option_follows_Done in Hno as [-> Hno].
    rewrite Nat.add_1_r in Hno.
    split; [|done].
    destruct (_ <? _)%nat.
    + apply bind_Done_inv in Hbody as ([] & w6 & _ & Hbody).
      apply bind_Done_inv in Hbody as ([] & w7 & _ & Hbody).
      by injection Hbody as _ <- _ _ _.
    + by injection Hbody as _ <- _ _ _.
  - injection Hbody as <- <- <- <- <-.
    split; [|done]. intros _. split_and!; try done.
    by apply lookup_ge_None.
Qed.

(** A path as a frontend takes it: neither an option nor a here-document. *)
Lemma not_heredoc_sign path :
  String.eqb (substr path 0 2) "<<" = false -> String.eqb path "<<" = false.
Proof.
  intros H. apply String.eqb_neq. intros ->. done.
Qed.

Lemma Frontend_extra_args_path this fname pre path more w :
  pre <> [] ->
  String.eqb (substr path 0 1) "-" = false ->
  String.eqb (substr path 0 2) "<<" = false ->
  Forall (fun a => String.eqb (substr a 0 1) "-" = false) more ->
  Frontend_extra_args this None fname (pre ++ path :: more) (length pre) w =
    match os_fopen (c_str path) "r" with
    | Some h =>
        Done (Some (file_handle h), path)
          (set_next_args (match more with [] => [] | _ => pre ++ more end) w)
    | None =>
        CmdError ("Can't open input file `" +:+ c_str path +:+ "' for reading: " +:+
                  c_str (os_strerror (c_str path) "r") +:+ nl)
          (set_next_args [] w)
    end.
Proof.
  intros Hpre Hopt Hdoc Hmore. unfold Frontend_extra_args.
  erewrite bind_Done by reflexivity.
  rewrite list_lookup_middle by done.
  rewrite Hopt. rewrite bool_decide_false by (intros H; by apply H).
  rewrite (not_heredoc_sign _ Hdoc). cbn [andb when]. rewrite Hdoc.
  rewrite bind_unfold.
  rewrite !ret_bind, mret_bind.
  destruct (os_fopen (c_str path) "r") as [h|]; cbn [fmap option_fmap option_map].
  - rewrite bool_decide_false by done. cbn [when].
    rewrite ret_bind.
    replace (drop (length pre + 1) (pre ++ path :: more)) with more; last first.
    { rewrite Nat.add_1_r. change (path :: more) with ([path] ++ more).
      rewrite app_assoc. rewrite drop_app_length'; [done|].
      rewrite length_app. simpl. lia. }
    erewrite bind_Done by (by apply no_option_follows_ok).
    destruct more as [|m more].
    + replace (length pre + 1 <? length (pre ++ [path]))%nat with false; last first.
      { symmetry. apply Nat.ltb_ge. rewrite length_app. simpl. lia. }
      mred. by destruct pre.
    + replace (length pre + 1 <? length (pre ++ path :: m :: more))%nat with true;
        last first.
      { symmetry. apply Nat.ltb_lt. rewrite length_app. simpl. lia. }
      mred.
      replace (take (length pre + 1) (pre ++ path :: m :: more)) with (pre ++ [path]);
        last first.
      { rewrite Nat.add_1_r. change (path :: m :: more) with ([path] ++ m :: more).
        rewrite app_assoc. rewrite take_app_length'; [done|].
        rewrite length_app. simpl. lia. }
      destruct pre as [|p0 pre]; [done|].
      cbv beta iota. f_equal.
      unfold set_next_args, vector_insert. simpl. f_equal.
      rewrite take_app_length. rewrite app_nil_r.
      by rewrite firstn_all, drop_all, app_nil_r.
  - rewrite bool_decide_true by done. done.
Qed.

End ExtraArgs.

Section BackendArgs.
Context {Netlist : Type} {host : Host Netlist}.
Implicit Types (w : World Netlist).

Lemma Backend_extra_args_loop_direct this args arg rest argidx f filename w r w' :
  f <> None ->
  Backend_extra_args_loop this args (arg :: rest) argidx f filename w <> Done r w'.
Proof.
  intros Hf Hrun. cbn [Backend_extra_args_loop] in Hrun.
  apply bind_Done_inv in Hrun as ([] & w1 & Hwhen & Hrun).
  apply when_cmd_error_Done in Hwhen as [_ ->].
  apply bind_Done_inv in Hrun as ([] & w1 & Hwhen & Hrun).
  apply when_cmd_error_Done in Hwhen as [Hfp ->].
  by apply bool_decide_eq_false in Hfp.
Qed.

Lemma Backend_extra_args_loop_Done this args rest argidx f filename w r fn w' :
  Backend_extra_args_loop this args rest argidx f filename w = Done (r, fn) w' ->
  w' = w /\
  match rest with
  | [] => r = f /\ fn = filename
  | [arg] =>
      f = None /\
      if String.eqb arg "-" then r = Some stdout_ /\ fn = "<stdout>"
      else String.eqb (substr arg 0 1) "-" = false /\
           r = file_handle <$> os_fopen (c_str arg) "w" /\ r <> None /\ fn = arg
  | _ :: _ :: _ => False
  end.
Proof.
  destruct rest as [|arg rest].
  - by intros [= <- <- <-].
  - intros Hrun. cbn [Backend_extra_args_loop] in Hrun.
    apply bind_Done_inv in Hrun as ([] & w1 & Hwhen & Hrun).
    apply when_cmd_error_Done in Hwhen as [Hopt ->].
    apply bind_Done_inv in Hrun as ([] & w1 & Hwhen & Hrun).
    apply when_cmd_error_Done in Hwhen as [Hfp ->].
    apply bool_decide_eq_false in Hfp.
    assert (f = None) as -> by (destruct f; [by destruct Hfp|done]).
    destruct (String.eqb arg "-") eqn:Hdash.
    + destruct rest as [|arg2 rest].
      * by injection Hrun as <- <- <-.
      * by apply Backend_extra_args_loop_direct in Hrun.
    + rewrite andb_true_r in Hopt.
      apply bind_Done_inv in Hrun as ([] & w1 & Hwhen & Hrun).
      apply when_log_cmd_error_Done in Hwhen as [Hopen ->].
      apply bool_decide_eq_false in Hopen.
      destruct rest as [|arg2 rest].
      * by injection Hrun as <- <- <-.
      * by apply Backend_extra_args_loop_direct in Hrun.
Qed.

Lemma Backend_extra_args_world this f filename args argidx w r w' :
  Backend_extra_args this f filename args argidx w = Done r w' -> w' = w.
Proof.
  unfold Backend_extra_args. intros Hrun.
  apply bind_Done_inv in Hrun as ([r1 fn1] & w1 & Hloop & Hrun).
  apply Backend_extra_args_loop_Done in Hloop as [-> _].
  destruct (if bool_decide (f ≠ None) then _ else _); [done|].
  destruct r1; by injection Hrun as _ <-.
Qed.

(** X23.  What a returning [Backend::extra_args] guarantees.  It has left the
    world as it found it, and the stream it hands back is open.  It accepts
    at most one argument from [argidx] on, and none when called with a
    stream (direct file mode), which it then hands back with its filename.
    Called without a stream, the destination is the standard output under
    the name [<stdout>] when there is no argument or the argument is a lone
    dash, and otherwise the file opened for writing under the name of the
    argument, which is not an option. *)
Theorem Backend_extra_args_returns (this : ptr) (f : option FILEp)
    (filename : string) (args : list string) (argidx : nat) w r fn w' :
  Backend_extra_args this f filename args argidx w = Done (r, fn) w' ->
  w' = w /\ r <> None /\ length args <= S argidx /\
  (f <> None -> length args <= argidx /\ r = f /\ fn = filename) /\
  (f = None ->
     args <> [] /\
     match args !! argidx with
     | None => r = Some stdout_ /\ fn = "<stdout>"
     | Some arg =>
         if String.eqb arg "-" then r = Some stdout_ /\ fn = "<stdout>"
         else String.eqb (substr arg 0 1) "-" = false /\
              r = file_handle <$> os_fopen (c_str arg) "w" /\ fn = arg
     end).
Proof.
  unfold Backend_extra_args. intros Hrun.
  apply bind_Done_inv in Hrun as ([r1 fn1] & w1 & Hloop & Hrun).
  apply Backend_extra_args_loop_Done in Hloop as [-> Hrest].
  assert (f = None -> args <> []) as Hargs.
  { intros -> ->. done. }
  destruct (if bool_decide (f ≠ None) then args ++ [fn1] else args) as [|x xs];
    [done|].
  revert Hrest.
  destruct (drop argidx args) as [|arg [|arg2 rest]] eqn:Hdrop; intros Hrest;
    [| |done].
  - destruct Hrest as [-> ->].
    apply drop_nil_inv in Hdrop.
    rewrite (lookup_ge_None_2 _ _ Hdrop).
    destruct f as [f|].
    + injection Hrun as <- <- <-. split_and!; try done. lia.
    + injection Hrun as <- <- <-. split_and!; try done; [lia|].
      intros _. split; [by apply Hargs|done].
  - destruct Hrest as [-> Hrest].
    assert (args !! argidx = Some arg /\ length args = S argidx) as [Harg Hlen].
    { pose proof (f_equal length Hdrop) as Hl. rewrite length_drop in Hl. simpl in Hl.
      split; [|lia].
      rewrite <- (Nat.add_0_r argidx), <- lookup_drop, Hdrop. done. }
    rewrite Harg.
    destruct (String.eqb arg "-").
    + destruct Hrest as [-> ->]. injection Hrun as <- <- <-.
      split_and!; try done; [lia|]. intros _. split; [by apply Hargs|done].
    + destruct Hrest as (Hopt & -> & Hopen & ->).
      destruct (os_fopen (c_str arg) "w") as [h|]; [|done].
      injection Hrun as <- <- <-. split_and!; try done; [lia|].
      intros _. split; [by apply Hargs|done].
Qed.

Lemma Backend_extra_args_unopened this fname pre path w :
  String.eqb (substr path 0 1) "-" = false ->
  os_fopen (c_str path) "w" = None ->
  Backend_extra_args this None fname (pre ++ [path]) (length pre) w =
    CmdError ("Can't open output file `" +:+ c_str path +:+ "' for writing: " +:+
              c_str (os_strerror (c_str path) "w") +:+ nl) w.
Proof.
  intros Hopt Hopen. unfold Backend_extra_args.
  rewrite drop_app_length. cbn [Backend_extra_args_loop].
  rewrite Hopt, (not_dash _ Hopt), Hopen. done.
Qed.

End BackendArgs.

(** ** The frontend driver on a list of files *)

Section Driver.
Context {Netlist : Type} {host : Host Netlist} {cmds : Commands Netlist}.
Implicit Types (w : World Netlist).

Lemma is_path_inv path :
  is_path path = true ->
  String.eqb (substr path 0 1) "-" = false /\
  String.eqb (substr path 0 2) "<<" = false.
Proof.
  unfold is_path. intros [H1 H2]%andb_prop.
  by apply negb_true_iff in H1, H2.
Qed.

Lemma closes_cons path h more :
  os_fopen (c_str path) "r" = Some h ->
  closes (path :: more) = EvFclose (file_handle h) :: closes more.
Proof. intros H. unfold closes. simpl. by rewrite H. Qed.

Lemma Frontend_execute_loop_files p cmd :
  (forall f fname args w,
     frontend_execute p f fname args w =
       (r ← Frontend_extra_args p f fname args 1; mret (fst r)) w) ->
  forall files fuel w o,
    files <> [] ->
    Forall (fun path => is_path path = true /\ is_Some (os_fopen (c_str path) "r")) files ->
    objects w !! p = Some o ->
    (fuel < length files ->
     Frontend_execute_loop fuel p (cmd :: files) w = OutOfFuel) /\
    (length files <= fuel ->
     exists w',
       Frontend_execute_loop fuel p (cmd :: files) w = Done tt w' /\
       events w' = events w ++ closes files /\
       objects w' =
         <[p := mkPass (pass_name o) (short_help o)
                  (wrap_int (call_counter o + Z.of_nat (length files)))
                  (next_queued_pass o) (kind o)]> (objects w) /\
       next_args w' = [] /\
       design w' = design w /\
       pass_register w' = pass_register w /\
       frontend_register w' = frontend_register w).
Proof.
  intros Hfe files. induction files as [|path more IH]; [done|].
  intros fuel w o _ Hall Ho.
  apply Forall_cons in Hall as [[Hpath [h Hopen]] Hmore].
  apply is_path_inv in Hpath as [Hopt Hdoc].
  destruct fuel as [|fuel].
  { split; [done|]. simpl. lia. }
  cbn [Frontend_execute_loop].
  erewrite bind_Done by reflexivity.
  erewrite bind_Done by (apply bump_call_counter_spec; exact Ho).
  pose proof (Frontend_extra_args_path p "" [cmd] path more
                (bumped p o (set_next_args [] w))) as Hex.
  rewrite Hopen in Hex.
  assert (Forall (fun a => String.eqb (substr a 0 1) "-" = false) more) as Hmore'.
  { eapply Forall_impl; [exact Hmore|]. intros a [Ha _]. by apply is_path_inv in Ha as [? _]. }
  specialize (Hex ltac:(done) Hopt Hdoc Hmore').
  change (length [cmd]) with 1 in Hex. change ([cmd] ++ path :: more) with (cmd :: path :: more) in Hex.
  erewrite bind_Done; last first.
  { rewrite Hfe. erewrite bind_Done by exact Hex. reflexivity. }
  erewrite bind_Done by reflexivity.
  erewrite bind_Done by reflexivity.
  cbn [fst next_args set_next_args].
  assert (length (objects w) > p) as Hp by (by eapply lookup_lt_Some).
  destruct more as [|path2 more].
  - split; [simpl; lia|]. intros _. eexists. split; [reflexivity|].
    rewrite (closes_cons _ _ _ Hopen). simpl. split_and!; done.
  - set (o1 := mkPass (pass_name o) (short_help o) (wrap_int (call_counter o + 1))
                 (next_queued_pass o) (kind o)).
    set (w1 := add_event _ _).
    destruct (IH fuel w1 o1) as [Hout Hdone]; [done|done| |].
    { subst w1. simpl. by rewrite list_lookup_insert_eq. }
    split.
    + intros Hlt. apply Hout. simpl in *. lia.
    + intros Hle. destruct Hdone as (w' & Hrun & Hev & Hobj & Hna & Hd & Hpr & Hfr).
      { simpl in *. lia. }
      exists w'. split; [exact Hrun|].
      rewrite Hev, Hobj, Hna, Hd, Hpr, Hfr. subst w1 o1.
      rewrite (closes_cons _ _ _ Hopen). simpl.
      split_and!; try done.
      * by rewrite <- app_assoc.
      * rewrite list_insert_insert_eq. do 2 f_equal.
        change (length (path2 :: more)) with (S (length more)).
        change (length (path :: path2 :: more)) with (S (S (length more))).
        rewrite wrap_int_add. f_equal. lia.
Qed.

Lemma Frontend_execute_files (p : ptr) (cmd : string)
    (files : list string) (fuel : nat) w o :
  (forall f fname args w,
     frontend_execute p f fname args w =
       (r ← Frontend_extra_args p f fname args 1; mret (fst r)) w) ->
  files <> [] ->
  Forall (fun path => is_path path = true /\ is_Some (os_fopen (c_str path) "r")) files ->
  objects w !! p = Some o ->
  next_args w = [] ->
  (fuel < length files -> Frontend_execute fuel p (cmd :: files) w = OutOfFuel) /\
  (length files <= fuel ->
   exists w',
     Frontend_execute fuel p (cmd :: files) w = Done tt w' /\
     events w' = events w ++ closes files /\
     counter_of p w' = Some (wrap_int (call_counter o + Z.of_nat (length files))) /\
     next_args w' = [] /\
     design w' = design w).
Proof.
  intros Hfe Hne Hall Ho Hna.
  assert (Frontend_execute fuel p (cmd :: files) w =
          Frontend_execute_loop fuel p (cmd :: files) w) as ->.
  { unfold Frontend_execute. mred. by rewrite bool_decide_true. }
  destruct (Frontend_execute_loop_files p cmd Hfe files fuel w o Hne Hall Ho)
    as [Hout Hdone].
  split; [exact Hout|]. intros Hle.
  destruct (Hdone Hle) as (w' & Hrun & Hev & Hobj & Hna' & Hd & _).
  exists w'. split_and!; try done.
  unfold counter_of. rewrite Hobj.
  rewrite list_lookup_insert_eq by (by eapply lookup_lt_Some). done.
Qed.

End Driver.

Section DriverClaims.
Context {Netlist : Type} {host : Host Netlist} {cmds : Commands Netlist}.
Implicit Types (w : World Netlist).

(** X15.  The frontend driver on a list of files.  For a frontend whose format
    handler resolves its source with [extra_args] from argument 1 on, given
    a command word and one or more paths that open: it is fatal to enter
    the driver with [next_args] not empty; otherwise the driver takes one
    round per file, neither more nor fewer, closes the files one after the
    other in the order of the command line, counts one invocation per file
    (the counter is an [int], and the sum that of [int] arithmetic) and
    leaves [next_args] empty and the design as it was. *)
Theorem Frontend_execute_reads_each_file (p : ptr) (cmd : string)
    (files : list string) (fuel : nat) w o :
  (forall f fname args w,
     frontend_execute p f fname args w =
       (r ← Frontend_extra_args p f fname args 1; mret (fst r)) w) ->
  files <> [] ->
  Forall (fun path => is_path path = true /\ is_Some (os_fopen (c_str path) "r")) files ->
  objects w !! p = Some o ->
  (next_args w <> [] ->
   Frontend_execute fuel p (cmd :: files) w = Fatal "Assert `next_args.empty()' failed.") /\
  (next_args w = [] ->
   (fuel < length files -> Frontend_execute fuel p (cmd :: files) w = OutOfFuel) /\
   (length files <= fuel ->
    exists w',
      Frontend_execute fuel p (cmd :: files) w = Done tt w' /\
      events w' = events w ++ closes files /\
      counter_of p w' = Some (wrap_int (call_counter o + Z.of_nat (length files))) /\
      next_args w' = [] /\
      design w' = design w)).
Proof.
  intros Hfe Hne Hall Ho. split.
  - intros Hna. unfold Frontend_execute. mred.
    by rewrite bool_decide_false.
  - intros Hna. by apply Frontend_execute_files.
Qed.

End DriverClaims.

(** ** The direct calls *)

Section CallerLemmas.
Context {Netlist : Type} {host : Host Netlist} {cmds : Commands Netlist}.
Implicit Types (w : World Netlist).

Lemma registered_spec (reg : World Netlist -> gmap string ptr) key p w :
  reg w !! key = Some p -> registered reg key w = Done p w.
Proof. intros H. unfold registered. mred. by rewrite H. Qed.

(** The direct call of a frontend once its name is resolved and a stream is
    at hand. *)
Lemma Frontend_frontend_call_stream fuel a0 rest f fname w p o :
  frontend_register w !! a0 = Some p ->
  objects w !! p = Some o ->
  f <> None ->
  Frontend_frontend_call fuel f fname (a0 :: rest) w =
    (frontend_execute p f fname (a0 :: rest);; Design_check) (bumped p o w).
Proof.
  intros Hp Ho Hf. unfold Frontend_frontend_call.
  erewrite bind_Done by reflexivity.
  rewrite (count_is_0_Some _ _ _ Hp). cbn [when]. rewrite ret_bind.
  rewrite bool_decide_true by done.
  rewrite bind_unfold.
  erewrite (bind_Done (registered _ _)) by (by apply registered_spec).
  erewrite bind_Done by (by apply bump_call_counter_spec).
  erewrite bind_Done by (by apply registered_spec).
  rewrite (bind_unfold (frontend_execute _ _ _ _)).
  rewrite (bind_unfold (frontend_execute _ _ _ _) _ (bumped p o w)).
  by destruct (frontend_execute _ _ _ _ _).
Qed.

Lemma Frontend_frontend_call_stdin fuel a0 rest w p o :
  frontend_register w !! a0 = Some p ->
  objects w !! p = Some o ->
  Frontend_frontend_call fuel None "-" (a0 :: rest) w =
    (frontend_execute p (Some stdin_) "<stdin>" (a0 :: rest);; Design_check)
      (bumped p o w).
Proof.
  intros Hp Ho. unfold Frontend_frontend_call.
  erewrite bind_Done by reflexivity.
  rewrite (count_is_0_Some _ _ _ Hp). cbn [when]. rewrite ret_bind.
  rewrite bool_decide_false by (intros H; by apply H).
  change (String.eqb "-" "-") with true. cbv iota.
  rewrite bind_unfold.
  erewrite (bind_Done (registered _ _)) by (by apply registered_spec).
  erewrite bind_Done by (by apply bump_call_counter_spec).
  erewrite bind_Done by (by apply registered_spec).
  rewrite (bind_unfold (frontend_execute _ _ _ _)).
  rewrite (bind_unfold (frontend_execute _ _ _ _) _ (bumped p o w)).
  by destruct (frontend_execute _ _ _ _ _).
Qed.

Lemma Frontend_frontend_call_file fuel a0 rest fname w p :
  frontend_register w !! a0 = Some p ->
  String.eqb fname "-" = false ->
  Frontend_frontend_call fuel None fname (a0 :: rest) w =
    (virtual_execute fuel p
       (if negb (String.eqb fname "") then (a0 :: rest) ++ [fname] else a0 :: rest);;
     Design_check) w.
Proof.
  intros Hp Hdash. unfold Frontend_frontend_call.
  erewrite bind_Done by reflexivity.
  rewrite (count_is_0_Some _ _ _ Hp). cbn [when]. rewrite ret_bind.
  rewrite bool_decide_false by (intros H; by apply H).
  rewrite Hdash. cbv zeta.
  rewrite bind_unfold.
  erewrite (bind_Done (registered _ _)) by (by apply registered_spec).
  by rewrite bind_unfold.
Qed.

Lemma Frontend_frontend_call_unknown fuel a0 rest f fname w :
  frontend_register w !! a0 = None ->
  Frontend_frontend_call fuel f fname (a0 :: rest) w =
    CmdError ("No such frontend: " +:+ c_str a0 +:+ nl) w.
Proof.
  intros Hp. unfold Frontend_frontend_call.
  erewrite bind_Done by reflexivity.
  by rewrite (count_is_0_None _ _ Hp).
Qed.

End CallerLemmas.

Section FrontendCall.
Context {Netlist : Type} {host : Host Netlist} {cmds : Commands Netlist}.
Implicit Types (w : World Netlist).

Lemma Frontend_extra_args_direct this fp fname args argidx w :
  length args <= argidx ->
  Frontend_extra_args this (Some fp) fname args argidx w =
    Done (Some fp, fname) (set_next_args [] w).
Proof.
  intros Hlen. unfold Frontend_extra_args.
  rewrite (lookup_ge_None_2 _ _ Hlen). mred.
  by destruct args.
Qed.

Lemma virtual_execute_frontend fuel p o fn args w :
  objects w !! p = Some o -> kind o = FrontendPass fn ->
  virtual_execute fuel p args w = Frontend_execute fuel p args w.
Proof.
  intros Ho Hk. unfold virtual_execute, deref. mred. by rewrite Ho, Hk.
Qed.

(** X21.  Who closes the stream of a frontend called directly.  For a registered
    frontend without options of its own, called by its format name alone:
    with a stream of the caller, and with the filename [-] for the standard
    input, the handler runs on that stream, one invocation is counted (on
    the [int] that the counter is), the
    design is checked and the kernel closes nothing; with the path of a
    file that opens, the driver opens the file, closes it, one invocation
    is counted and the design is checked; with a path that does not open
    the call ends in a command error, the invocation counted, nothing
    logged and the design not checked; and without stream and filename the
    call never returns normally. *)
Theorem frontend_call_streams fuel (name : string) w p o fn :
  frontend_register w !! name = Some p ->
  objects w !! p = Some o ->
  kind o = FrontendPass fn ->
  frontend_without_options p ->
  design_check (design w) = true ->
  (forall fp fname,
     Frontend_frontend_call fuel (Some fp) fname [name] w =
       Done tt (add_event EvCheck (set_next_args [] (bumped p o w)))) /\
  Frontend_frontend_call fuel None "-" [name] w =
    Done tt (add_event EvCheck (set_next_args [] (bumped p o w))) /\
  (forall path h,
     path <> "" -> is_path path = true -> os_fopen (c_str path) "r" = Some h ->
     next_args w = [] -> 0 < fuel ->
     exists w',
       Frontend_frontend_call fuel None path [name] w = Done tt w' /\
       events w' = events w ++ [EvFclose (file_handle h); EvCheck] /\
       counter_of p w' = Some (wrap_int (call_counter o + 1)) /\
       design w' = design w) /\
  (forall path,
     path <> "" -> is_path path = true -> os_fopen (c_str path) "r" = None ->
     next_args w = [] -> 0 < fuel ->
     exists msg w1,
       Frontend_frontend_call fuel None path [name] w = CmdError msg w1 /\
       events w1 = events w /\
       counter_of p w1 = Some (wrap_int (call_counter o + 1))) /\
  (forall w', Frontend_frontend_call fuel None "" [name] w <> Done tt w').
Proof.
  intros Hp Ho Hk Hplain Hck. split_and!.
  - intros fp fname. rewrite (Frontend_frontend_call_stream _ _ _ _ _ _ p o) by done.
    rewrite bind_unfold, Hplain.
    erewrite bind_Done by (by apply Frontend_extra_args_direct).
    cbv beta iota delta [mret M_ret ret]. rewrite Design_check_spec.
    cbn [design set_next_args bumped set_objects]. by rewrite Hck.
  - rewrite (Frontend_frontend_call_stdin _ _ _ _ p o) by done.
    rewrite bind_unfold, Hplain.
    erewrite bind_Done by (by apply Frontend_extra_args_direct).
    cbv beta iota delta [mret M_ret ret]. rewrite Design_check_spec.
    cbn [design set_next_args bumped set_objects]. by rewrite Hck.
  - intros path h Hne Hpath Hopen Hna Hfuel.
    assert (String.eqb path "-" = false) as Hdash.
    { apply is_path_inv in Hpath as [H _]. by apply not_dash. }
    rewrite (Frontend_frontend_call_file _ _ _ _ _ p) by done.
    assert (String.eqb path "" = false) as -> by (by apply String.eqb_neq).
    cbn [negb app].
    rewrite bind_unfold, (virtual_execute_frontend _ _ o fn) by done.
    destruct (Frontend_execute_files p name [path] fuel w o) as [_ Hdone];
      try done.
    { constructor; [|done]. split; [done|]. by exists h. }
    destruct Hdone as (w2 & Hrun & Hev & Hcnt & _ & Hd); [simpl; lia|].
    rewrite Hrun, Design_check_spec, Hd, Hck.
    eexists. split; [reflexivity|]. simpl. rewrite Hev.
    rewrite (closes_cons _ _ _ Hopen). split_and!; try done.
    by rewrite <- app_assoc.
  - intros path Hne Hpath Hopen Hna Hfuel.
    assert (String.eqb path "-" = false) as Hdash.
    { apply is_path_inv in Hpath as [H _]. by apply not_dash. }
    rewrite (Frontend_frontend_call_file _ _ _ _ _ p) by done.
    assert (String.eqb path "" = false) as -> by (by apply String.eqb_neq).
    cbn [negb app].
    rewrite bind_unfold, (virtual_execute_frontend _ _ o fn) by done.
    unfold Frontend_execute.
    erewrite bind_Done by reflexivity.
    rewrite Hna, bool_decide_true by done. cbn [log_assert].
    rewrite ret_bind.
    destruct fuel as [|fuel]; [lia|]. cbn [Frontend_execute_loop].
    erewrite bind_Done by reflexivity.
    erewrite bind_Done by (by apply bump_call_counter_spec).
    apply is_path_inv in Hpath as [Hopt Hdoc].
    pose proof (Frontend_extra_args_path p "" [name] path []
                  (bumped p o (set_next_args [] w)) ltac:(done) Hopt Hdoc
                  ltac:(constructor)) as Hex.
    rewrite Hopen in Hex.
    rewrite bind_unfold, Hplain. rewrite bind_unfold.
    change ([name] ++ [path]) with [name; path] in Hex.
    change (length [name]) with 1 in Hex. rewrite Hex.
    eexists _, _. split; [reflexivity|]. split; [done|].
    unfold counter_of. cbn [objects set_next_args bumped set_objects].
    rewrite list_lookup_insert_eq by (by eapply lookup_lt_Some). done.
  - intros w' Hrun.
    rewrite (Frontend_frontend_call_file _ _ _ _ _ p) in Hrun by done.
    cbn [negb String.eqb] in Hrun.
    apply bind_Done_inv in Hrun as ([] & w1 & Hrun & _).
    rewrite (virtual_execute_frontend _ _ o fn) in Hrun by done.
    unfold Frontend_execute in Hrun.
    apply bind_Done_inv in Hrun as (na & w2 & _ & Hrun).
    apply bind_Done_inv in Hrun as ([] & w3 & _ & Hrun).
    destruct fuel as [|fuel]; [done|]. cbn [Frontend_execute_loop] in Hrun.
    apply bind_Done_inv in Hrun as ([] & w4 & _ & Hrun).
    apply bind_Done_inv in Hrun as ([] & w5 & _ & Hrun).
    apply bind_Done_inv in Hrun as (f' & w6 & Hrun & _).
    rewrite Hplain in Hrun.
    apply bind_Done_inv in Hrun as ([r fn'] & w7 & Hrun & _).
    by apply Frontend_extra_args_needs_source in Hrun as [arg Harg].
Qed.

End FrontendCall.

Section BackendCall.
Context {Netlist : Type} {host : Host Netlist} {cmds : Commands Netlist}.
Implicit Types (w : World Netlist).

Lemma Backend_backend_call_stream fuel a0 rest f fname w p o :
  backend_register w !! a0 = Some p ->
  objects w !! p = Some o ->
  f <> None ->
  Backend_backend_call fuel f fname (a0 :: rest) w =
    (backend_execute p f fname (a0 :: rest);;
     unwind_selection_stack (stack_depth w);;
     Design_check) (bumped p o w).
Proof.
  intros Hp Ho Hf. unfold Backend_backend_call.
  erewrite bind_Done by reflexivity.
  rewrite (count_is_0_Some _ _ _ Hp). cbn [when]. rewrite ret_bind.
  erewrite bind_Done by reflexivity.
  rewrite bool_decide_true by done.
  rewrite bind_unfold.
  erewrite (bind_Done (registered _ _)) by (by apply registered_spec).
  erewrite bind_Done by (by apply bump_call_counter_spec).
  erewrite bind_Done by (by apply registered_spec).
  rewrite (bind_unfold (backend_execute _ _ _ _)).
  rewrite (bind_unfold (backend_execute _ _ _ _) _ (bumped p o w)).
  by destruct (backend_execute _ _ _ _ _).
Qed.

Lemma Backend_backend_call_stdout fuel a0 rest w p o :
  backend_register w !! a0 = Some p ->
  objects w !! p = Some o ->
  Backend_backend_call fuel None "-" (a0 :: rest) w =
    (backend_execute p (Some stdout_) "<stdout>" (a0 :: rest);;
     unwind_selection_stack (stack_depth w);;
     Design_check) (bumped p o w).
Proof.
  intros Hp Ho. unfold Backend_backend_call.
  erewrite bind_Done by reflexivity.
  rewrite (count_is_0_Some _ _ _ Hp). cbn [when]. rewrite ret_bind.
  erewrite bind_Done by reflexivity.
  rewrite bool_decide_false by (intros H; by apply H).
  change (String.eqb "-" "-") with true. cbv iota.
  rewrite bind_unfold.
  erewrite (bind_Done (registered _ _)) by (by apply registered_spec).
  erewrite bind_Done by (by apply bump_call_counter_spec).
  erewrite bind_Done by (by apply registered_spec).
  rewrite (bind_unfold (backend_execute _ _ _ _)).
  rewrite (bind_unfold (backend_execute _ _ _ _) _ (bumped p o w)).
  by destruct (backend_execute _ _ _ _ _).
Qed.

Lemma Backend_backend_call_file fuel a0 rest fname w p :
  backend_register w !! a0 = Some p ->
  String.eqb fname "-" = false ->
  Backend_backend_call fuel None fname (a0 :: rest) w =
    (virtual_execute fuel p
       (if negb (String.eqb fname "") then (a0 :: rest) ++ [fname] else a0 :: rest);;
     unwind_selection_stack (stack_depth w);;
     Design_check) w.
Proof.
  intros Hp Hdash. unfold Backend_backend_call.
  erewrite bind_Done by reflexivity.
  rewrite (count_is_0_Some _ _ _ Hp). cbn [when]. rewrite ret_bind.
  erewrite bind_Done by reflexivity.
  rewrite bool_decide_false by (intros H; by apply H).
  rewrite Hdash. cbv zeta.
  rewrite bind_unfold.
  erewrite (bind_Done (registered _ _)) by (by apply registered_spec).
  by rewrite bind_unfold.
Qed.

Lemma Backend_backend_call_unknown fuel a0 rest f fname w :
  backend_register w !! a0 = None ->
  Backend_backend_call fuel f fname (a0 :: rest) w =
    CmdError ("No such backend: " +:+ c_str a0 +:+ nl) w.
Proof.
  intros Hp. unfold Backend_backend_call.
  erewrite bind_Done by reflexivity.
  by rewrite (count_is_0_None _ _ Hp).
Qed.

Lemma Backend_extra_args_direct this fp fname args argidx w :
  length args <= argidx ->
  Backend_extra_args this (Some fp) fname args argidx w = Done (Some fp, fname) w.
Proof.
  intros Hlen. unfold Backend_extra_args.
  rewrite drop_ge by done. mred. by destruct args.
Qed.

Lemma virtual_execute_backend fuel p o bn args w :
  objects w !! p = Some o -> kind o = BackendPass bn ->
  virtual_execute fuel p args w = Backend_execute p args w.
Proof.
  intros Ho Hk. unfold virtual_execute, deref. mred. by rewrite Ho, Hk.
Qed.

Lemma unwound_same w w1 :
  design w1 = design w -> unwound (stack_depth w) w1 = w1.
Proof.
  intros Hd. unfold unwound, stack_depth. rewrite <- Hd.
  rewrite unwind_take, firstn_all.
  by destruct w1 as [? ? ? ? ? ? ? ? ? [] ?].
Qed.

Lemma unwind_selection_stack_spec orig w :
  unwind_selection_stack orig w = Done tt (unwound orig w).
Proof. reflexivity. Qed.

(** X24.  Who closes the stream of a backend called directly.  For a registered
    backend without options of its own, called by its format name alone:
    with a stream of the caller, with the filename [-] and with no filename
    the kernel closes nothing; with the path of a file that opens, the
    driver opens the file and closes it.  In each of these cases one
    invocation is counted, the design is checked last and left as it was.
    With a path that does not open the call ends in a command error in the
    world in which the invocation is counted and nothing else has
    happened. *)
Theorem backend_call_streams fuel (name : string) w p o bn :
  backend_register w !! name = Some p ->
  objects w !! p = Some o ->
  kind o = BackendPass bn ->
  backend_without_options p ->
  design_check (design w) = true ->
  (forall fp fname,
     Backend_backend_call fuel (Some fp) fname [name] w =
       Done tt (add_event EvCheck (bumped p o w))) /\
  Backend_backend_call fuel None "-" [name] w =
    Done tt (add_event EvCheck (bumped p o w)) /\
  Backend_backend_call fuel None "" [name] w =
    Done tt (add_event EvCheck (bumped p o w)) /\
  (forall path h,
     path <> "" -> String.eqb (substr path 0 1) "-" = false ->
     os_fopen (c_str path) "w" = Some h ->
     Backend_backend_call fuel None path [name] w =
       Done tt (add_event EvCheck
                  (add_event (EvFclose (file_handle h)) (bumped p o w)))) /\
  (forall path,
     path <> "" -> String.eqb (substr path 0 1) "-" = false ->
     os_fopen (c_str path) "w" = None ->
     exists msg,
       Backend_backend_call fuel None path [name] w = CmdError msg (bumped p o w)).
Proof.
  intros Hp Ho Hk Hplain Hck.
  assert (forall e, design (add_event e (bumped p o w)) = design w) as Hd by done.
  split_and!.
  - intros fp fname. rewrite (Backend_backend_call_stream _ _ _ _ _ _ p o) by done.
    rewrite bind_unfold, Hplain.
    erewrite bind_Done by (by apply Backend_extra_args_direct).
    cbv beta iota delta [mret M_ret ret fst].
    rewrite bind_unfold, unwind_selection_stack_spec, unwound_same by done.
    rewrite Design_check_spec. cbn [design bumped set_objects]. by rewrite Hck.
  - rewrite (Backend_backend_call_stdout _ _ _ _ p o) by done.
    rewrite bind_unfold, Hplain.
    erewrite bind_Done by (by apply Backend_extra_args_direct).
    cbv beta iota delta [mret M_ret ret fst].
    rewrite bind_unfold, unwind_selection_stack_spec, unwound_same by done.
    rewrite Design_check_spec. cbn [design bumped set_objects]. by rewrite Hck.
  - rewrite (Backend_backend_call_file _ _ _ _ _ p) by done.
    cbn [negb String.eqb].
    rewrite bind_unfold, (virtual_execute_backend _ _ o bn) by done.
    unfold Backend_execute.
    erewrite bind_Done by (by apply bump_call_counter_spec).
    rewrite bind_unfold, Hplain.
    erewrite bind_Done by (by apply (Backend_extra_args_absent p "" [name])).
    cbv beta iota delta [mret M_ret ret fst].
    rewrite bool_decide_false by (intros H; by apply H).
    rewrite bind_unfold, unwind_selection_stack_spec, unwound_same by done.
    rewrite Design_check_spec. cbn [design bumped set_objects]. by rewrite Hck.
  - intros path h Hne Hopt Hopen.
    rewrite (Backend_backend_call_file _ _ _ _ _ p) by (try done; by apply not_dash).
    assert (String.eqb path "" = false) as -> by (by apply String.eqb_neq).
    cbn [negb app].
    rewrite bind_unfold, (virtual_execute_backend _ _ o bn) by done.
    unfold Backend_execute.
    erewrite bind_Done by (by apply bump_call_counter_spec).
    rewrite bind_unfold, Hplain.
    erewrite bind_Done by (by apply (Backend_extra_args_path p "" [name] path h)).
    cbv beta iota delta [mret M_ret ret fst].
    rewrite bool_decide_true by done.
    cbv beta iota delta [fclose modify].
    rewrite bind_unfold, unwind_selection_stack_spec, unwound_same by done.
    rewrite Design_check_spec. cbn [design bumped set_objects add_event]. by rewrite Hck.
  - intros path Hne Hopt Hopen.
    rewrite (Backend_backend_call_file _ _ _ _ _ p) by (try done; by apply not_dash).
    assert (String.eqb path "" = false) as -> by (by apply String.eqb_neq).
    cbn [negb app].
    rewrite bind_unfold, (virtual_execute_backend _ _ o bn) by done.
    unfold Backend_execute.
    erewrite bind_Done by (by apply bump_call_counter_spec).
    rewrite bind_unfold, Hplain. rewrite bind_unfold.
    rewrite (Backend_extra_args_unopened p "" [name] path) by done.
    eauto.
Qed.

(** X20.  The direct calls look the format up in the namespace of their kind
    and nowhere else.  A name that is not a registered format is a command
    error that leaves the world untouched: nothing is counted and the
    design is not checked.  An empty argument vector does nothing. *)
Theorem direct_calls_unknown_format fuel (f : option FILEp) (fname : string)
    (a0 : string) (rest : list string) w :
  Frontend_frontend_call fuel f fname [] w = Done tt w /\
  Backend_backend_call fuel f fname [] w = Done tt w /\
  (frontend_register w !! a0 = None ->
   Frontend_frontend_call fuel f fname (a0 :: rest) w =
     CmdError ("No such frontend: " +:+ c_str a0 +:+ nl) w) /\
  (backend_register w !! a0 = None ->
   Backend_backend_call fuel f fname (a0 :: rest) w =
     CmdError ("No such backend: " +:+ c_str a0 +:+ nl) w).
Proof.
  split_and!; [done|done| |].
  - apply Frontend_frontend_call_unknown.
  - apply Backend_backend_call_unknown.
Qed.

(** X22.  The direct calls and the selection stack.  A returning direct call of
    a backend leaves the selection stack no deeper than it found it, with
    the check as the last event, whatever the backend did.  The direct call
    of a frontend does not unwind: with a stream at hand it returns in the
    world its handler left, the check added, frames the handler pushed
    included. *)
Theorem direct_calls_and_selection_stack fuel (f : option FILEp)
    (fname : string) (a0 : string) (rest : list string) w :
  (forall w',
     Backend_backend_call fuel f fname (a0 :: rest) w = Done tt w' ->
     stack_depth w' <= stack_depth w /\ last (events w') = Some EvCheck) /\
  (forall p o fp f' w2,
     frontend_register w !! a0 = Some p ->
     objects w !! p = Some o ->
     frontend_execute p (Some fp) fname (a0 :: rest) (bumped p o w) = Done f' w2 ->
     design_check (design w2) = true ->
     Frontend_frontend_call fuel (Some fp) fname (a0 :: rest) w =
       Done tt (add_event EvCheck w2) /\
     stack_depth (add_event EvCheck w2) = stack_depth w2).
Proof.
  split.
  - intros w' Hrun. unfold Backend_backend_call in Hrun.
    apply bind_Done_inv in Hrun as (br & w1 & [= <- <-] & Hrun).
    apply bind_Done_inv in Hrun as ([] & w1 & Hwhen & Hrun).
    apply when_log_cmd_error_Done in Hwhen as [_ ->].
    apply bind_Done_inv in Hrun as (orig & w1 & [= <- <-] & Hrun).
    apply bind_Done_inv in Hrun as ([] & w2 & _ & Hrun).
    apply bind_Done_inv in Hrun as ([] & w3 & [= <-] & Hrun).
    rewrite Design_check_spec in Hrun.
    destruct (design_check _); [|done]. injection Hrun as <-.
    split.
    + fold (stack_depth w). fold (unwound (stack_depth w) w2).
      rewrite stack_depth_unwound. lia.
    + simpl. by rewrite last_snoc.
  - intros p o fp f' w2 Hp Ho Hex Hck.
    rewrite (Frontend_frontend_call_stream _ _ _ _ _ _ p o) by done.
    erewrite bind_Done by exact Hex.
    rewrite Design_check_spec, Hck. done.
Qed.

End BackendCall.

(** ** The scoped calls, shutdown *)

Section Scoped.
Context {Netlist : Type} {host : Host Netlist} {cmds : Commands Netlist}.
Implicit Types (w : World Netlist).

Lemma Pass_call_on_selection_spec fuel sel args w :
  Pass_call_on_selection fuel sel args w =
    (Pass_call fuel args;; pop_selection;; set_active_module (active_module w))
      (selected sel w).
Proof. reflexivity. Qed.

Lemma Pass_call_on_selection_string_spec fuel depth sel command w :
  Pass_call_on_selection_string fuel depth sel command w =
    (Pass_call_string fuel depth command;; pop_selection;;
     set_active_module (active_module w)) (selected sel w).
Proof. reflexivity. Qed.

Lemma Pass_call_on_module_spec fuel m args w :
  Pass_call_on_module fuel m args w =
    (Pass_call fuel args;; pop_selection;; set_active_module (active_module w))
      (entered m w).
Proof.
  unfold Pass_call_on_module, set_active_module, push_selection,
    select_in_back. mred. simpl.
  destruct (selection_stack (design w) ++ [Selection_ctor false]) eqn:E.
  { by destruct (selection_stack (design w)). }
  rewrite <- E.
  cbn [selection_stack design set_design set_selection_stack
       set_selected_active_module selected_active_module netlist].
  rewrite removelast_last, last_last. reflexivity.
Qed.


(** A command error of the inner call ends the scoped call where it was
    raised. *)
Lemma scoped_CmdError (inner : M Netlist unit) (restore : string) w0 msg w1 :
  inner w0 = CmdError msg w1 ->
  (inner;; pop_selection;; set_active_module restore) w0 = CmdError msg w1.
Proof. intros H. by rewrite bind_unfold, H. Qed.

End Scoped.

Section ScopedClaims.
Context {Netlist : Type} {host : Host Netlist} {cmds : Commands Netlist}.
Implicit Types (w : World Netlist).



(** X14.  The scoped calls do not clean up after a command error.  A command
    error of the inner call ends the wrapper where it was raised: the frame
    the wrapper pushed is not popped and the active module is not
    restored.  With a command name that is not registered, the process is
    left with the module of the call active and the stack one frame deeper
    than before the call. *)
Theorem scoped_call_error_leaves_scope fuel depth (m : Module_) (sel : Selection) w :
  (forall args msg w1,
     Pass_call fuel args (entered m w) = CmdError msg w1 ->
     Pass_call_on_module fuel m args w = CmdError msg w1) /\
  (forall command msg w1,
     Pass_call_string fuel depth command (entered m w) = CmdError msg w1 ->
     Pass_call_on_module_string fuel depth m command w = CmdError msg w1) /\
  (forall args msg w1,
     Pass_call fuel args (selected sel w) = CmdError msg w1 ->
     Pass_call_on_selection fuel sel args w = CmdError msg w1) /\
  (forall command msg w1,
     Pass_call_string fuel depth command (selected sel w) = CmdError msg w1 ->
     Pass_call_on_selection_string fuel depth sel command w = CmdError msg w1) /\
  (forall name rest,
     at_ name 0 <> Some "#"%char ->
     pass_register w !! name = None ->
     exists msg w1,
       Pass_call_on_module fuel m (name :: rest) w = CmdError msg w1 /\
       active_module w1 = module_name m /\
       stack_depth w1 = S (stack_depth w)).
Proof.
  split_and!.
  - intros args msg w1 H. rewrite Pass_call_on_module_spec. by apply scoped_CmdError.
  - intros command msg w1 H. rewrite enter_module_spec. by apply scoped_CmdError.
  - intros args msg w1 H. rewrite Pass_call_on_selection_spec. by apply scoped_CmdError.
  - intros command msg w1 H. rewrite Pass_call_on_selection_string_spec.
    by apply scoped_CmdError.
  - intros name rest Hc Hp.
    do 2 eexists. split.
    + rewrite Pass_call_on_module_spec. apply scoped_CmdError.
      by apply Pass_call_unresolved.
    + destruct (echoed_fields (name :: rest) (entered m w)) as (_ & _ & Hd & _).
      unfold active_module, stack_depth. rewrite Hd. simpl.
      rewrite length_app. simpl. split; [done|lia].
Qed.

End ScopedClaims.

Section Shutdown.
Context {Netlist : Type} {host : Host Netlist} {cmds : Commands Netlist}.
Implicit Types (w : World Netlist) (ds : list Decl).

Lemma Pass_done_register_spec w :
  Pass_done_register w =
    match first_queued_pass w with
    | None =>
        Done tt (set_backend_register ∅ (set_pass_register ∅
                   (set_frontend_register ∅ w)))
    | Some _ => Fatal "Assert `first_queued_pass == NULL' failed."
    end.
Proof.
  unfold Pass_done_register. mred. simpl.
  destruct (first_queued_pass w); [by rewrite bool_decide_false|].
  by rewrite bool_decide_true.
Qed.

Lemma construct_all_queue ds : forall w,
  ds <> [] ->
  exists w' p, construct_all ds w = Done tt w' /\ first_queued_pass w' = Some p.
Proof.
  induction ds as [|d ds IH]; intros w Hne; [done|].
  cbn [construct_all]. erewrite bind_Done by apply construct_spec.
  destruct ds as [|d' ds].
  - eexists _, _. split; [reflexivity|]. reflexivity.
  - by apply IH.
Qed.

(** X1.  Start-up and shutdown.  After the declared objects (with names distinct
    in each namespace) are constructed and registered, [init_register]
    again does nothing; [done_register] then returns with the three
    registries empty and the objects still in place, so that every command
    name is unknown to the dispatcher, which raises the command error that
    shows the name as [%s] prints it from [c_str()].  [done_register] on
    objects that were constructed but never registered is fatal. *)
Theorem done_register_after_init ds (d0 : Design Netlist) (fuel : nat) :
  NoDup (decl_pass_name <$> ds) ->
  NoDup (omap decl_frontend_name ds) ->
  NoDup (omap decl_backend_name ds) ->
  length ds <= fuel ->
  (exists w1 w',
     (construct_all ds;; Pass_init_register fuel) (empty_world d0) = Done tt w1 /\
     (forall n, Pass_init_register n w1 = Done tt w1) /\
     (construct_all ds;; Pass_init_register fuel;; Pass_done_register)
       (empty_world d0) = Done tt w' /\
     pass_register w' = ∅ /\ frontend_register w' = ∅ /\ backend_register w' = ∅ /\
     objects w' = objects w1 /\ length (objects w') = length ds /\
     (forall fuel' name rest,
        at_ name 0 <> Some "#"%char ->
        Pass_call fuel' (name :: rest) w' =
          CmdError ("No such command: " +:+ c_str name +:+
                    " (type 'help' for a command overview)" +:+ nl) w')) /\
  (ds <> [] ->
   (construct_all ds;; Pass_done_register) (empty_world d0) =
     Fatal "Assert `first_queued_pass == NULL' failed.").
Proof.
  intros Hp Hf Hb Hfuel. split.
  - destruct (startup_registers ds d0 fuel Hp Hf Hb Hfuel)
      as (w1 & Hrun & [Hlen _] & Hq & _ & Hecho & _ & _).
    exists w1. eexists. split_and!.
    + exact Hrun.
    + intros n. destruct n; simpl; mred; by rewrite Hq.
    + rewrite bind_unfold.
      apply bind_Done_inv in Hrun as ([] & w0 & Hc & Hi).
      rewrite Hc. rewrite bind_unfold, Hi.
      rewrite Pass_done_register_spec, Hq. reflexivity.
    + done.
    + done.
    + done.
    + done.
    + simpl. exact Hlen.
    + intros fuel' name rest Hc.
      rewrite Pass_call_unresolved by done.
      unfold echoed. simpl. by rewrite Hecho.
  - intros Hne.
    destruct (construct_all_queue ds (empty_world d0) Hne) as (w' & p & Hc & Hq).
    rewrite bind_unfold, Hc, Pass_done_register_spec, Hq. done.
Qed.

End Shutdown.

Section CallStrings.
Context {Netlist : Type} {host : Host Netlist} {cmds : Commands Netlist}.
Implicit Types (w : World Netlist).

(** X19.  The string forms of the direct calls split the command at blanks and do
    nothing else to it: on words joined by single blanks they are the
    vector forms on the words, whether or not a word is a hash or ends in
    semicolons. *)
Theorem direct_call_strings fuel (f : option FILEp) (fname : string)
    (ws : list string) w :
  Forall (fun x => is_word x = true) ws ->
  Frontend_frontend_call_string fuel f fname (unwords ws) w =
    Frontend_frontend_call fuel f fname ws w /\
  Backend_backend_call_string fuel f fname (unwords ws) w =
    Backend_backend_call fuel f fname ws w.
Proof.
  intros Hws. unfold Frontend_frontend_call_string, Backend_backend_call_string.
  rewrite c_str_no_nul by (by apply unwords_no_nul).
  by rewrite tokens_unwords.
Qed.

End CallStrings.

(** ** The argument check of plain passes and the echo *)

Section BuiltinClaims.
Context {Netlist : Type} {host : Host Netlist} {cmds : Commands Netlist}
        {select_args : SelectArgs Netlist}.
Implicit Types (w : World Netlist).

(** X4.  The argument check of a plain pass.  A pass that takes no selection
    returns from [extra_args] exactly when no argument is left, and then
    has changed nothing.  An option where the extra arguments start is a
    syntax error, whether or not the pass takes a selection.  Otherwise the
    arguments from [argidx] to the end are handed to the selection handler,
    once. *)
Theorem Pass_extra_args_contract (this : ptr) (args : list string) (argidx : nat) w :
  (forall w',
     Pass_extra_args this args argidx false w = Done tt w' <->
     length args <= argidx /\ w' = w) /\
  (forall select arg w',
     args !! argidx = Some arg ->
     String.eqb (substr arg 0 1) "-" = true ->
     Pass_extra_args this args argidx select w <> Done tt w') /\
  (forall arg,
     args !! argidx = Some arg ->
     String.eqb (substr arg 0 1) "-" = false ->
     Pass_extra_args this args argidx true w =
       handle_extra_select_args this args argidx (length args) w).
Proof.
  split_and!.
  - intros w'. unfold Pass_extra_args. split.
    + destruct (args !! argidx) as [arg|] eqn:Harg.
      * intros Hrun.
        apply bind_Done_inv in Hrun as ([] & w1 & _ & Hrun).
        apply bind_Done_inv in Hrun as ([] & w2 & Hwhen & _).
        by apply when_cmd_error_Done in Hwhen as [? _].
      * intros [= <-]. split; [|done]. by apply lookup_ge_None.
    + intros [Hlen ->]. by rewrite (lookup_ge_None_2 _ _ Hlen).
  - intros select arg w' Harg Hopt Hrun. unfold Pass_extra_args in Hrun.
    rewrite Harg, Hopt in Hrun.
    apply bind_Done_inv in Hrun as ([] & w1 & Hwhen & _).
    by apply when_cmd_error_Done in Hwhen as [? _].
  - intros arg Harg Hopt. unfold Pass_extra_args. by rewrite Harg, Hopt.
Qed.

(** X27.  The built-in [echo].  With [on] or [off] as its one argument it sets
    the echo mode accordingly and logs the new state; without argument it
    logs the state and changes nothing; the echo mode is all it ever
    changes besides the log.  It returns in no other case: any other
    argument, and any second argument, is a syntax error. *)
Theorem EchoPass_execute_contract (this : ptr) (args : list string) w :
  (forall cmd,
     EchoPass_execute this [cmd; "on"] w =
       Done tt (add_event (EvLog ("echo on" +:+ nl)) (set_echo_mode true w)) /\
     EchoPass_execute this [cmd; "off"] w =
       Done tt (add_event (EvLog ("echo off" +:+ nl)) (set_echo_mode false w)) /\
     EchoPass_execute this [cmd] w =
       Done tt (add_event
                  (EvLog ("echo " +:+ (if echo_mode w then "on" else "off") +:+ nl))
                  w)) /\
  (forall w',
     EchoPass_execute this args w = Done tt w' ->
     (length args <= 1 /\ echo_mode w' = echo_mode w \/
      exists cmd, args = [cmd; "on"] /\ echo_mode w' = true \/
                  args = [cmd; "off"] /\ echo_mode w' = false) /\
     set_echo_mode (echo_mode w) w' =
       add_event (EvLog ("echo " +:+ (if echo_mode w' then "on" else "off") +:+ nl))
         w).
Proof.
  split.
  - intros cmd. split_and!; reflexivity.
  - intros w' Hrun. unfold EchoPass_execute in Hrun.
    apply bind_Done_inv in Hrun as ([] & w1 & Hwhen & Hrun).
    apply when_cmd_error_Done in Hwhen as [Hlen ->].
    apply Nat.ltb_ge in Hlen.
    apply bind_Done_inv in Hrun as ([] & w1 & Hset & Hrun).
    apply bind_Done_inv in Hrun as (em & w2 & [= <- <-] & Hrun).
    injection Hrun as <-.
    destruct (length args =? 2)%nat eqn:H2.
    + apply Nat.eqb_eq in H2.
      destruct args as [|cmd [|a1 [|a2 args]]]; try done.
      cbn [lookup list_lookup] in Hset.
      destruct (String.eqb_spec a1 "on") as [->|_].
      { injection Hset as <-. split; [|by destruct w]. right. exists cmd. by left. }
      destruct (String.eqb_spec a1 "off") as [->|_].
      { injection Hset as <-. split; [|by destruct w]. right. exists cmd. by right. }
      by apply Pass_cmd_error_not_Done in Hset.
    + injection Hset as <-. apply Nat.eqb_neq in H2.
      split; [|by destruct w]. left. split; [lia|done].
Qed.

End BuiltinClaims.

Section EchoMode.
Context {Netlist : Type} {host : Host Netlist} {cmds : Commands Netlist}.
Implicit Types (w : World Netlist).

Lemma log_text_app evs1 evs2 :
  log_text (evs1 ++ evs2) = log_text evs1 +:+ log_text evs2.
Proof.
  induction evs1 as [|e evs1 IH]; [done|].
  destruct e; simpl; rewrite IH; try done. by rewrite append_assoc.
Qed.

Lemma log_text_args_spaced args : forall i,
  log_text (log_args_events (S i) args) =
    fold_right (fun a r => " " +:+ a +:+ r) "" (map c_str args).
Proof.
  induction args as [|a args IH]; intros i; [done|].
  cbn [log_args_events log_text fold_right map]. rewrite IH.
  change (0 <? S i)%nat with true. cbv iota. by rewrite append_assoc.
Qed.

Lemma log_text_args args :
  log_text (log_args_events 0 args) = unwords (map c_str args).
Proof.
  destruct args as [|a args]; [done|].
  cbn [log_args_events log_text map].
  rewrite log_text_args_spaced, unwords_spaced.
  done.
Qed.

Lemma map_c_str_free args :
  Forall (fun a => all_chars (fun c => negb (Ascii.eqb c NUL)) a = true) args ->
  map c_str args = args.
Proof.
  induction 1 as [|a args Ha _ IH]; [done|].
  cbn [map]. by rewrite IH, c_str_no_nul.
Qed.

Lemma drop_events_app w evs : drop (length (events w)) (events w ++ evs) = evs.
Proof. by rewrite drop_app_length. Qed.

(** X10.  The echo of the dispatcher.  The dispatch of a command that is not a
    comment starts by echoing it: the lookup of the command name, and all
    that follows, happens in the world [echoed args w].  With the echo mode
    on, the text logged up to there is the prompt, the arguments joined by
    single blanks and a newline, the prompt and each argument as [%s]
    prints it, that is up to its first NUL if it has one; with the echo
    mode off nothing is logged.  The echo leaves all but the log as it
    was. *)
Theorem dispatch_echoes_command_line fuel (a0 : string) (rest : list string) w :
  at_ a0 0 <> Some "#"%char ->
  let args := a0 :: rest in
  (forall p, pass_register w !! a0 = Some p ->
     Pass_call fuel args w =
       dispatch_resolved fuel p args (stack_depth w) (echoed args w)) /\
  (pass_register w !! a0 = None ->
     Pass_call fuel args w =
       CmdError ("No such command: " +:+ c_str a0 +:+
                 " (type 'help' for a command overview)" +:+ nl) (echoed args w)) /\
  (exists evs,
     echoed args w = add_events evs w /\
     log_text evs =
       if echo_mode w
       then c_str (create_prompt (design w)) +:+ unwords (map c_str args) +:+ nl
       else "") /\
  (Forall (fun a => all_chars (fun c => negb (Ascii.eqb c NUL)) a = true) args ->
   map c_str args = args).
Proof.
  intros Hc args. split_and!.
  - intros p Hp. by apply Pass_call_resolved.
  - intros Hp. by apply Pass_call_unresolved.
  - unfold echoed. destruct (echo_mode w).
    + eexists. split; [reflexivity|].
      cbn [log_text]. by rewrite log_text_app, log_text_args.
    + exists []. split; [|done]. unfold add_events. rewrite app_nil_r.
      by destruct w.
  - apply map_c_str_free.
Qed.

(** X28.  Switching the echo through the dispatcher.  Where the command [echo] is
    registered with [EchoPass::execute] as its [execute], the dispatch of
    [echo on] or [echo off] returns with the echo mode set accordingly and
    the design as it was, counted once on the [int] that the counter is;
    what it logs is the new state, preceded by the echo of the command
    itself when the mode was on before: [echo off] issued in echo mode is
    echoed, [echo on] issued outside is not. *)
Theorem echo_through_dispatcher fuel (b : bool) w p o :
  pass_register w !! "echo" = Some p ->
  objects w !! p = Some o ->
  kind o = PlainPass ->
  (forall args w, pass_execute p args w = EchoPass_execute p args w) ->
  design_check (design w) = true ->
  let word := if b then "on" else "off" in
  exists w',
    Pass_call fuel ["echo"; word] w = Done tt w' /\
    echo_mode w' = b /\
    design w' = design w /\
    counter_of p w' = Some (wrap_int (call_counter o + 1)) /\
    exists evs,
      events w' = events w ++ evs ++ [EvCheck] /\
      log_text evs =
        (if echo_mode w
         then c_str (create_prompt (design w)) +:+ "echo " +:+ word +:+ nl
         else "") +:+
        "echo " +:+ word +:+ nl.
Proof.
  intros Hp Ho Hk Hexec Hck word.
  destruct (echoed_fields ["echo"; word] w) as (Hobj & _ & Hd & _).
  assert (objects (echoed ["echo"; word] w) !! p = Some o) as Ho'
    by (by rewrite Hobj).
  assert (virtual_execute fuel p ["echo"; word]
            (bumped p o (echoed ["echo"; word] w)) =
          Done tt (add_event (EvLog ("echo " +:+ word +:+ nl))
                     (set_echo_mode b (bumped p o (echoed ["echo"; word] w)))))
    as Hex.
  { unfold virtual_execute, deref. mred.
    cbn [objects bumped set_objects].
    rewrite list_lookup_insert_eq by (by eapply lookup_lt_Some).
    cbn [kind]. rewrite Hk, Hexec. subst word. by destruct b. }
  assert (at_ "echo" 0 <> Some "#"%char) as Hc by (by vm_compute).
  rewrite (Pass_call_returns _ _ _ _ p o _ Hc Hp Ho Hex).
  rewrite unwound_same by (by rewrite <- Hd).
  cbn [design add_event set_echo_mode bumped set_objects]. rewrite Hd, Hck.
  eexists. split; [reflexivity|].
  split; [reflexivity|]. split; [exact Hd|]. split.
  - unfold counter_of. cbn [objects add_event set_echo_mode bumped set_objects].
    rewrite list_lookup_insert_eq by (by eapply lookup_lt_Some). reflexivity.
  - cbn [events add_event set_echo_mode bumped set_objects].
    unfold echoed. destruct (echo_mode w).
    + exists ((EvLog (c_str (create_prompt (design w)))
               :: log_args_events 0 ["echo"; word] ++ [EvLog nl]) ++
              [EvLog ("echo " +:+ word +:+ nl)]). split.
      * unfold add_events. cbn [events]. by rewrite <- !app_assoc.
      * rewrite log_text_app. cbn [log_text]. rewrite log_text_app, log_text_args.
        assert (map c_str ["echo"; word] = ["echo"; word]) as ->
          by (subst word; by destruct b).
        cbn [log_text unwords]. rewrite !append_nil_r, !append_assoc. reflexivity.
    + exists [EvLog ("echo " +:+ word +:+ nl)]. split.
      * rewrite <- app_assoc. reflexivity.
      * cbn [log_text]. rewrite append_nil_r. reflexivity.
Qed.

End EchoMode.

(** ** The escaping *)

Section EscapeLemmas.

Lemma find_from_append p pre rest :
  find_from p (pre +:+ rest) (String.length pre) =
    (fun i => String.length pre + i) <$> find_from p rest 0.
Proof.
  induction pre as [|c pre IH].
  - change ("" +:+ rest) with rest. simpl. by destruct (find_from p rest 0).
  - rewrite append_cons. cbn [String.length find_from]. rewrite IH.
    by destruct (find_from p rest 0).
Qed.

Lemma find_from_None p s :
  find_from p s 0 = None -> all_chars (fun c => negb (p c)) s = true.
Proof.
  induction s as [|c s IH]; [done|]. simpl.
  destruct (p c); [done|]. destruct (find_from p s 0); [done|].
  intros _. by apply IH.
Qed.

Lemma find_from_Some p s i :
  find_from p s 0 = Some i ->
  exists a c b,
    s = a +:+ String c b /\ String.length a = i /\
    all_chars (fun c => negb (p c)) a = true /\ p c = true.
Proof.
  revert i. induction s as [|c s IH]; intros i; [done|]. simpl.
  destruct (p c) eqn:Hc.
  - intros [= <-]. by exists "", c, s.
  - destruct (find_from p s 0) as [j|]; [|done]. intros [= <-].
    destruct (IH j eq_refl) as (a & c' & b & -> & Hlen & Ha & Hc').
    exists (String c a), c', b. rewrite append_cons. simpl.
    rewrite Hlen, Hc, Ha. done.
Qed.

Lemma substr_from_append pre s n :
  substr_from (pre +:+ s) (String.length pre + n) = substr_from s n.
Proof. induction pre as [|c pre IH]; [done|]. rewrite append_cons. exact IH. Qed.

Lemma replace_middle pre a c b r :
  replace (pre +:+ a +:+ String c b) (String.length pre + String.length a) 1 r =
    (pre +:+ a +:+ r) +:+ b.
Proof.
  unfold replace, substr.
  rewrite <- !append_assoc, <- length_append.
  rewrite substring_append_l.
  rewrite <- (Nat.add_0_r (String.length (pre +:+ a))) at 1.
  rewrite <- Nat.add_assoc, substr_from_append. simpl.
  by rewrite !append_assoc.
Qed.

Lemma at_middle pre a c b :
  at_ (pre +:+ a +:+ String c b) (String.length pre + String.length a) = Some c.
Proof.
  unfold at_. rewrite <- append_assoc, <- length_append.
  rewrite <- (Nat.add_0_r (String.length (pre +:+ a))).
  by rewrite get_append_r.
Qed.

Lemma escaped_append tab s t : escaped tab (s +:+ t) = escaped tab s +:+ escaped tab t.
Proof.
  induction s as [|c s IH]; [done|]. rewrite append_cons. simpl.
  by rewrite IH, append_assoc.
Qed.

Lemma escaped_plain tab s :
  all_chars (fun c => negb (bool_decide (is_Some (tab c)))) s = true ->
  escaped tab s = s.
Proof.
  induction s as [|c s IH]; [done|]. simpl.
  intros [Hc Hs]%andb_prop. rewrite IH by done.
  apply negb_true_iff, bool_decide_eq_false in Hc.
  destruct (tab c); [|done]. by destruct Hc.
Qed.

Lemma escape_tex_loop_spec fuel : forall rest pre,
  String.length rest <= fuel ->
  escape_tex_loop fuel (pre +:+ rest) (String.length pre) =
    Some (pre +:+ escaped tex_sequence rest).
Proof.
  induction fuel as [|fuel IH]; intros rest pre Hlen.
  - destruct rest; [|simpl in Hlen; lia]. simpl.
    rewrite find_from_append. done.
  - cbn [escape_tex_loop]. rewrite find_from_append.
    destruct (find_from (Ascii.eqb "_") rest 0) as [i|] eqn:Hfind.
    + apply find_from_Some in Hfind as (a & c & b & -> & <- & Ha & Hc).
      apply Ascii.eqb_eq in Hc as <-.
      cbn [fmap option_fmap option_map].
      rewrite replace_middle.
      replace (String.length pre + String.length a + 2) with
        (String.length (pre +:+ a +:+ String backslash "_"))
        by (rewrite !length_append; simpl; lia).
      rewrite IH.
      * rewrite escaped_append. cbn [escaped].
        rewrite (escaped_plain tex_sequence a); last first.
        { eapply all_chars_impl; [|exact Ha]. intros c Hc.
          apply negb_true_iff in Hc. unfold tex_sequence.
          rewrite Ascii.eqb_sym, Hc. done. }
        by rewrite !append_assoc.
      * rewrite length_append in Hlen. simpl in Hlen. lia.
    + apply find_from_None in Hfind. simpl.
      rewrite escaped_plain; [done|].
      eapply all_chars_impl; [|exact Hfind]. intros c Hc.
      apply negb_true_iff in Hc. unfold tex_sequence.
      rewrite Ascii.eqb_sym, Hc. done.
Qed.

Lemma html_plain a :
  all_chars (fun c => negb (mem_char c ["<"; ">"; "&"]%char)) a = true ->
  escaped html_sequence a = a.
Proof.
  intros Ha. apply escaped_plain.
  eapply all_chars_impl; [|exact Ha]. intros c Hc.
  apply negb_true_iff in Hc. unfold mem_char in Hc. cbn [existsb] in Hc.
  apply orb_false_elim in Hc as [H1 Hc].
  apply orb_false_elim in Hc as [H2 Hc].
  apply orb_false_elim in Hc as [H3 _].
  unfold html_sequence. by rewrite H1, H2, H3.
Qed.

Lemma escape_html_loop_spec fuel : forall rest pre,
  String.length rest <= fuel ->
  escape_html_loop fuel (pre +:+ rest) (String.length pre) =
    Some (pre +:+ escaped html_sequence rest).
Proof.
  induction fuel as [|fuel IH]; intros rest pre Hlen.
  - destruct rest; [|simpl in Hlen; lia]. simpl.
    rewrite find_from_append. done.
  - cbn [escape_html_loop]. rewrite find_from_append.
    destruct (find_from _ rest 0) as [i|] eqn:Hfind.
    + apply find_from_Some in Hfind as (a & c & b & -> & <- & Ha & Hc).
      cbn [fmap option_fmap option_map].
      rewrite at_middle.
      rewrite escaped_append. cbn [escaped]. rewrite (html_plain a Ha).
      rewrite length_append in Hlen. simpl in Hlen.
      unfold mem_char in Hc. cbn [existsb] in Hc.
      destruct (Ascii.eqb_spec c "<") as [->|H1];
        [|destruct (Ascii.eqb_spec c ">") as [->|H2];
          [|destruct (Ascii.eqb_spec c "&") as [->|H3]; [|done]]].
      * rewrite replace_middle.
        replace (String.length pre + String.length a + 4) with
          (String.length (pre +:+ a +:+ "&lt;"))
          by (rewrite !length_append; simpl; lia).
        rewrite IH by lia. cbn. by rewrite !append_assoc.
      * rewrite replace_middle.
        replace (String.length pre + String.length a + 4) with
          (String.length (pre +:+ a +:+ "&gt;"))
          by (rewrite !length_append; simpl; lia).
        rewrite IH by lia. cbn. by rewrite !append_assoc.
      * rewrite replace_middle.
        replace (String.length pre + String.length a + 5) with
          (String.length (pre +:+ a +:+ "&amp;"))
          by (rewrite !length_append; simpl; lia).
        rewrite IH by lia. cbn. by rewrite !append_assoc.
    + apply find_from_None in Hfind. simpl. by rewrite html_plain.
Qed.

End EscapeLemmas.

Section EscapeClaims.

Lemma escaped_tex_cons c s :
  escaped tex_sequence (String c s) =
    if Ascii.eqb c "_" then String backslash (String "_" (escaped tex_sequence s))
    else String c (escaped tex_sequence s).
Proof. cbn [escaped]. unfold tex_sequence at 1. by destruct (Ascii.eqb c "_"). Qed.

(** X25.  [escape_tex] ends within one round for each character and puts a
    backslash before each underscore, changing nothing else: the result is
    one character longer for each underscore of the text, every underscore
    in it stands behind a backslash, and a text without underscore is
    returned as it is. *)
Theorem escape_tex_spec (tex : string) :
  escape_tex tex = Some (escaped tex_sequence tex) /\
  String.length (escaped tex_sequence tex) =
    String.length tex + count_chars (Ascii.eqb "_") tex /\
  (forall prev, underscores_escaped prev (escaped tex_sequence tex) = true) /\
  (count_chars (Ascii.eqb "_") tex = 0 -> escape_tex tex = Some tex).
Proof.
  assert (escape_tex tex = Some (escaped tex_sequence tex)) as Hspec.
  { unfold escape_tex. apply (escape_tex_loop_spec _ tex ""). lia. }
  split_and!.
  - exact Hspec.
  - clear Hspec. induction tex as [|c tex IH]; [done|].
    rewrite escaped_tex_cons. cbn [count_chars]. rewrite (Ascii.eqb_sym "_" c).
    destruct (Ascii.eqb c "_"); cbn [String.length]; lia.
  - clear Hspec. induction tex as [|c tex IH]; intros prev; [done|].
    rewrite escaped_tex_cons. destruct (Ascii.eqb c "_") eqn:Hc.
    + cbn [underscores_escaped]. rewrite IH.
      change (Ascii.eqb backslash "_") with false.
      change (Ascii.eqb "_" "_") with true.
      change (Ascii.eqb backslash backslash) with true. done.
    + cbn [underscores_escaped]. by rewrite Hc, IH.
  - intros Hcount. rewrite Hspec. f_equal. clear Hspec.
    induction tex as [|c tex IH]; [done|]. rewrite escaped_tex_cons.
    cbn [count_chars] in Hcount. rewrite (Ascii.eqb_sym c "_").
    destruct (Ascii.eqb "_" c); [done|]. by rewrite IH.
Qed.

(** X26.  [escape_html] ends within one round for each character and replaces
    each [<], [>] and [&] by its entity, changing nothing else: no [<] and
    no [>] is left in the result, and a text without these three characters
    is returned as it is. *)
Theorem escape_html_spec (html : string) :
  escape_html html = Some (escaped html_sequence html) /\
  all_chars (fun c => negb (mem_char c ["<"; ">"]%char))
    (escaped html_sequence html) = true /\
  (all_chars (fun c => negb (mem_char c ["<"; ">"; "&"]%char)) html = true ->
   escape_html html = Some html).
Proof.
  assert (escape_html html = Some (escaped html_sequence html)) as Hspec.
  { unfold escape_html. apply (escape_html_loop_spec _ html ""). lia. }
  split_and!.
  - exact Hspec.
  - clear Hspec. induction html as [|c html IH]; [done|].
    cbn [escaped]. rewrite all_chars_append, IH, andb_true_r.
    unfold html_sequence.
    destruct (Ascii.eqb_spec c "<") as [->|H1]; [done|].
    destruct (Ascii.eqb_spec c ">") as [->|H2]; [done|].
    destruct (Ascii.eqb_spec c "&") as [->|H3]; [done|].
    cbn. apply Ascii.eqb_neq in H1, H2. by rewrite H1, H2.
  - intros Hplain. rewrite Hspec. by rewrite html_plain.
Qed.

End EscapeClaims.

(** ** Sources of a frontend, counting of a backend *)

Section HereDocErrors.
Context {Netlist : Type} {host : Host Netlist}.
Implicit Types (w : World Netlist).

Lemma heredoc_read_unterminated filename marker : forall lines fuel w,
  Forall (fun l => is_text_line l = true /\ marker_at marker l = Some false) lines ->
  length lines < fuel ->
  current_script_file w = Some (concat_lines lines) ->
  heredoc_read fuel filename marker w =
    Fatal ("Unexpected end of file in here document '" +:+ c_str filename +:+
           "'!" +:+ nl).
Proof.
  induction lines as [|l lines IH]; intros fuel w Hlines Hfuel Hs.
  - destruct fuel as [|fuel]; [simpl in Hfuel; lia|].
    cbn [heredoc_read heredoc_read_buffer]. mred. by rewrite Hs.
  - destruct fuel as [|fuel]; [simpl in Hfuel; lia|].
    apply Forall_cons in Hlines as [[Hl1 Hl2] Hlines].
    cbn [heredoc_read]. simpl in Hs.
    rewrite (bind_Done _ _ _ _ _ (heredoc_read_buffer_line _ filename _ _ _ Hl1 Hs)).
    unfold marker_at in Hl2.
    destruct (find_first_not_of l blanks) as [indent|]; [|done].
    simpl in Hl2. injection Hl2 as ->. mred.
    apply IH; try done. simpl in Hfuel. lia.
Qed.

Lemma substr_heredoc marker : substr ("<<" +:+ marker) 0 2 = "<<".
Proof. by destruct marker. Qed.

Lemma here_document_open filename w f w1 :
  here_document filename w = Done f w1 -> f <> None.
Proof.
  unfold here_document. intros Hdoc ->.
  apply bind_Done_inv in Hdoc as (? & ? & _ & Hdoc).
  apply bind_Done_inv in Hdoc as (? & ? & _ & Hdoc).
  apply bind_Done_inv in Hdoc as (? & ? & _ & Hdoc).
  apply bind_Done_inv in Hdoc as (? & ? & _ & Hdoc).
  apply bind_Done_inv in Hdoc as (? & ? & _ & Hdoc).
  apply bind_Done_inv in Hdoc as (? & ? & _ & Hdoc). done.
Qed.

Lemma Frontend_extra_args_heredoc this fname pre marker w :
  Frontend_extra_args this None fname (pre ++ ["<<" +:+ marker]) (length pre) w =
    (f ← here_document ("<<" +:+ marker); mret (f, "<<" +:+ marker))
      (set_next_args [] w).
Proof.
  unfold Frontend_extra_args.
  rewrite list_lookup_middle by done.
  assert (String.eqb (substr ("<<" +:+ marker) 0 1) "-" = false) as -> by done.
  rewrite bool_decide_false by (intros H; by apply H).
  assert ((length pre + 1 <? length (pre ++ ["<<" +:+ marker]))%nat = false) as Hlt.
  { apply Nat.ltb_ge. rewrite length_app. simpl. lia. }
  rewrite Hlt, andb_false_r, substr_heredoc.
  change (String.eqb "<<" "<<") with true.
  rewrite drop_ge by (rewrite length_app; simpl; lia).
  mred.
  destruct (here_document ("<<" +:+ marker) (set_next_args [] w))
    as [f w1| | | |] eqn:Hdoc; try done.
  apply here_document_open in Hdoc.
  destruct f as [f|]; [|done].
  rewrite !bool_decide_false by done.
  cbn [no_option_follows]. mred. rewrite Hlt.
  rewrite ?bool_decide_false by done.
  by destruct pre.
Qed.

End HereDocErrors.

Section SourceClaims.
Context {Netlist : Type} {host : Host Netlist} {cmds : Commands Netlist}.
Implicit Types (w : World Netlist).

Lemma Frontend_extra_args_heredoc_split this fname pre marker w :
  Frontend_extra_args this None fname (pre ++ ["<<"; marker]) (length pre) w =
    (f ← here_document ("<<" +:+ marker); mret (f, "<<" +:+ marker))
      (set_next_args [] w).
Proof.
  unfold Frontend_extra_args.
  rewrite list_lookup_middle by done.
  change (String.eqb (substr "<<" 0 1) "-") with false.
  rewrite bool_decide_false by (intros H; by apply H).
  assert ((length pre + 1 <? length (pre ++ ["<<"; marker]))%nat = true) as Hlt.
  { apply Nat.ltb_lt. rewrite length_app. simpl. lia. }
  rewrite Hlt. change (String.eqb "<<" "<<" && true) with true. cbv iota.
  assert ((pre ++ ["<<"; marker]) !! (length pre + 1) = Some marker) as ->.
  { rewrite lookup_app_r by lia.
    replace (length pre + 1 - length pre) with 1 by lia. done. }
  cbn [default from_option id].
  assert ((length pre + 1 + 1 <? length (pre ++ ["<<"; marker]))%nat = false) as Hge.
  { apply Nat.ltb_ge. rewrite length_app. simpl. lia. }
  rewrite substr_heredoc.
  change (String.eqb "<<" "<<") with true.
  rewrite drop_ge by (rewrite length_app; simpl; lia).
  mred.
  destruct (here_document ("<<" +:+ marker) (set_next_args [] w))
    as [f w1| | | |] eqn:Hdoc; try done.
  apply here_document_open in Hdoc.
  destruct f as [f|]; [|done].
  rewrite !bool_decide_false by done.
  cbn [no_option_follows]. mred. rewrite Hge.
  rewrite ?bool_decide_false by done.
  by destruct pre.
Qed.

(** X17.  The first file of a frontend.  Behind a command word and its options,
    with a path that is no option and no here-document at [argidx] and no
    option behind it: when the path opens, [extra_args] hands back the
    opened stream and the path, and leaves in [next_args] the command line
    without that path, or nothing when no further path follows; when the
    path does not open it raises a command error, having only cleared
    [next_args]. *)
Theorem Frontend_extra_args_first_file (this : ptr) (fname : string)
    (pre : list string) (path : string) (more : list string) w :
  pre <> [] ->
  is_path path = true ->
  Forall (fun a => String.eqb (substr a 0 1) "-" = false) more ->
  (forall h,
     os_fopen (c_str path) "r" = Some h ->
     Frontend_extra_args this None fname (pre ++ path :: more) (length pre) w =
       Done (Some (file_handle h), path)
         (set_next_args (match more with [] => [] | _ => pre ++ more end) w)) /\
  (os_fopen (c_str path) "r" = None ->
   exists msg,
     Frontend_extra_args this None fname (pre ++ path :: more) (length pre) w =
       CmdError msg (set_next_args [] w)).
Proof.
  intros Hpre [Hopt Hdoc]%is_path_inv Hmore.
  pose proof (Frontend_extra_args_path this fname pre path more w Hpre Hopt Hdoc Hmore)
    as Hrun.
  split.
  - intros h Hopen. by rewrite Hopen in Hrun.
  - intros Hopen. rewrite Hopen in Hrun. eauto.
Qed.

(** X18.  The here-document sign.  The marker may follow the sign as a word of
    its own: [<< EOT] at the end of the command line is read as [<<EOT]
    is.  A here-document outside of a script, one without marker, and one
    whose script ends before a line has the marker, each end the process
    with a fatal error, not a command error; the text of the error shows
    the sign and the marker as [%s] prints them from [c_str()]. *)
Theorem here_document_forms_and_errors (this : ptr) (fname : string)
    (pre : list string) (marker : string) w :
  Frontend_extra_args this None fname (pre ++ ["<<"; marker]) (length pre) w =
    Frontend_extra_args this None fname (pre ++ ["<<" +:+ marker]) (length pre) w /\
  (current_script_file w = None ->
   Frontend_extra_args this None fname (pre ++ ["<<" +:+ marker]) (length pre) w =
     Fatal ("Unexpected here document '<<" +:+ c_str marker +:+
            "' outside of script!" +:+ nl)) /\
  (current_script_file w <> None ->
   Frontend_extra_args this None fname (pre ++ ["<<"]) (length pre) w =
     Fatal ("Missing EOT marker in here document!" +:+ nl)) /\
  (forall lines,
     marker <> "" ->
     Forall (fun l => is_text_line l = true /\ marker_at marker l = Some false) lines ->
     current_script_file w = Some (concat_lines lines) ->
     Frontend_extra_args this None fname (pre ++ ["<<" +:+ marker]) (length pre) w =
       Fatal ("Unexpected end of file in here document '<<" +:+ c_str marker +:+
              "'!" +:+ nl)).
Proof.
  split_and!.
  - by rewrite Frontend_extra_args_heredoc_split, Frontend_extra_args_heredoc.
  - intros Hs. rewrite Frontend_extra_args_heredoc.
    unfold here_document. mred. cbn [current_script_file set_next_args].
    rewrite Hs. by rewrite bool_decide_true.
  - intros Hs. rewrite (Frontend_extra_args_heredoc _ _ _ "").
    unfold here_document. mred. cbn [current_script_file set_next_args].
    destruct (current_script_file w); [|done].
    by rewrite bool_decide_false.
  - intros lines Hm Hlines Hs. rewrite Frontend_extra_args_heredoc.
    destruct marker as [|m0 marker]; [done|].
    unfold here_document. mred. cbn [current_script_file set_next_args].
    rewrite Hs. rewrite bool_decide_false by done.
    change (String.length ("<<" +:+ String m0 marker) <=? 2)%nat with false.
    cbv beta iota.
    change (substr_from ("<<" +:+ String m0 marker) 2) with (String m0 marker).
    erewrite heredoc_read_unterminated; try done.
    simpl. apply Nat.lt_succ_r.
    rewrite <- (append_nil_r (concat_lines lines)). apply length_concat_lines.
    eapply Forall_impl; [exact Hlines|]. simpl.
    intros l [Hl _]. unfold is_text_line in Hl. by apply andb_prop in Hl as [-> _].
Qed.

Lemma counter_of_unwound_check p orig w :
  counter_of p (add_event EvCheck (unwound orig w)) = counter_of p w.
Proof. done. Qed.

(** X11.  A backend dispatched through [Pass::call] is counted twice: once by
    the dispatcher and once by [Backend::execute].  When the format handler
    of the backend leaves the counter alone, a returning dispatch ends with
    the counter 2 above its value before the dispatch, in the arithmetic of
    the [int] that the counter is: exactly 2 above when the counter was in
    the range of [int] and at least 2 below [int_max]. *)
Theorem backend_dispatch_counts_twice fuel (a0 : string) (rest : list string)
    w p o bn w' :
  at_ a0 0 <> Some "#"%char ->
  pass_register w !! a0 = Some p ->
  objects w !! p = Some o ->
  kind o = BackendPass bn ->
  (forall f fname args wa f' wb,
     backend_execute p f fname args wa = Done f' wb ->
     counter_of p wb = counter_of p wa) ->
  Pass_call fuel (a0 :: rest) w = Done tt w' ->
  counter_of p w = Some (call_counter o) /\
  counter_of p w' = Some (wrap_int (call_counter o + 2)) /\
  ((int_min <= call_counter o)%Z -> (call_counter o + 2 <= int_max)%Z ->
   counter_of p w' = Some (call_counter o + 2)%Z).
Proof.
  intros Hc Hp Ho Hk Hframe Hrun.
  split; [unfold counter_of; by rewrite Ho|].
  assert (counter_of p w' = Some (wrap_int (call_counter o + 2))) as Hcnt; last first.
  { split; [exact Hcnt|]. intros Hlo Hhi. rewrite Hcnt.
    rewrite wrap_int_small; [done|lia]. }
  destruct (Pass_call_Done_inv _ _ _ _ _ Hc Hrun)
    as (p' & o' & w2 & Hp' & Ho' & Hex & _ & ->).
  assert (p' = p) as -> by congruence. assert (o' = o) as -> by congruence.
  rewrite counter_of_unwound_check.
  set (w1 := bumped p o (echoed (a0 :: rest) w)) in *.
  assert (objects (echoed (a0 :: rest) w) !! p = Some o) as Ho1.
  { by destruct (echoed_fields (a0 :: rest) w) as (-> & _). }
  set (o1 := mkPass (pass_name o) (short_help o) (wrap_int (call_counter o + 1))
               (next_queued_pass o) (kind o)).
  assert (objects w1 !! p = Some o1) as Ho2.
  { subst w1. cbn [objects bumped set_objects].
    apply list_lookup_insert_eq. by eapply lookup_lt_Some. }
  rewrite (virtual_execute_backend _ _ o1 bn) in Hex by done.
  unfold Backend_execute in Hex.
  erewrite bind_Done in Hex by (by apply bump_call_counter_spec).
  apply bind_Done_inv in Hex as (f' & w3 & Hhandler & Hclose).
  apply Hframe in Hhandler.
  rewrite counter_of_bumped in Hhandler by done.
  assert (counter_of p w2 = counter_of p w3) as ->.
  { destruct (bool_decide (f' ≠ Some stdout_)).
    - destruct f' as [f'|]; [|done]. by injection Hclose as <-.
    - by injection Hclose as <-. }
  rewrite Hhandler. subst o1. cbn [call_counter].
  rewrite wrap_int_add. do 2 f_equal. lia.
Qed.

End SourceClaims.

(** ** The tokens *)

Section Tokens.

Lemma c_str_free s : all_chars (fun c => negb (Ascii.eqb c NUL)) (c_str s) = true.
Proof.
  induction s as [|c s IH]; [done|]. simpl.
  destruct (Ascii.eqb c NUL) eqn:Hc; [done|]. simpl. by rewrite Hc, IH.
Qed.

Lemma is_word_single c :
  mem_char c blanks = false -> Ascii.eqb c NUL = false ->
  is_word (String c "") = true.
Proof.
  intros H1 H2. unfold is_word. cbn [String.eqb all_chars andb negb].
  by rewrite H1, H2.
Qed.

Lemma is_word_snoc t c :
  is_word t = true -> mem_char c blanks = false -> Ascii.eqb c NUL = false ->
  is_word (t +:+ String c "") = true.
Proof.
  unfold is_word. intros [Hne Hall]%andb_prop H1 H2.
  rewrite all_chars_append, Hall. cbn [all_chars]. rewrite H1, H2.
  cbn [negb andb]. rewrite andb_true_r. destruct t; [done|]. by rewrite append_cons.
Qed.

Lemma tokens_from_words s : forall cur,
  match cur with Some t => is_word t = true | None => True end ->
  all_chars (fun c => negb (Ascii.eqb c NUL)) s = true ->
  Forall (fun t => is_word t = true) (tokens_from cur s blanks).
Proof.
  induction s as [|c s IH]; intros cur Hcur Hs.
  - destruct cur; by repeat constructor.
  - simpl in Hs. apply andb_prop in Hs as [Hc Hs]. apply negb_true_iff in Hc.
    cbn [tokens_from]. destruct (mem_char c blanks) eqn:Hb.
    + destruct cur as [t|]; [constructor; [done|]|]; by apply IH.
    + apply IH; [|done]. destruct cur as [t|].
      * by apply is_word_snoc.
      * by apply is_word_single.
Qed.

(** X5.  What the tokenizer yields.  Every token of a command is a word: not
    empty, without blank and without NUL.  Joining the tokens by single
    blanks and tokenizing again gives the same tokens. *)
Theorem tokens_are_words (command : string) :
  Forall (fun t => is_word t = true) (tokens (c_str command) blanks) /\
  tokens (c_str (unwords (tokens (c_str command) blanks))) blanks =
    tokens (c_str command) blanks.
Proof.
  assert (Forall (fun t => is_word t = true) (tokens (c_str command) blanks)) as Hw.
  { apply tokens_from_words; [done|]. apply c_str_free. }
  split; [exact Hw|].
  rewrite c_str_no_nul by (by apply unwords_no_nul).
  by apply tokens_unwords.
Qed.

End Tokens.

(** ** Chains of commands, late registration *)

Section Chain.
Context {Netlist : Type} {host : Host Netlist} {cmds : Commands Netlist}.
Implicit Types (w : World Netlist).

Lemma call_tokens_chain fuel calls last :
  Forall plain last ->
  forall segs w,
    Forall (fun seg => Forall plain (fst seg) /\ ends_with_semikolon (snd seg) = false)
      segs ->
    call_tokens fuel calls (chain_tokens segs last) [] w =
      (dispatch_all fuel segs;; Pass_call fuel last) w.
Proof.
  intros Hlast segs. induction segs as [|[toks r] segs IH]; intros w Hsegs.
  - unfold chain_tokens. cbn [map concat app dispatch_all].
    rewrite <- (app_nil_r last) at 1. rewrite call_tokens_plain by done.
    reflexivity.
  - apply Forall_cons in Hsegs as [[Htoks Hr] Hsegs].
    unfold chain_tokens, segment_tokens. cbn [map concat fst snd].
    rewrite <- !app_assoc. rewrite call_tokens_plain by done.
    cbn [app]. change ";" with (semicolons 1).
    rewrite call_tokens_flush by done.
    cbn [dispatch_all]. unfold segment_args. cbn [fst snd].
    rewrite !bind_unfold.
    destruct (Pass_call fuel _ w) as [[] w1| | | |]; try done.
    change (when (1 =? 2)%nat _) with (mret (M := M Netlist) tt).
    change (when (1 =? 3)%nat _) with (mret (M := M Netlist) tt).
    rewrite !mret_bind. rewrite <- bind_unfold. by apply IH.
Qed.

End Chain.

Section ChainClaims.
Context {Netlist : Type} {host : Host Netlist} {cmds : Commands Netlist}.
Implicit Types (w : World Netlist).

(** X9.  A chain of commands.  On a line of commands that each end in one
    semicolon, attached to the last word or standing alone, followed by a
    last command, the string-form call dispatches the commands from left
    to right, each with the words up to its semicolon as its argument
    vector, and then the last command; no other dispatch takes place.  The
    line may not start with a hash or an exclamation mark. *)
Theorem semicolon_chain fuel depth (segs : list (list string * string))
    (last : list string) w :
  Forall (fun seg => Forall plain (fst seg) /\ ends_with_semikolon (snd seg) = false)
    segs ->
  Forall plain last ->
  Forall (fun t => is_word t = true) (chain_tokens segs last) ->
  match chain_tokens segs last with
  | t :: _ => at_ t 0 <> Some "#"%char /\ at_ t 0 <> Some "!"%char
  | [] => True
  end ->
  call_tokens fuel (Pass_call_string fuel depth) (chain_tokens segs last) [] w =
    (dispatch_all fuel segs;; Pass_call fuel last) w /\
  Pass_call_string fuel (S depth) (unwords (chain_tokens segs last)) w =
    (dispatch_all fuel segs;; Pass_call fuel last) w.
Proof.
  intros Hsegs Hlast Hwords Hhead.
  pose proof (call_tokens_chain fuel (Pass_call_string fuel depth) last Hlast segs w
                Hsegs) as Hchain.
  split; [exact Hchain|].
  rewrite <- Hchain.
  cbn [Pass_call_string]. unfold Pass_call_string_body. cbv zeta.
  rewrite c_str_no_nul by (by apply unwords_no_nul).
  destruct (chain_tokens segs last) as [|t ts] eqn:Htoks; [done|].
  pose proof (Forall_inv Hwords) as Ht. cbv beta in Ht.
  destruct (is_word_inv _ Ht) as (Hne & _ & _).
  destruct (unwords_head t ts Hne) as (c & s1 & Hu & Hat).
  pose proof (word_head_not_blank _ _ Ht Hat) as Hnb.
  destruct Hhead as [Hhash Hbang]. rewrite Hat in Hhash, Hbang.
  rewrite Hu, strspn_head_0 by done. cbn [advance].
  destruct (Ascii.eqb_spec c "#") as [->|_]; [done|].
  destruct (Ascii.eqb_spec c "!") as [->|_]; [done|].
  rewrite <- Hu. by rewrite tokens_unwords.
Qed.

(** X2.  A command object that is constructed after start-up.  On a process
    whose queue is empty, once an object with names that are free has been
    constructed it waits in the queue and its command is still unknown to
    the dispatcher, which raises the command error that shows the name as
    [%s] prints it from [c_str()]; [init_register] then registers it under
    its name,
    empties the queue and leaves every other command as it was, and the
    dispatcher resolves the name to the new object. *)
Theorem late_registration (d : Decl) (fuel : nat) w :
  first_queued_pass w = None ->
  pass_register w !! decl_pass_name d = None ->
  (forall n, decl_frontend_name d = Some n -> frontend_register w !! n = None) ->
  (forall n, decl_backend_name d = Some n -> backend_register w !! n = None) ->
  at_ (decl_pass_name d) 0 <> Some "#"%char ->
  let p := length (objects w) in
  (exists w1,
     construct d w = Done p w1 /\
     first_queued_pass w1 = Some p /\
     forall fuel' rest,
       Pass_call fuel' (decl_pass_name d :: rest) w1 =
         CmdError ("No such command: " +:+ c_str (decl_pass_name d) +:+
                   " (type 'help' for a command overview)" +:+ nl)
           (echoed (decl_pass_name d :: rest) w1)) /\
  (exists w',
     (construct d;; Pass_init_register (S fuel)) w = Done tt w' /\
     first_queued_pass w' = None /\
     objects w' !! p = Some (decl_object d None) /\
     pass_register w' !! decl_pass_name d = Some p /\
     (forall name, name <> decl_pass_name d ->
        pass_register w' !! name = pass_register w !! name) /\
     forall fuel' rest,
       Pass_call fuel' (decl_pass_name d :: rest) w' =
         dispatch_resolved fuel' p (decl_pass_name d :: rest) (stack_depth w')
           (echoed (decl_pass_name d :: rest) w')).
Proof.
  intros Hq Hp Hf Hb Hc p. split.
  - eexists. split; [apply construct_spec|]. split; [done|].
    intros fuel' rest. by apply Pass_call_unresolved.
  - destruct (register_one d w fuel Hq Hp Hf Hb)
      as (w' & Hrun & Hobj & Hq' & Hpr & _ & _).
    exists w'. split_and!; try done.
    + rewrite Hobj. by apply list_lookup_middle.
    + rewrite Hpr. by apply lookup_insert_eq.
    + intros name Hname. rewrite Hpr. by apply lookup_insert_ne.
    + intros fuel' rest. apply Pass_call_resolved; [done|].
      rewrite Hpr. by apply lookup_insert_eq.
Qed.

End ChainClaims.

(** * Runs on the sample installation *)

Import Sample.

#[local] Existing Instance host.
#[local] Existing Instance commands.

(** C1 on the sample installation: the two lines of the claim, and a
    token with two trailing semicolons between plain tokens. *)
Lemma C1_witness :
  Pass_call_string 1 2 "foo bar;; baz" world1 =
    (Pass_call 1 ["foo"; "bar"];; Pass_call 1 ["clean"];; Pass_call 1 ["baz"]) world1 /\
  Pass_call_string 1 2 "foo;;;" world1 =
    (Pass_call 1 ["foo"];; Pass_call 1 ["clean"; "-purge"]) world1 /\
  call_tokens 1 (Pass_call_string 1 1)
    (["foo"] ++ ("bar" +:+ semicolons 2) :: ["baz"]) [] world1 =
    (Pass_call 1 ([] ++ ["foo"] ++ ["bar"]);;
     when (2 =? 2)%nat (Pass_call 1 ["clean"]);;
     when (2 =? 3)%nat (Pass_call 1 ["clean"; "-purge"]);;
     call_tokens 1 (Pass_call_string 1 1) ["baz"] []) world1.
Proof.
  destruct (C1_tokenizer_dispatch_order 1 0)
    as (H1 & H2 & H3 & H4 & H5).
  split; [apply H1|]. split; [apply H2|].
  apply H4; [repeat constructor|discriminate|reflexivity].
Defined.

(** C2 fails as stated: on ["foo ;;"], where the second token is of
    semicolons only, the command [clean] is dispatched after [foo]: its
    [execute] runs, the check follows, and its counter goes from 0 to 1,
    whereas the dispatch of [["foo"]] alone leaves two events. *)
Lemma C2_counterexample :
  pass_register world1 !! "clean" = Some 3 /\
  counter_of 3 world1 = Some 0%Z /\
  returned (Pass_call_string 1 2 "foo ;;" world1)
    = true /\
  events (world_of (Pass_call_string 1 2
                      "foo ;;" world1)) =
    [EvLog "foo"; EvCheck; EvLog "clean"; EvCheck] /\
  counter_of 3 (world_of (Pass_call_string 1 2
                            "foo ;;" world1)) = Some 1%Z /\
  events (world_of (Pass_call 1 ["foo"] world1)) =
    [EvLog "foo"; EvCheck].
Proof. vm_compute. repeat split. Qed.

(** C2 (amended) on the sample installation. *)
Lemma C2_witness :
  call_tokens 1 (Pass_call_string 1 1)
    (["foo"] ++ semicolons 2 :: []) [] world1 =
    (Pass_call 1 ([] ++ ["foo"]);;
     when (2 =? 2)%nat (Pass_call 1 ["clean"]);;
     when (2 =? 3)%nat (Pass_call 1 ["clean"; "-purge"]);;
     call_tokens 1 (Pass_call_string 1 1) [] []) world1.
Proof.
  destruct (C2_semicolon_only_token 1 0)
    as (H1 & _).
  apply H1. repeat constructor.
Defined.



(** C4 fails as stated: the command [pop] takes a frame off the stack; its
    dispatch returns and leaves the stack one frame short of the recorded
    depth. *)
Lemma C4_counterexample :
  stack_depth world1 = 1 /\
  returned (Pass_call 1 ["pop"] world1) = true /\
  stack_depth (world_of (Pass_call 1 ["pop"] world1)) = 0.
Proof. vm_compute. repeat split. Qed.

(** C4 (amended) on the command [push]: its [execute] leaves two frames
    where one was recorded, and the dispatch returns with one. *)
Lemma C4_witness :
  stack_depth world1 = 1 /\
  stack_depth
    (world_of (virtual_execute 1 4 ["push"]
                 (bumped 4 (mkPass "push" "" 0 (Some 3) PlainPass)
                    (echoed ["push"] world1)))) = 2 /\
  exists w',
    Pass_call 1 ["push"] world1 = Done tt w' /\
    stack_depth w' =
      Nat.min (stack_depth world1)
        (stack_depth
           (world_of (virtual_execute 1 4 ["push"]
                        (bumped 4 (mkPass "push" "" 0 (Some 3) PlainPass)
                           (echoed ["push"] world1))))).
Proof.
  split; [reflexivity|]. split; [vm_compute; reflexivity|].
  destruct (C4_dispatch_unwinds 1 "push" [] world1) as [Hfwd _]; [discriminate|].
  apply (Hfwd 4 (mkPass "push" "" 0 (Some 3) PlainPass)); vm_compute; reflexivity.
Defined.

(** C5 fails as stated: with the command [pop] the call on a module returns
    and leaves the stack one frame short of what it was before the call. *)
Lemma C5_counterexample :
  stack_depth world1 = 1 /\
  returned (Pass_call_on_module_string 1 2 (mkModule "top") "pop" world1) = true /\
  stack_depth
    (world_of (Pass_call_on_module_string 1 2 (mkModule "top") "pop" world1)) = 0.
Proof. vm_compute. repeat split. Qed.


(** C5 (amended) on the line [push; foo] of the sample installation, which
    has a command [pop] that is not dispatched: [push] leaves a frame
    behind, [foo] leaves the stack alone, and the active module and the
    depth are as before the call. *)
Lemma C5_witness :
  active_module
    (world_of (Pass_call_on_module_string 1 2 (mkModule "top") "push; foo" world1))
    = active_module world1 /\
  stack_depth
    (world_of (Pass_call_on_module_string 1 2 (mkModule "top") "push; foo" world1))
    = stack_depth world1 /\
  length (Pass_call_string_executes 1 2 "push; foo" (entered (mkModule "top") world1))
    = 2.
Proof.
  destruct (C5_call_on_module 1 2 (mkModule "top") "push; foo" world1)
    as (_ & _ & _ & _ & Hback).
  destruct (Hback (world_of (Pass_call_on_module_string 1 2 (mkModule "top")
                               "push; foo" world1)))
    as (Ha & w_out & _ & _ & _ & _ & Heq).
  - vm_compute. reflexivity.
  - split; [exact Ha|]. split; [|vm_compute; reflexivity].
    apply Heq. vm_compute. repeat constructor.
Defined.

(** C6 on the declarations of the sample installation. *)
Lemma C6_witness :
  exists w',
    (construct_all declared;; Pass_init_register 9) world0 = Done tt w' /\
    pass_register w' !! "read_verilog" = Some 7 /\
    pass_register w' !! "nosuch" = None /\
    Pass_call 1 ["nosuch"] w' =
      CmdError ("No such command: nosuch (type 'help' for a command overview)" +:+ nl)
        w'.
Proof.
  destruct (C6_registry_after_init_register declared
              (mkDesign [Selection_ctor true] "" tt) 9)
    as ((w' & Hrun & _ & Hreg & _ & Hno) & _).
  - refine (bool_decide_unpack _ _); vm_compute; exact I.
  - refine (bool_decide_unpack _ _); vm_compute; exact I.
  - refine (bool_decide_unpack _ _); vm_compute; exact I.
  - simpl. lia.
  - exists w'. split; [exact Hrun|].
    split; [apply (Hreg 7 (DeclFrontend "verilog" "")); reflexivity|].
    destruct (Hno "nosuch") as [Hnone Hcall].
    + refine (bool_decide_unpack _ _); vm_compute; exact I.
    + split; [exact Hnone|]. apply Hcall. discriminate.
Defined.

(** Two objects constructed under one name: [init_register] ends in the
    failed assertion of [run_register]. *)
Example duplicate_name_is_fatal :
  (construct_all [DeclPass "foo" ""; DeclPass "foo" ""];; Pass_init_register 2)
    world0 =
    Fatal "Assert `pass_register.count(pass_name) == 0' failed.".
Proof. vm_compute. reflexivity. Qed.

(** C7 fails as stated: the dispatch of an unknown command and the dispatch
    of a command whose [execute] raises a command error both end with the
    command error and an empty trace: the check was not invoked. *)
Lemma C7_counterexample :
  Pass_call 1 ["nosuch"] world1 =
    CmdError ("No such command: nosuch (type 'help' for a command overview)" +:+ nl)
      world1 /\
  events world1 = [] /\
  pass_register world1 !! "fail" = Some 6 /\
  Pass_call 1 ["fail"] world1 =
    CmdError "failed" (world_of (Pass_call 1 ["fail"] world1)) /\
  events (world_of (Pass_call 1 ["fail"] world1)) = [].
Proof. vm_compute. repeat split. Qed.

(** C7 (amended) on a dispatch that returns and on one whose [execute]
    raises a command error. *)
Lemma C7_witness :
  (exists w',
     Pass_call 1 ["foo"] world1 = Done tt w' /\
     events w' =
       events (world_of (virtual_execute 1 0 ["foo"]
                           (bumped 0 (mkPass "foo" "" 0 None PlainPass)
                              (echoed ["foo"] world1)))) ++ [EvCheck]) /\
  Pass_call 1 ["fail"] world1 =
    CmdError "failed"
      (bumped 6 (mkPass "fail" "" 0 (Some 5) PlainPass) (echoed ["fail"] world1)).
Proof.
  split.
  - destruct (C7_check_after_returning_dispatch 1 "foo" [] world1)
      as (Hfwd & _); [discriminate|].
    apply (Hfwd 0 (mkPass "foo" "" 0 None PlainPass)); vm_compute; reflexivity.
  - destruct (C7_check_after_returning_dispatch 1 "fail" [] world1)
      as (_ & _ & _ & Herr); [discriminate|].
    apply (Herr 6 (mkPass "fail" "" 0 (Some 5) PlainPass)); vm_compute; reflexivity.
Defined.

(** C8 on a frontend named ["verilog"] and a backend named ["=dump"]. *)
Lemma C8_witness :
  (exists w',
     (Frontend_ctor "verilog" "reader";; Pass_init_register 1) world0 = Done tt w' /\
     objects w' !! 0 = Some (mkPass "read_verilog" "reader" 0 None (FrontendPass "verilog")) /\
     pass_register w' = <["read_verilog" := 0]> (pass_register world0) /\
     frontend_register w' = <["verilog" := 0]> (frontend_register world0) /\
     backend_register w' = backend_register world0) /\
  (exists w',
     (Backend_ctor "=dump" "writer";; Pass_init_register 1) world0 = Done tt w' /\
     objects w' !! 0 = Some (mkPass "dump" "writer" 0 None (BackendPass "dump")) /\
     pass_register w' = <["dump" := 0]> (pass_register world0) /\
     backend_register w' = <["dump" := 0]> (backend_register world0) /\
     frontend_register w' = frontend_register world0).
Proof.
  split.
  - destruct (C8_frontend_backend_names "verilog" "reader" world0 0 eq_refl)
      as (H1 & _).
    apply H1; reflexivity.
  - destruct (C8_frontend_backend_names "dump" "writer" world0 0 eq_refl)
      as (_ & _ & _ & H4).
    apply H4; reflexivity.
Defined.

(** The frontends of the sample resolve their stream with [extra_args],
    which leaves the counters alone. *)
Lemma sample_frontend_keeps_counter p f fname args (wa : World unit) f' wb :
  frontend_execute p f fname args wa = Done f' wb ->
  counter_of p wb = counter_of p wa.
Proof.
  simpl. intros Hrun.
  apply bind_Done_inv in Hrun as (r & w1 & Hex & Hret).
  injection Hret as _ <-.
  unfold counter_of. by rewrite (keeps_Frontend_extra_args _ _ _ _ _ _ _ _ Hex).
Qed.

(** C9 on a frontend given three files: two continuation rounds, and the
    counter ends 4 above its value before the dispatch. *)
Lemma C9_witness :
  counter_of 7 world1 = Some 0%Z /\
  counter_of 7
    (world_of (Pass_call 3 ["read_verilog"; "a.v"; "b.v"; "c.v"] world1)) =
    Some (wrap_int (0 + Z.of_nat 2 + 2)) /\
  wrap_int (0 + 4) = (0 + 4)%Z.
Proof.
  destruct (C9_call_counter 3 "read_verilog" ["a.v"; "b.v"; "c.v"] world1 7
              (mkPass "read_verilog" "" 0 (Some 6) (FrontendPass "verilog")))
    as (H0 & _ & _ & _ & Hk & Hexact).
  - discriminate.
  - vm_compute. reflexivity.
  - vm_compute. reflexivity.
  - split; [exact H0|]. split.
    + apply (Hk "verilog" 2).
      * reflexivity.
      * apply sample_frontend_keeps_counter.
      * vm_compute. reflexivity.
      * vm_compute. reflexivity.
    + apply (Hexact 4%Z); cbn [call_counter]; unfold int_min, int_max; lia.
Defined.

(** A dispatch whose [execute] raises a command error is counted. *)
Example failed_dispatch_is_counted :
  counter_of 6 world1 = Some 0%Z /\
  counter_of 6 (world_of (Pass_call 1 ["fail"] world1)) = Some 1%Z.
Proof. vm_compute. split; reflexivity. Qed.

(** C10 fails as stated: on [dump a b] the file [a] is opened for writing,
    the second file name is a syntax error, and [Backend::execute] ends
    with the command error; the syntax error line is all that happened
    since, no stream was closed. *)
Lemma C10_counterexample :
  os_fopen (c_str "a") "w" = Some 3 /\
  events world1 = [] /\
  Backend_execute 8 ["dump"; "a"; "b"] world1 =
    CmdError ("Command syntax error: Extra filename argument in direct file mode."
              +:+ nl +:+ "> dump a b" +:+ nl +:+ "> " +:+ spaces 7 +:+ "^" +:+ nl)
      (world_of (Backend_execute 8 ["dump"; "a"; "b"] world1)) /\
  events (world_of (Backend_execute 8 ["dump"; "a"; "b"] world1)) =
    [EvLog (nl +:+ "Syntax error in command `dump a b':" +:+ nl)].
Proof. vm_compute. repeat split. Qed.

(** C10 (amended) on the backend of the sample installation. *)
Lemma C10_witness :
  Backend_execute 8 ["dump"; "out.txt"] world1 =
    Done tt (add_event (EvFclose (file_handle 3))
               (world_of (bump_call_counter 8 world1))) /\
  Backend_execute 8 ["dump"; "-"] world1 =
    Done tt (world_of (bump_call_counter 8 world1)) /\
  Backend_execute 8 ["dump"] world1 =
    Done tt (world_of (bump_call_counter 8 world1)) /\
  Backend_extra_args 8 None "" ["dump"] 1 world1 =
    Done (Some stdout_, "<stdout>") world1 /\
  Backend_extra_args 8 None "" ["dump"; "-"] 1 world1 =
    Done (Some stdout_, "<stdout>") world1 /\
  Backend_extra_args 8 None "" ["dump"; "out.txt"] 1 world1 =
    Done (Some (file_handle 3), "out.txt") world1 /\
  Backend_extra_args 8 None "" ["dump"; "a"; "b"] 1 world1 =
    Pass_cmd_error 8 ["dump"; "a"; "b"] 2
      "Extra filename argument in direct file mode." world1 /\
  Backend_execute 8 ["dump"; "a"; "b"] world1 =
    CmdError ("Command syntax error: Extra filename argument in direct file mode."
              +:+ nl +:+ "> dump a b" +:+ nl +:+ "> " +:+ spaces 7 +:+ "^" +:+ nl)
      (add_event (EvLog (nl +:+ "Syntax error in command `dump a b':" +:+ nl))
         (world_of (bump_call_counter 8 world1))).
Proof.
  destruct (C10_backend_closes_unless_stdout 8)
    as (Hdrv & Habs & Hdash & Hpath & Herr & Hsecond).
  split_and!.
  - etrans;
      [apply (Hdrv ["dump"; "out.txt"] world1 (world_of (bump_call_counter 8 world1))
                (file_handle 3) (world_of (bump_call_counter 8 world1)));
       vm_compute; reflexivity
      |reflexivity].
  - etrans;
      [apply (Hdrv ["dump"; "-"] world1 (world_of (bump_call_counter 8 world1))
                stdout_ (world_of (bump_call_counter 8 world1)));
       vm_compute; reflexivity
      |reflexivity].
  - etrans;
      [apply (Hdrv ["dump"] world1 (world_of (bump_call_counter 8 world1))
                stdout_ (world_of (bump_call_counter 8 world1)));
       vm_compute; reflexivity
      |reflexivity].
  - apply (Habs "" ["dump"] world1). discriminate.
  - apply (Hdash "" ["dump"] world1).
  - apply (Hpath "" ["dump"] "out.txt" 3 world1); reflexivity.
  - destruct (Hsecond "" ["dump"] "a" 3 "b" world1) as [Hrun _];
      [reflexivity|reflexivity|]. exact Hrun.
  - apply (Herr ["dump"; "a"; "b"] world1 (world_of (bump_call_counter 8 world1)));
      vm_compute; reflexivity.
Defined.

(** ** Runs of the further properties *)

Import SampleBuiltins.
#[local] Existing Instance select_args.

(** X6.  A line of two plain words on the sample installation. *)
Lemma word_line_dispatch_witness :
  fold_left command_text_step ["foo"; "bar"] "" = unwords ["foo"; "bar"] /\
  tokens (c_str (unwords ["foo"; "bar"])) blanks = ["foo"; "bar"] /\
  Pass_call_string 1 1 (unwords ["foo"; "bar"]) world1 =
    Pass_call 1 ["foo"; "bar"] world1.
Proof.
  apply (word_line_dispatch 1 0 "foo" ["bar"] world1).
  - repeat constructor.
  - repeat constructor.
  - discriminate.
Defined.

(** X7.  Comments on the sample installation. *)
Lemma comments_are_skipped_witness :
  Pass_call_string 1 1 ("  " +:+ String "#" " foo; bar") world1 = Done tt world1 /\
  Pass_call_string 1 1 (unwords ["foo"; "bar"] +:+ " # " +:+ "baz;; fail") world1 =
    Pass_call 1 ["foo"; "bar"] world1.
Proof.
  destruct (comments_are_skipped (host := host) (cmds := commands) 1 0)
    as (Hhash & _ & Hword & _).
  split.
  - apply Hhash. reflexivity.
  - apply Hword.
    + repeat constructor.
    + repeat constructor.
    + discriminate.
Defined.

(** X8.  The shell passthrough on the sample installation, whose [system]
    returns 0. *)
Lemma shell_passthrough_witness :
  Pass_call_string 1 1 (" " +:+ "!" +:+ " " +:+ "ls -l" +:+ nl) world1 =
    Done tt (add_event (EvSystem "ls -l")
               (add_event (EvLog ("Shell command: " +:+ "ls -l" +:+ nl)) world1)).
Proof.
  etrans;
    [apply (shell_passthrough (cmds := commands) 1 0 " " " " "ls -l" nl world1);
     reflexivity|reflexivity].
Defined.

(** X3.  The caret under the option of [read_verilog -x]. *)
Lemma cmd_error_caret_witness :
  Pass_cmd_error (A := unit) 7 ["read_verilog"; "-x"] 1 "Unkown option." world1 =
    CmdError ("Command syntax error: Unkown option." +:+ nl +:+
              "> read_verilog -x" +:+ nl +:+
              "> " +:+ spaces 13 +:+ "^" +:+ nl)
      (add_event (EvLog (nl +:+ "Syntax error in command `read_verilog -x':" +:+ nl))
         world1) /\
  padding (fold_left error_pos_step (take 1 ["read_verilog"; "-x"]) 0%Z) = spaces 13 /\
  c_str (unwords ["read_verilog"; "-x"]) = "read_verilog -x" /\
  substr "read_verilog -x" 13 2 = "-x".
Proof.
  destruct (cmd_error_caret (A := unit) 7 "read_verilog" ["-x"] 1 "Unkown option."
              world1) as (_ & Herr & Hpad & Hfree & Hpos & _); [discriminate|].
  split_and!.
  - apply Herr. reflexivity.
  - apply Hpad. vm_compute. discriminate.
  - apply Hfree. repeat constructor.
  - apply (Hpos "-x"). reflexivity.
Defined.

(** X16.  [read_verilog a.v b.v] on the sample installation. *)
Lemma Frontend_extra_args_returns_witness :
  Some (file_handle 3) <> None /\
  exists arg,
    ["read_verilog"; "a.v"; "b.v"] !! 1 = Some arg /\
    String.eqb (substr arg 0 1) "-" = false /\
    (arg <> "<<" ->
     "a.v" = arg /\
     Forall (fun a => String.eqb (substr a 0 1) "-" = false)
       (drop 2 ["read_verilog"; "a.v"; "b.v"])).
Proof.
  destruct (Frontend_extra_args_returns 7 None "" ["read_verilog"; "a.v"; "b.v"] 1
              world1 (Some (file_handle 3)) "a.v"
              (set_next_args ["read_verilog"; "b.v"] world1)) as (H1 & _ & H3).
  - vm_compute. reflexivity.
  - split; [exact H1|]. apply H3. reflexivity.
Defined.

(** X23.  [dump out.txt] on the sample installation. *)
Lemma Backend_extra_args_returns_witness :
  world1 = world1 /\ Some (file_handle 3) <> None /\
  length ["dump"; "out.txt"] <= 2 /\
  String.eqb (substr "out.txt" 0 1) "-" = false /\
  Some (file_handle 3) = file_handle <$> os_fopen (c_str "out.txt") "w".
Proof.
  destruct (Backend_extra_args_returns 8 None "" ["dump"; "out.txt"] 1 world1
              (Some (file_handle 3)) "out.txt" world1)
    as (H1 & H2 & H3 & _ & H5).
  - vm_compute. reflexivity.
  - destruct (H5 eq_refl) as (_ & H6 & H7 & _).
    split_and!; [exact H1|exact H2|exact H3|exact H6|exact H7].
Defined.

(** X15.  The frontend of the sample installation on two files. *)
Lemma Frontend_execute_reads_each_file_witness :
  Frontend_execute 1 7 ["read_verilog"; "a.v"; "b.v"] world1 = OutOfFuel /\
  exists w',
    Frontend_execute 2 7 ["read_verilog"; "a.v"; "b.v"] world1 = Done tt w' /\
    events w' = events world1 ++ closes ["a.v"; "b.v"] /\
    counter_of 7 w' = Some (wrap_int (0 + Z.of_nat 2)) /\
    next_args w' = [] /\
    design w' = design world1.
Proof.
  split.
  - apply (Frontend_execute_reads_each_file 7 "read_verilog" ["a.v"; "b.v"] 1 world1
             (mkPass "read_verilog" "" 0 (Some 6) (FrontendPass "verilog")));
      [by intros|discriminate|repeat constructor; eexists; reflexivity
      |reflexivity|reflexivity|simpl; lia].
  - apply (Frontend_execute_reads_each_file 7 "read_verilog" ["a.v"; "b.v"] 2 world1
             (mkPass "read_verilog" "" 0 (Some 6) (FrontendPass "verilog")));
      [by intros|discriminate|repeat constructor; eexists; reflexivity
      |reflexivity|reflexivity|simpl; lia].
Defined.

(** X21.  The direct call of the frontend [verilog] of the sample installation. *)
Lemma frontend_call_streams_witness :
  Frontend_frontend_call 1 (Some (file_handle 5)) "in.v" ["verilog"] world1 =
    Done tt (add_event EvCheck
               (set_next_args []
                  (bumped 7 (mkPass "read_verilog" "" 0 (Some 6) (FrontendPass "verilog"))
                     world1))) /\
  Frontend_frontend_call 1 None "-" ["verilog"] world1 =
    Done tt (add_event EvCheck
               (set_next_args []
                  (bumped 7 (mkPass "read_verilog" "" 0 (Some 6) (FrontendPass "verilog"))
                     world1))) /\
  (exists w',
     Frontend_frontend_call 1 None "a.v" ["verilog"] world1 = Done tt w' /\
     events w' = events world1 ++ [EvFclose (file_handle 3); EvCheck] /\
     counter_of 7 w' = Some (wrap_int (0 + 1)) /\
     design w' = design world1) /\
  (exists msg w1,
     Frontend_frontend_call 1 None "missing" ["verilog"] world1 = CmdError msg w1 /\
     events w1 = events world1 /\
     counter_of 7 w1 = Some (wrap_int (0 + 1))) /\
  Frontend_frontend_call 1 None "" ["verilog"] world1 <> Done tt world1.
Proof.
  destruct (frontend_call_streams 1 "verilog" world1 7
              (mkPass "read_verilog" "" 0 (Some 6) (FrontendPass "verilog")) "verilog")
    as (Hfp & Hin & Hfile & Hfail & Hnone); try reflexivity.
  - by intros f fname args w.
  - split_and!.
    + apply Hfp.
    + exact Hin.
    + apply Hfile; [discriminate|reflexivity|reflexivity|reflexivity|lia].
    + apply Hfail; [discriminate|reflexivity|reflexivity|reflexivity|lia].
    + apply Hnone.
Defined.

(** X24.  The direct call of the backend [dump] of the sample installation. *)
Lemma backend_call_streams_witness :
  Backend_backend_call 1 (Some (file_handle 5)) "out" ["dump"] world1 =
    Done tt (add_event EvCheck
               (bumped 8 (mkPass "dump" "" 0 (Some 7) (BackendPass "dump")) world1)) /\
  Backend_backend_call 1 None "-" ["dump"] world1 =
    Done tt (add_event EvCheck
               (bumped 8 (mkPass "dump" "" 0 (Some 7) (BackendPass "dump")) world1)) /\
  Backend_backend_call 1 None "" ["dump"] world1 =
    Done tt (add_event EvCheck
               (bumped 8 (mkPass "dump" "" 0 (Some 7) (BackendPass "dump")) world1)) /\
  Backend_backend_call 1 None "out.txt" ["dump"] world1 =
    Done tt (add_event EvCheck
               (add_event (EvFclose (file_handle 3))
                  (bumped 8 (mkPass "dump" "" 0 (Some 7) (BackendPass "dump"))
                     world1))) /\
  exists msg,
    Backend_backend_call 1 None "missing" ["dump"] world1 =
      CmdError msg (bumped 8 (mkPass "dump" "" 0 (Some 7) (BackendPass "dump")) world1).
Proof.
  destruct (backend_call_streams 1 "dump" world1 8
              (mkPass "dump" "" 0 (Some 7) (BackendPass "dump")) "dump")
    as (Hfp & Hdash & Hnone & Hfile & Hfail); try reflexivity.
  - by intros f fname args w.
  - split_and!.
    + apply Hfp.
    + exact Hdash.
    + exact Hnone.
    + apply Hfile; [discriminate|reflexivity|reflexivity].
    + apply Hfail; [discriminate|reflexivity|reflexivity].
Defined.

(** X20.  A command name is no format name on the sample installation. *)
Lemma direct_calls_unknown_format_witness :
  pass_register world1 !! "read_verilog" = Some 7 /\
  Frontend_frontend_call 1 None "a.v" ["read_verilog"; "-x"] world1 =
    CmdError ("No such frontend: " +:+ c_str "read_verilog" +:+ nl) world1 /\
  Backend_backend_call 1 None "a.v" ["write_dump"] world1 =
    CmdError ("No such backend: " +:+ c_str "write_dump" +:+ nl) world1.
Proof.
  split; [reflexivity|]. split.
  - destruct (direct_calls_unknown_format 1 None "a.v" "read_verilog" ["-x"] world1)
      as (_ & _ & H & _). apply H. reflexivity.
  - destruct (direct_calls_unknown_format 1 None "a.v" "write_dump" [] world1)
      as (_ & _ & _ & H). apply H. reflexivity.
Defined.

(** X22.  The direct calls of a backend and of a frontend whose handlers leave
    a frame on the stack, with a stream of the caller: the backend's frame
    is unwound, the frontend's frame stays. *)
Lemma direct_calls_and_selection_stack_witness :
  (stack_depth world1 = 1 /\
   stack_depth
     (world_of (backend_execute (Commands := framing_commands) 8
                  (Some (file_handle 5)) "out" ["dump"]
                  (bumped 8 (mkPass "dump" "" 0 (Some 7) (BackendPass "dump")) world1)))
     = 2 /\
   stack_depth
     (world_of (frontend_execute (Commands := framing_commands) 7
                  (Some (file_handle 5)) "in.v" ["verilog"]
                  (bumped 7 (mkPass "read_verilog" "" 0 (Some 6) (FrontendPass "verilog"))
                     world1)))
     = 2) /\
  (stack_depth
     (world_of (Backend_backend_call (cmds := framing_commands) 1
                  (Some (file_handle 5)) "out" ["dump"] world1))
     <= stack_depth world1 /\
   last (events
           (world_of (Backend_backend_call (cmds := framing_commands) 1
                        (Some (file_handle 5)) "out" ["dump"] world1)))
     = Some EvCheck) /\
  (Frontend_frontend_call (cmds := framing_commands) 1
     (Some (file_handle 5)) "in.v" ["verilog"] world1 =
     Done tt
       (add_event EvCheck
          (world_of (frontend_execute (Commands := framing_commands) 7
                       (Some (file_handle 5)) "in.v" ["verilog"]
                       (bumped 7 (mkPass "read_verilog" "" 0 (Some 6)
                                    (FrontendPass "verilog")) world1)))) /\
   stack_depth
     (add_event EvCheck
        (world_of (frontend_execute (Commands := framing_commands) 7
                     (Some (file_handle 5)) "in.v" ["verilog"]
                     (bumped 7 (mkPass "read_verilog" "" 0 (Some 6)
                                  (FrontendPass "verilog")) world1)))) =
   stack_depth
     (world_of (frontend_execute (Commands := framing_commands) 7
                  (Some (file_handle 5)) "in.v" ["verilog"]
                  (bumped 7 (mkPass "read_verilog" "" 0 (Some 6)
                               (FrontendPass "verilog")) world1)))).
Proof.
  split; [vm_compute; repeat split|]. split.
  - destruct (direct_calls_and_selection_stack (cmds := framing_commands) 1
                (Some (file_handle 5)) "out" "dump" [] world1) as [Hback _].
    apply (Hback (world_of (Backend_backend_call (cmds := framing_commands) 1
                              (Some (file_handle 5)) "out" ["dump"] world1))).
    vm_compute. reflexivity.
  - destruct (direct_calls_and_selection_stack (cmds := framing_commands) 1
                (Some (file_handle 5)) "in.v" "verilog" [] world1) as [_ Hfront].
    apply (Hfront 7 (mkPass "read_verilog" "" 0 (Some 6) (FrontendPass "verilog"))
             (file_handle 5) (Some (file_handle 5))); vm_compute; reflexivity.
Defined.



(** X14.  [call_on_module] of an unknown command and of a failing one. *)
Lemma scoped_call_error_leaves_scope_witness :
  (exists msg w1,
     Pass_call_on_module 1 (mkModule "top") ["nosuch"] world1 = CmdError msg w1 /\
     active_module w1 = "top" /\ stack_depth w1 = S (stack_depth world1)) /\
  Pass_call_on_module 1 (mkModule "top") ["fail"] world1 =
    CmdError "failed"
      (bumped 6 (mkPass "fail" "" 0 (Some 5) PlainPass) (entered (mkModule "top") world1)).
Proof.
  destruct (scoped_call_error_leaves_scope 1 1 (mkModule "top") (Selection_ctor false)
              world1) as (Hvec & _ & _ & _ & Hunknown).
  split.
  - apply Hunknown; [discriminate|reflexivity].
  - apply Hvec. vm_compute. reflexivity.
Defined.

(** X1.  Start-up and shutdown of the sample installation. *)
Lemma done_register_after_init_witness :
  (exists w1 w',
     (construct_all declared;; Pass_init_register 9) world0 = Done tt w1 /\
     Pass_init_register 0 w1 = Done tt w1 /\
     (construct_all declared;; Pass_init_register 9;; Pass_done_register) world0
       = Done tt w' /\
     pass_register w' = ∅ /\ length (objects w') = 9 /\
     Pass_call 1 ["foo"] w' =
       CmdError ("No such command: foo (type 'help' for a command overview)" +:+ nl)
         w') /\
  (construct_all declared;; Pass_done_register) world0 =
    Fatal "Assert `first_queued_pass == NULL' failed.".
Proof.
  destruct (done_register_after_init declared
              (mkDesign [Selection_ctor true] "" tt) 9) as (Hup & Hdown).
  - refine (bool_decide_unpack _ _); vm_compute; exact I.
  - refine (bool_decide_unpack _ _); vm_compute; exact I.
  - refine (bool_decide_unpack _ _); vm_compute; exact I.
  - simpl. lia.
  - split.
    + destruct Hup as (w1 & w' & Hrun & Hidem & Hdone & Hp & _ & _ & _ & Hlen & Hcall).
      exists w1, w'. split_and!; [exact Hrun|apply Hidem|exact Hdone|exact Hp|exact Hlen|].
      apply Hcall. discriminate.
    + apply Hdown. discriminate.
Defined.

(** X19.  The string forms of the direct calls on a line with a semicolon. *)
Lemma direct_call_strings_witness :
  Frontend_frontend_call_string 1 None "a.v" (unwords ["verilog"; ";;"; "#"]) world1 =
    Frontend_frontend_call 1 None "a.v" ["verilog"; ";;"; "#"] world1 /\
  Backend_backend_call_string 1 None "-" (unwords ["dump"; ";;"; "#"]) world1 =
    Backend_backend_call 1 None "-" ["dump"; ";;"; "#"] world1.
Proof.
  destruct (direct_call_strings 1 None "a.v" ["verilog"; ";;"; "#"] world1)
    as [Hfront _]; [repeat constructor|].
  destruct (direct_call_strings 1 None "-" ["dump"; ";;"; "#"] world1)
    as [_ Hback]; [repeat constructor|].
  split; [exact Hfront|exact Hback].
Defined.

(** X4.  The argument check of a plain pass on the sample installation. *)
Lemma Pass_extra_args_contract_witness :
  Pass_extra_args 0 ["foo"] 1 false world1 = Done tt world1 /\
  Pass_extra_args 0 ["foo"; "-x"] 1 true world1 <> Done tt world1 /\
  Pass_extra_args 0 ["foo"; "top"; "sub"] 1 true world1 =
    Done tt (add_event (EvLog "top sub") world1).
Proof.
  split_and!.
  - destruct (Pass_extra_args_contract 0 ["foo"] 1 world1) as (Hnone & _).
    apply Hnone. split; [simpl; lia|reflexivity].
  - destruct (Pass_extra_args_contract 0 ["foo"; "-x"] 1 world1) as (_ & Hopt & _).
    apply (Hopt true "-x"); reflexivity.
  - destruct (Pass_extra_args_contract 0 ["foo"; "top"; "sub"] 1 world1)
      as (_ & _ & Hsel).
    etrans; [apply (Hsel "top"); reflexivity|reflexivity].
Defined.

(** X27.  The built-in [echo] on the sample installation. *)
Lemma EchoPass_execute_contract_witness :
  EchoPass_execute 1 ["echo"; "on"] world2 =
    Done tt (add_event (EvLog ("echo on" +:+ nl)) (set_echo_mode true world2)) /\
  EchoPass_execute 1 ["echo"; "maybe"] world2 <> Done tt world2.
Proof.
  destruct (EchoPass_execute_contract 1 ["echo"; "maybe"] world2) as (Hset & Hret).
  split.
  - apply (Hset "echo").
  - intros Hrun. destruct (Hret world2 Hrun) as [[[Hlen _]|(cmd & [[H _]|[H _]])] _].
    + simpl in Hlen. lia.
    + discriminate H.
    + discriminate H.
Defined.

(** X10.  The echo of a command line in echo mode, and of one with a NUL in
    an argument. *)
Lemma dispatch_echoes_command_line_witness :
  (exists evs,
     echoed ["foo"; "bar"] (set_echo_mode true world1) =
       add_events evs (set_echo_mode true world1) /\
     log_text evs =
       c_str "yosys> " +:+ unwords (map c_str ["foo"; "bar"]) +:+ nl) /\
  map c_str ["foo"; "bar"] = ["foo"; "bar"] /\
  (exists evs,
     echoed ["foo"; "ba" +:+ String NUL "r"] (set_echo_mode true world1) =
       add_events evs (set_echo_mode true world1) /\
     log_text evs = "yosys> foo ba" +:+ nl).
Proof.
  split_and!.
  - destruct (dispatch_echoes_command_line (cmds := commands) 1 "foo" ["bar"]
                (set_echo_mode true world1)) as (_ & _ & H & _).
    + discriminate.
    + exact H.
  - destruct (dispatch_echoes_command_line (cmds := commands) 1 "foo" ["bar"]
                (set_echo_mode true world1)) as (_ & _ & _ & H).
    + discriminate.
    + apply H. repeat constructor.
  - destruct (dispatch_echoes_command_line (cmds := commands) 1 "foo"
                ["ba" +:+ String NUL "r"] (set_echo_mode true world1))
      as (_ & _ & H & _).
    + discriminate.
    + exact H.
Defined.

(** X28.  [echo on], then [echo off], through the dispatcher. *)
Lemma echo_through_dispatcher_witness :
  exists w1 w2,
    Pass_call (cmds := echo_commands) 1 ["echo"; "on"] world2 = Done tt w1 /\
    echo_mode w1 = true /\
    counter_of 1 w1 = Some (wrap_int (0 + 1)) /\
    log_text (drop (length (events world2)) (events w1)) = "echo on" +:+ nl /\
    Pass_call (cmds := echo_commands) 1 ["echo"; "off"] w1 = Done tt w2 /\
    echo_mode w2 = false /\
    log_text (drop (length (events w1)) (events w2)) =
      "yosys> echo off" +:+ nl +:+ "echo off" +:+ nl.
Proof.
  destruct (echo_through_dispatcher (cmds := echo_commands) 1 true world2 1
              (mkPass "echo" "turning echoing back of commands on and off" 0 (Some 0)
                 PlainPass))
    as (w1 & Hrun1 & Hmode1 & Hd1 & Hc1 & evs1 & Hev1 & Hlog1);
    [reflexivity|reflexivity|reflexivity|by intros|reflexivity|].
  destruct (echo_through_dispatcher (cmds := echo_commands) 1 false w1 1
              (mkPass "echo" "turning echoing back of commands on and off" 1 (Some 0)
                 PlainPass))
    as (w2 & Hrun2 & Hmode2 & Hd2 & Hc2 & evs2 & Hev2 & Hlog2).
  - injection Hrun1 as <-. reflexivity.
  - injection Hrun1 as <-. reflexivity.
  - reflexivity.
  - by intros.
  - rewrite Hd1. reflexivity.
  - exists w1, w2.
    split_and!; [exact Hrun1|exact Hmode1|exact Hc1| |exact Hrun2|exact Hmode2|].
    + rewrite Hev1, drop_app_length, log_text_app, Hlog1. reflexivity.
    + rewrite Hev2, drop_app_length, log_text_app, Hlog2, Hmode1, Hd1. reflexivity.
Defined.

(** X25.  A command name with two underscores. *)
Lemma escape_tex_spec_witness :
  escape_tex "opt_clean_x" = Some (String.concat (String backslash "_") ["opt"; "clean"; "x"]) /\
  escape_tex "clean" = Some "clean".
Proof.
  destruct (escape_tex_spec "opt_clean_x") as (H1 & _).
  destruct (escape_tex_spec "clean") as (_ & _ & _ & H2).
  split; [exact H1|]. apply H2. reflexivity.
Defined.

(** X26.  A help text with the three special characters. *)
Lemma escape_html_spec_witness :
  escape_html "a<b> & c" = Some "a&lt;b&gt; &amp; c" /\
  escape_html "abc" = Some "abc".
Proof.
  destruct (escape_html_spec "a<b> & c") as (H1 & _).
  destruct (escape_html_spec "abc") as (_ & _ & H2).
  split; [exact H1|]. apply H2. reflexivity.
Defined.

(** X17.  The first of two files, and a file that does not open. *)
Lemma Frontend_extra_args_first_file_witness :
  Frontend_extra_args 7 None "" (["read_verilog"; "-sv"] ++ "a.v" :: ["b.v"]) 2 world1 =
    Done (Some (file_handle 3), "a.v")
      (set_next_args (["read_verilog"; "-sv"] ++ ["b.v"]) world1) /\
  exists msg,
    Frontend_extra_args 7 None "" (["read_verilog"] ++ "missing" :: []) 1 world1 =
      CmdError msg (set_next_args [] world1).
Proof.
  destruct (Frontend_extra_args_first_file 7 "" ["read_verilog"; "-sv"] "a.v" ["b.v"]
              world1) as (Hopen & _);
    [discriminate|reflexivity|repeat constructor|].
  destruct (Frontend_extra_args_first_file 7 "" ["read_verilog"] "missing" [] world1)
    as (_ & Hfail); [discriminate|reflexivity|constructor|].
  split.
  - apply (Hopen 3). reflexivity.
  - apply Hfail. reflexivity.
Defined.

(** X18.  The here-document sign on the sample installation. *)
Lemma here_document_forms_and_errors_witness :
  Frontend_extra_args 7 None "" (["read_verilog"] ++ ["<<"; "EOT"]) 1
    (set_current_script_file (Some script_ab) world1) =
  Frontend_extra_args 7 None "" (["read_verilog"] ++ ["<<" +:+ "EOT"]) 1
    (set_current_script_file (Some script_ab) world1) /\
  Frontend_extra_args 7 None "" (["read_verilog"] ++ ["<<" +:+ "EOT"]) 1 world1 =
    Fatal ("Unexpected here document '<<" +:+ "EOT" +:+ "' outside of script!" +:+ nl) /\
  Frontend_extra_args 7 None "" (["read_verilog"] ++ ["<<" +:+ "EOT"]) 1
    (set_current_script_file (Some (concat_lines ["a" +:+ nl; "b" +:+ nl])) world1) =
    Fatal ("Unexpected end of file in here document '<<" +:+ "EOT" +:+ "'!" +:+ nl).
Proof.
  split_and!.
  - destruct (here_document_forms_and_errors 7 "" ["read_verilog"] "EOT"
                (set_current_script_file (Some script_ab) world1)) as (Hsplit & _).
    exact Hsplit.
  - destruct (here_document_forms_and_errors 7 "" ["read_verilog"] "EOT" world1)
      as (_ & Hout & _). apply Hout. reflexivity.
  - destruct (here_document_forms_and_errors 7 "" ["read_verilog"] "EOT"
                (set_current_script_file
                   (Some (concat_lines ["a" +:+ nl; "b" +:+ nl])) world1))
      as (_ & _ & _ & Heof).
    apply (Heof ["a" +:+ nl; "b" +:+ nl]);
      [discriminate|repeat constructor|reflexivity].
Defined.

Lemma sample_backend_keeps_counter p f fname args (wa : World unit) f' wb :
  backend_execute p f fname args wa = Done f' wb ->
  counter_of p wb = counter_of p wa.
Proof.
  simpl. intros Hrun.
  apply bind_Done_inv in Hrun as (r & w1 & Hex & Hret).
  injection Hret as _ <-.
  by rewrite (Backend_extra_args_world _ _ _ _ _ _ _ _ Hex).
Qed.

(** X11.  [dump out.txt] through the dispatcher. *)
Lemma backend_dispatch_counts_twice_witness :
  counter_of 8 world1 = Some 0%Z /\
  counter_of 8 (world_of (Pass_call 1 ["dump"; "out.txt"] world1)) =
    Some (wrap_int (0 + 2)) /\
  counter_of 8 (world_of (Pass_call 1 ["dump"; "out.txt"] world1)) = Some (0 + 2)%Z.
Proof.
  destruct (backend_dispatch_counts_twice 1 "dump" ["out.txt"] world1 8
              (mkPass "dump" "" 0 (Some 7) (BackendPass "dump")) "dump"
              (world_of (Pass_call 1 ["dump"; "out.txt"] world1)))
    as (Hbefore & Hafter & Hexact).
  - discriminate.
  - reflexivity.
  - reflexivity.
  - reflexivity.
  - apply sample_backend_keeps_counter.
  - vm_compute. reflexivity.
  - split; [exact Hbefore|]. split; [exact Hafter|].
    apply Hexact; cbn [call_counter]; unfold int_min, int_max; lia.
Defined.

(** X5.  The tokens of a line with blanks of all kinds. *)
Lemma tokens_are_words_witness :
  tokens (c_str ("  foo" +:+ String HT "bar;;" +:+ nl)) blanks = ["foo"; "bar;;"] /\
  Forall (fun t => is_word t = true)
    (tokens (c_str ("  foo" +:+ String HT "bar;;" +:+ nl)) blanks).
Proof.
  split; [reflexivity|].
  destruct (tokens_are_words ("  foo" +:+ String HT "bar;;" +:+ nl)) as [Hwords _].
  exact Hwords.
Defined.

(** X9.  Three commands on a line of the sample installation. *)
Lemma semicolon_chain_witness :
  unwords (chain_tokens [(["foo"], "bar"); (["baz"], "")] ["clean"]) =
    "foo bar; baz ; clean" /\
  Pass_call_string 1 1
    (unwords (chain_tokens [(["foo"], "bar"); (["baz"], "")] ["clean"])) world1 =
    (dispatch_all 1 [(["foo"], "bar"); (["baz"], "")];; Pass_call 1 ["clean"]) world1 /\
  events (world_of (Pass_call_string 1 1 "foo bar; baz ; clean" world1)) =
    [EvLog "foo bar"; EvCheck; EvLog "baz"; EvCheck; EvLog "clean"; EvCheck].
Proof.
  destruct (semicolon_chain 1 0 [(["foo"], "bar"); (["baz"], "")] ["clean"] world1)
    as [_ Hline].
  - repeat constructor.
  - repeat constructor.
  - repeat constructor.
  - split; discriminate.
  - split; [reflexivity|]. split; [exact Hline|]. vm_compute. reflexivity.
Defined.

(** X2.  A pass constructed on the sample installation after its start-up. *)
Lemma late_registration_witness :
  (exists w1,
     construct (DeclPass "late" "") world1 = Done 9 w1 /\
     Pass_call 1 ["late"] w1 =
       CmdError ("No such command: " +:+ "late" +:+
                 " (type 'help' for a command overview)" +:+ nl)
         (echoed ["late"] w1)) /\
  (exists w',
     (construct (DeclPass "late" "");; Pass_init_register 1) world1 = Done tt w' /\
     pass_register w' !! "late" = Some 9 /\
     pass_register w' !! "foo" = pass_register world1 !! "foo").
Proof.
  destruct (late_registration (cmds := commands) (DeclPass "late" "") 0 world1)
    as [(w1 & Hc & _ & Hcall) (w' & Hrun & _ & _ & Hp & Hothers & _)];
    [reflexivity|reflexivity|discriminate|discriminate|discriminate|].
  split.
  - exists w1. split; [exact Hc|]. apply Hcall.
  - exists w'. split_and!; [exact Hrun|exact Hp|]. apply Hothers. discriminate.
Defined.
